(** * AutoCut Pro web client: progress stream, generate handler, upload zone

    A shallow embedding of the TypeScript sources under [Web_UI/src]:
    [api.ts] (the SSE progress subscription and the download URL),
    [App.tsx] (the generate handler and its progress callbacks),
    [components/VideoUploadZone.tsx] (file intake and drag reordering) and
    [components/SettingsPanel.tsx] (the beats-per-cut field).

    Conventions.  JavaScript numbers that carry measurements ([percent],
    stage progress, durations) are exact rationals [Q]; numbers that the
    code only ever produces as integers are [Z]; the four integer settings,
    which hold whatever [parseInt] returns, are [JS.number]: an integer
    that is a double, or an infinity.  A string is the UTF-8 encoding of
    the JavaScript string, one [ascii] per byte, a surrogate that stands
    alone being written as the three bytes of its code unit.  React state setters are
    applied in program order, so a handler is a function on the component
    state.  The wall clock, [crypto.randomUUID] and [URL.createObjectURL]
    are oracles indexed by the number of calls made so far. *)

From Stdlib Require Import List String Ascii ZArith QArith Qround Bool Lia Lqa.
From Stdlib Require Import Permutation Sorted DecimalString DecimalNat DecimalPos.
Import ListNotations.

Open Scope string_scope.
Open Scope Z_scope.

(* ====================================================================== *)
(** ** The JavaScript built-ins the sources call *)
(* ====================================================================== *)

Module JS.

(** [s.startsWith(p)] *)
Definition startsWith (s p : string) : bool := String.prefix p s.

(** [s.slice(0, n)] for a non-negative [n].  JavaScript counts UTF-16
    code units: a character of one, two or three bytes is one unit, a
    character of four bytes is a surrogate pair.  A cut between the two
    halves of a pair leaves the high surrogate alone, written here in the
    three-byte form of its code unit. *)
Definition highSurrogate (b1 b2 b3 : ascii) : string :=
  let n1 := Z.of_nat (nat_of_ascii b1) in
  let n2 := Z.of_nat (nat_of_ascii b2) in
  let n3 := Z.of_nat (nat_of_ascii b3) in
  let codePoint := (n1 mod 8) * 262144 + (n2 mod 64) * 4096 + (n3 mod 64) * 64 in
  let unit := 55296 + (codePoint - 65536) / 1024 in
  String (ascii_of_nat 237)
    (String (ascii_of_nat (Z.to_nat (128 + (unit / 64) mod 64)))
       (String (ascii_of_nat (Z.to_nat (128 + unit mod 64))) EmptyString)).

Fixpoint slice0 (n : nat) (s : string) {struct s} : string :=
  match n, s with
  | S m, String b1 r1 =>
      let n1 := nat_of_ascii b1 in
      if (n1 <? 192)%nat then String b1 (slice0 m r1)
      else if (n1 <? 224)%nat then
        match r1 with
        | String b2 r2 => String b1 (String b2 (slice0 m r2))
        | EmptyString => s
        end
      else if (n1 <? 240)%nat then
        match r1 with
        | String b2 (String b3 r3) => String b1 (String b2 (String b3 (slice0 m r3)))
        | _ => s
        end
      else
        match r1 with
        | String b2 (String b3 (String b4 r4)) =>
            match m with
            | S m' => String b1 (String b2 (String b3 (String b4 (slice0 m' r4))))
            | O => highSurrogate b1 b2 b3
            end
        | _ => s
        end
  | _, _ => EmptyString
  end.

(** [`${n}`] for a natural number. *)
Definition showNat (n : nat) : string := NilZero.string_of_uint (Nat.to_uint n).

(** [Math.round]: the nearest integer, halves going up. *)
Definition Math_round (x : Q) : Z := Qfloor (x + (1 # 2)).

(** *** Numbers

    The values [parseInt] returns, [NaN] apart, and so the values of the
    integer settings: an integer that is a double, or an infinity.  [-0]
    and [+0] are both [Int 0]; the code only tests them for truth. *)
Inductive number := Int (z : Z) | PosInfinity | NegInfinity.

Definition negate (x : number) : number :=
  match x with
  | Int z => Int (- z)
  | PosInfinity => NegInfinity
  | NegInfinity => PosInfinity
  end.

(** [a < b] and [a <= b]. *)
Definition ltb (a b : number) : bool :=
  match a, b with
  | Int x, Int y => x <? y
  | Int _, PosInfinity => true
  | Int _, NegInfinity => false
  | PosInfinity, _ => false
  | NegInfinity, NegInfinity => false
  | NegInfinity, _ => true
  end.

Definition leb (a b : number) : bool := negb (ltb b a).

(** The Number value for a non-negative integer [m] (ECMAScript 6.1.6.1):
    [m] itself when it fits the 53 bits of a significand; otherwise the
    nearest integer with 53 significant bits, a tie going to the even
    significand; [Infinity] from [2 ^ 1024] on. *)
Definition roundToDouble (m : Z) : number :=
  let bits := Z.log2 m + 1 in
  if bits <=? 53 then Int m
  else
    let e := bits - 53 in
    let q := Z.shiftr m e in
    let r := m - Z.shiftl q e in
    let half := Z.shiftl 1 (e - 1) in
    let q' := if (half <? r) || ((r =? half) && Z.odd q) then q + 1 else q in
    let v := Z.shiftl q' e in
    if v <? 2 ^ 1024 then Int v else PosInfinity.

(** The Number value for an integer. *)
Definition toNumber (x : Z) : number :=
  if x <? 0 then negate (roundToDouble (- x)) else roundToDouble x.

(** *** [parseInt(s)] with no radix argument (ECMAScript 19.2.5).
    [None] stands for [NaN]. *)

(** [StrWhiteSpaceChar] (ECMAScript 12.2 and 12.3) in UTF-8: the one-byte
    characters TAB, LF, VT, FF, CR and SP; U+00A0; and the three-byte
    characters U+1680, U+2000 to U+200A, U+2028, U+2029, U+202F, U+205F,
    U+3000 and U+FEFF. *)
Definition isWhiteSpace (c : ascii) : bool :=
  let n := nat_of_ascii c in
  (Nat.eqb n 9 || Nat.eqb n 10 || Nat.eqb n 11 || Nat.eqb n 12
   || Nat.eqb n 13 || Nat.eqb n 32)%bool.

(** The first bytes of the longer white space characters. *)
Definition startsWhiteSpace (c : ascii) : bool :=
  let n := nat_of_ascii c in
  (Nat.eqb n 194 || Nat.eqb n 225 || Nat.eqb n 226 || Nat.eqb n 227
   || Nat.eqb n 239)%bool.

Definition isWhiteSpace2 (c1 c2 : ascii) : bool :=
  (Nat.eqb (nat_of_ascii c1) 194 && Nat.eqb (nat_of_ascii c2) 160)%bool.

Definition isWhiteSpace3 (c1 c2 c3 : ascii) : bool :=
  let n1 := nat_of_ascii c1 in
  let n2 := nat_of_ascii c2 in
  let n3 := nat_of_ascii c3 in
  (Nat.eqb n1 225 && Nat.eqb n2 154 && Nat.eqb n3 128
   || Nat.eqb n1 226 && Nat.eqb n2 128
      && (Nat.leb 128 n3 && Nat.leb n3 138
          || Nat.eqb n3 168 || Nat.eqb n3 169 || Nat.eqb n3 175)
   || Nat.eqb n1 226 && Nat.eqb n2 129 && Nat.eqb n3 159
   || Nat.eqb n1 227 && Nat.eqb n2 128 && Nat.eqb n3 128
   || Nat.eqb n1 239 && Nat.eqb n2 187 && Nat.eqb n3 191)%bool.

(** [TrimString(s, start)]. *)
Fixpoint trimStart (s : string) : string :=
  match s with
  | String c1 r1 =>
      if isWhiteSpace c1 then trimStart r1
      else if negb (startsWhiteSpace c1) then s
      else
        match r1 with
        | String c2 r2 =>
            if isWhiteSpace2 c1 c2 then trimStart r2
            else
              match r2 with
              | String c3 r3 => if isWhiteSpace3 c1 c2 c3 then trimStart r3 else s
              | EmptyString => s
              end
        | EmptyString => s
        end
  | EmptyString => s
  end.

(** The value of a character as a digit of some radix up to 36. *)
Definition digitValue (c : ascii) : option Z :=
  let n := Z.of_nat (nat_of_ascii c) in
  if (48 <=? n) && (n <=? 57) then Some (n - 48)
  else if (97 <=? n) && (n <=? 122) then Some (n - 87)
  else if (65 <=? n) && (n <=? 90) then Some (n - 55)
  else None.

(** The longest prefix of radix-[R] digits, read as a number; [acc] is the
    value of the digits consumed so far, [None] before the first one. *)
Fixpoint digits (R : Z) (s : string) (acc : option Z) : option Z :=
  match s with
  | String c rest =>
      match digitValue c with
      | Some d =>
          if d <? R
          then digits R rest (Some (R * match acc with Some a => a | None => 0 end + d))
          else acc
      | None => acc
      end
  | EmptyString => acc
  end.

(** Step 4-5: an optional sign, returned with the rest of the string. *)
Definition stripSign (s : string) : Z * string :=
  match s with
  | String "-" rest => (-1, rest)
  | String "+" rest => (1, rest)
  | _ => (1, s)
  end.

(** Step 9: with radix 0 a leading [0x] or [0X] selects radix 16. *)
Definition stripPrefix (s : string) : Z * string :=
  match s with
  | String "0" (String "x" rest) => (16, rest)
  | String "0" (String "X" rest) => (16, rest)
  | _ => (10, s)
  end.

(** Steps 1-15: the signed integer the digits denote, taken exactly (the
    licence to read the digits after the 20th as zeros is not used). *)
Definition mathInt (s : string) : option Z :=
  let '(sign, s1) := stripSign (trimStart s) in
  let '(R, s2) := stripPrefix s1 in
  match digits R s2 None with
  | Some m => Some (sign * m)
  | None => None
  end.

(** Step 16: the result is the Number value for that integer. *)
Definition parseInt (s : string) : option number :=
  match mathInt s with
  | Some x => Some (toNumber x)
  | None => None
  end.

(** [x || d] on the result of [parseInt]: [NaN] and [0] are falsy. *)
Definition orElse (x : option number) (d : number) : number :=
  match x with
  | Some (Int n) => if n =? 0 then d else Int n
  | Some infinity => infinity
  | None => d
  end.

(** *** Arrays *)

(** [a.findIndex(p)]: the first index satisfying [p], or [-1]. *)
Fixpoint findIndexFrom {A} (p : A -> bool) (a : list A) (i : Z) : Z :=
  match a with
  | [] => -1
  | x :: rest => if p x then i else findIndexFrom p rest (i + 1)
  end.

Definition findIndex {A} (p : A -> bool) (a : list A) : Z := findIndexFrom p a 0.

(** The start index of [splice] and [slice] (ECMAScript 23.1.3.31, steps
    3-6): negative indices count from the end, everything is clamped to
    the array. *)
Definition relativeIndex (len start : Z) : nat :=
  Z.to_nat (if start <? 0 then Z.max (len + start) 0 else Z.min start len).

(** [a.splice(start, deleteCount, ...items)] returns the removed elements
    and leaves the array with [items] in their place. *)
Definition splice {A} (a : list A) (start deleteCount : Z) (items : list A)
  : list A * list A :=
  let len := Z.of_nat (List.length a) in
  let actualStart := relativeIndex len start in
  let actualDeleteCount :=
    Z.to_nat (Z.min (Z.max deleteCount 0) (len - Z.of_nat actualStart)) in
  (firstn actualDeleteCount (skipn actualStart a),
   (firstn actualStart a ++ items
      ++ skipn (actualStart + actualDeleteCount) a)%list).

(** *** Strings *)

(** [String(n)] for a number [n] that is an integer: its decimal digits
    below [10 ^ 21] in magnitude; from there on JavaScript writes a
    mantissa and an exponent, which is [None] here. *)
Definition showInt (n : Z) : option string :=
  if Z.abs n <? 10 ^ 21 then Some (NilZero.string_of_int (Z.to_int n)) else None.

(** [n] copies of a character. *)
Fixpoint fill (n : nat) (c : ascii) : string :=
  match n with
  | O => EmptyString
  | S m => String c (fill m c)
  end.

(** [s.length]: the number of UTF-16 code units.  Each character counts
    at its first byte: 2 for a character of four bytes, 1 otherwise. *)
Fixpoint length (s : string) : nat :=
  match s with
  | String b rest =>
      let n := nat_of_ascii b in
      ((if (n <? 128)%nat then 1 else if (n <? 192)%nat then 0
        else if (n <? 240)%nat then 1 else 2) + length rest)%nat
  | EmptyString => 0%nat
  end.

(** [s.padStart(targetLength, c)] for a pad string of one character. *)
Definition padStart (targetLength : nat) (c : ascii) (s : string) : string :=
  fill (targetLength - length s) c ++ s.

End JS.

Coercion JS.Int : Z >-> JS.number.

(* ====================================================================== *)
(** ** [types.ts] *)
(* ====================================================================== *)

(** A browser [File]: the attributes the code reads, and the blob it
    stands for. *)
Module File.
Record t := mk { name : string; size : Z; type : string; blob : nat }.
End File.

Module VideoItem.
Record t := mk {
  id : string;
  file : File.t;
  name : string;
  size : Z;
  thumbnailUrl : string;
  previewUrl : string;
  duration : option Q
}.
End VideoItem.

Module AudioFile.
Record t := mk { id : string; file : File.t; name : string; size : Z }.
End AudioFile.

Module SubtitleFile.
Record t := mk { id : string; file : File.t; name : string; size : Z }.
End SubtitleFile.

Module ProjectSettings.
Record t := mk {
  beatSensitivity : Q;
  whisperModel : string;
  language : string;
  beatsPerCut : JS.number;
  totalDuration : Q;
  videoWidth : JS.number;
  videoHeight : JS.number;
  fps : JS.number;
  tempPath : string;
  outputPath : string
}.
End ProjectSettings.

Module StageStatus.
Inductive t := pending | running | completed.
End StageStatus.

Module ProcessStage.
Record t := mk { id : string; label : string; progress : Q; status : StageStatus.t }.
End ProcessStage.

Module LogType.
Inductive t := info | success | warning | error.
End LogType.

Module LogEntry.
Record t := mk { timestamp : string; message : string; type : LogType.t }.
End LogEntry.

Module ProcessStatus.
Inductive t := idle | processing | completed | error.

(** [a === b] on statuses. *)
Definition eqb (a b : t) : bool :=
  match a, b with
  | idle, idle | processing, processing | completed, completed | error, error => true
  | _, _ => false
  end.
End ProcessStatus.

(* ====================================================================== *)
(** ** [api.ts] *)
(* ====================================================================== *)

Module Api.

Definition API_BASE : string := "http://localhost:8000".

Module UploadResult.
Record t := mk {
  video_paths : list string;
  audio_path : option string;
  srt_path : option string
}.
End UploadResult.

(** [audio_path] is typed [string], but the one value ever stored in it is
    [uploadResult.audio_path!], which is [null] when the server sent none. *)
Module GenerateConfig.
Record t := mk {
  video_paths : list string;
  audio_path : option string;
  srt_path : option string;
  whisper_model : string;
  language : string;
  beat_sensitivity : Q;
  beats_per_cut : JS.number;
  total_duration : Q;
  video_width : JS.number;
  video_height : JS.number;
  fps : JS.number;
  temp_path : string;
  output_path : string
}.
End GenerateConfig.

Record ProgressEvent := { stage : string; message : string; percent : Q }.

(** What [subscribeProgress] may call back. *)
Inductive Callback :=
| OnEvent (event : ProgressEvent)
| OnDone
| OnError (error : string).

(** An [EventSource]: its URL and whether [close()] has been called. *)
Record EventSource := { url : string; closed : bool }.

Definition close (es : EventSource) : EventSource :=
  {| url := url es; closed := true |}.

(** What the browser hands to the two handlers: a message, whose data
    either parses to a progress event or makes [JSON.parse] throw, and a
    connection failure. *)
Inductive SseItem :=
| Message (data : option ProgressEvent)
| ConnectionError.

(** [eventSource.onmessage]. *)
Definition onmessage (es : EventSource) (data : option ProgressEvent)
  : EventSource * option Callback :=
  match data with
  | Some d =>
      if String.eqb (stage d) "end" then (close es, Some OnDone)
      else if String.eqb (stage d) "error" then (close es, Some (OnError (message d)))
      else (es, Some (OnEvent d))
  | None => (es, None)
  end.

(** [eventSource.onerror]. *)
Definition onerror (es : EventSource) : EventSource * option Callback :=
  (close es, Some (OnError "SSE 连接中断")).

(** The browser dispatches to the handlers of an open source only. *)
Definition dispatch (es : EventSource) (item : SseItem)
  : EventSource * option Callback :=
  if closed es then (es, None)
  else match item with
       | Message data => onmessage es data
       | ConnectionError => onerror es
       end.

(** The callbacks made while a sequence of items arrives, in order. *)
Fixpoint pump (es : EventSource) (items : list SseItem)
  : EventSource * list Callback :=
  match items with
  | [] => (es, [])
  | item :: rest =>
      let '(es1, cb) := dispatch es item in
      let '(es2, cbs) := pump es1 rest in
      (es2, match cb with Some c => c :: cbs | None => cbs end)
  end.

(** [subscribeProgress(taskId, ...)] opens the source; the function it
    returns is [close] on that source. *)
Definition subscribeProgress (taskId : string) : EventSource :=
  {| url := API_BASE ++ "/api/progress/" ++ taskId; closed := false |}.

Definition getDownloadUrl (taskId : string) : string :=
  API_BASE ++ "/api/download/" ++ taskId.

End Api.

(* ====================================================================== *)
(** ** [components/SettingsPanel.tsx] *)
(* ====================================================================== *)

Module SettingsPanel.

Import ProjectSettings.

(** [update('beatsPerCut', value)]: [onChange({ ...settings, [key]: value })]. *)
Definition update_beatsPerCut (settings : ProjectSettings.t) (value : JS.number)
  : ProjectSettings.t :=
  {| beatSensitivity := beatSensitivity settings;
     whisperModel := whisperModel settings;
     language := language settings;
     beatsPerCut := value;
     totalDuration := totalDuration settings;
     videoWidth := videoWidth settings;
     videoHeight := videoHeight settings;
     fps := fps settings;
     tempPath := tempPath settings;
     outputPath := outputPath settings |}.

(** The [onChange] of the beats-per-cut input, applied to [e.target.value]:
    [update('beatsPerCut', parseInt(e.target.value) || 1)]. *)
Definition onChange_beatsPerCut (settings : ProjectSettings.t) (value : string)
  : ProjectSettings.t :=
  update_beatsPerCut settings (JS.orElse (JS.parseInt value) 1).

(** [update('videoWidth', value)], [update('videoHeight', value)] and
    [update('fps', value)]. *)
Definition update_videoWidth (settings : ProjectSettings.t) (value : JS.number)
  : ProjectSettings.t :=
  {| beatSensitivity := beatSensitivity settings;
     whisperModel := whisperModel settings;
     language := language settings;
     beatsPerCut := beatsPerCut settings;
     totalDuration := totalDuration settings;
     videoWidth := value;
     videoHeight := videoHeight settings;
     fps := fps settings;
     tempPath := tempPath settings;
     outputPath := outputPath settings |}.

Definition update_videoHeight (settings : ProjectSettings.t) (value : JS.number)
  : ProjectSettings.t :=
  {| beatSensitivity := beatSensitivity settings;
     whisperModel := whisperModel settings;
     language := language settings;
     beatsPerCut := beatsPerCut settings;
     totalDuration := totalDuration settings;
     videoWidth := videoWidth settings;
     videoHeight := value;
     fps := fps settings;
     tempPath := tempPath settings;
     outputPath := outputPath settings |}.

Definition update_fps (settings : ProjectSettings.t) (value : JS.number)
  : ProjectSettings.t :=
  {| beatSensitivity := beatSensitivity settings;
     whisperModel := whisperModel settings;
     language := language settings;
     beatsPerCut := beatsPerCut settings;
     totalDuration := totalDuration settings;
     videoWidth := videoWidth settings;
     videoHeight := videoHeight settings;
     fps := value;
     tempPath := tempPath settings;
     outputPath := outputPath settings |}.

(** The [onChange] handlers of the width, height and frame-rate inputs:
    [parseInt(e.target.value) || 1080], [|| 1920] and [|| 30]. *)
Definition onChange_videoWidth (settings : ProjectSettings.t) (value : string)
  : ProjectSettings.t :=
  update_videoWidth settings (JS.orElse (JS.parseInt value) 1080).

Definition onChange_videoHeight (settings : ProjectSettings.t) (value : string)
  : ProjectSettings.t :=
  update_videoHeight settings (JS.orElse (JS.parseInt value) 1920).

Definition onChange_fps (settings : ProjectSettings.t) (value : string)
  : ProjectSettings.t :=
  update_fps settings (JS.orElse (JS.parseInt value) 30).

End SettingsPanel.

(* ====================================================================== *)
(** ** [components/VideoUploadZone.tsx] *)
(* ====================================================================== *)

Module VideoUploadZone.

(** How often the two browser services have been called. *)
Record Browser := { uuidCalls : nat; urlCalls : nat }.

(** [arrayMove] of [@dnd-kit/sortable], which the component imports:
    [[
      const newArray = array.slice();
      newArray.splice(to < 0 ? newArray.length + to : to, 0,
                      newArray.splice(from, 1)[0]);
      return newArray;
    ]]
    The insertion index is computed before the inner [splice] runs.  An
    array cell is [None] when it holds [undefined], which is what
    [[][0]] yields when nothing was removed. *)
Definition arrayMove {A} (array : list A) (from to : Z) : list (option A) :=
  let newArray := map Some array in
  let start := if to <? 0 then Z.of_nat (List.length newArray) + to else to in
  let '(removed, newArray1) := JS.splice newArray from 1 [] in
  let item := match removed with x :: _ => x | [] => None end in
  snd (JS.splice newArray1 start 0 [item]).

Record DragEndEvent := { active : string; over : option string }.

Section Services.

(** The [n]-th UUID handed out, and the [n]-th object URL. *)
Variable randomUUID : nat -> string.
Variable createObjectURL : nat -> File.t -> string.

(** The [.map] callback of [handleFiles], run over the filtered files. *)
Fixpoint newItems (b : Browser) (files : list File.t)
  : list VideoItem.t * Browser :=
  match files with
  | [] => ([], b)
  | file :: rest =>
      let url := createObjectURL (urlCalls b) file in
      let item :=
        {| VideoItem.id := randomUUID (uuidCalls b);
           VideoItem.file := file;
           VideoItem.name := File.name file;
           VideoItem.size := File.size file;
           VideoItem.thumbnailUrl := url;
           VideoItem.previewUrl := url;
           VideoItem.duration := None |} in
      let '(items, b') :=
        newItems {| uuidCalls := S (uuidCalls b); urlCalls := S (urlCalls b) |} rest in
      (item :: items, b')
  end.

Definition isVideo (f : File.t) : bool := JS.startsWith (File.type f) "video/".

(** [handleFiles(files)].  The result is the argument [onVideosChange]
    is called with, [None] when it is not called. *)
Definition handleFiles (videos : list VideoItem.t) (files : option (list File.t))
    (b : Browser) : option (list VideoItem.t) * Browser :=
  match files with
  | None => (None, b)
  | Some files =>
      let '(items, b') := newItems b (filter isVideo files) in
      (Some (videos ++ items)%list, b')
  end.

End Services.

(** [handleDragEnd(event)], with the same convention for the result. *)
Definition handleDragEnd (videos : list VideoItem.t) (event : DragEndEvent)
  : option (list (option VideoItem.t)) :=
  match over event with
  | Some over_id =>
      if negb (String.eqb (active event) over_id) then
        let oldIndex := JS.findIndex (fun v => String.eqb (VideoItem.id v) (active event)) videos in
        let newIndex := JS.findIndex (fun v => String.eqb (VideoItem.id v) over_id) videos in
        Some (arrayMove videos oldIndex newIndex)
      else None
  | None => None
  end.

(** [removeVideo(id)]: the URL handed to [URL.revokeObjectURL], if any, and
    the list handed to [onVideosChange]. *)
Definition removeVideo (videos : list VideoItem.t) (id : string)
  : option string * list VideoItem.t :=
  let item := find (fun v => String.eqb (VideoItem.id v) id) videos in
  (option_map VideoItem.previewUrl item,
   filter (fun v => negb (String.eqb (VideoItem.id v) id)) videos).

End VideoUploadZone.

(* ====================================================================== *)
(** ** [components/AudioSubtitleZone.tsx] *)
(* ====================================================================== *)

Module AudioSubtitleZone.

(** [e.target.files?.[0]] *)
Definition firstFile (files : option (list File.t)) : option File.t :=
  match files with
  | Some (f :: _) => Some f
  | _ => None
  end.

Section Services.

Variable randomUUID : nat -> string.

(** The [onChange] of the audio card's file input: [if (f) onFileChange(f)],
    where [onFileChange] calls [onAudioChange] with a fresh item.  The
    result is the argument of [onAudioChange], [None] when it is not
    called, and the number of UUIDs handed out so far. *)
Definition onAudioFiles (files : option (list File.t)) (uuidCalls : nat)
  : option (option AudioFile.t) * nat :=
  match firstFile files with
  | Some f =>
      (Some (Some {| AudioFile.id := randomUUID uuidCalls;
                     AudioFile.file := f;
                     AudioFile.name := File.name f;
                     AudioFile.size := File.size f |}),
       S uuidCalls)
  | None => (None, uuidCalls)
  end.

(** The same for the subtitle card. *)
Definition onSubtitleFiles (files : option (list File.t)) (uuidCalls : nat)
  : option (option SubtitleFile.t) * nat :=
  match firstFile files with
  | Some f =>
      (Some (Some {| SubtitleFile.id := randomUUID uuidCalls;
                     SubtitleFile.file := f;
                     SubtitleFile.name := File.name f;
                     SubtitleFile.size := File.size f |}),
       S uuidCalls)
  | None => (None, uuidCalls)
  end.

End Services.

(** The two [onRemove] handlers: [onAudioChange(null)], [onSubtitleChange(null)]. *)
Definition onAudioRemove : option (option AudioFile.t) := Some None.

Definition onSubtitleRemove : option (option SubtitleFile.t) := Some None.

End AudioSubtitleZone.

(* ====================================================================== *)
(** ** [App.tsx] *)
(* ====================================================================== *)

Module App.

Import Api.

(** An entry of [INITIAL_STAGES]: [{ id, label, progress: 0, status: 'pending' }]. *)
Definition pendingStage (id label : string) : ProcessStage.t :=
  {| ProcessStage.id := id; ProcessStage.label := label;
     ProcessStage.progress := 0%Q; ProcessStage.status := StageStatus.pending |}.

Definition INITIAL_STAGES : list ProcessStage.t :=
  [ pendingStage "upload" "上传素材到服务器";
    pendingStage "whisper" "语音识别 (Whisper)";
    pendingStage "beat" "节拍检测 (Librosa)";
    pendingStage "ffmpeg" "FFmpeg 视频剪辑";
    pendingStage "finalize" "生成最终文件" ].

Definition DEFAULT_SETTINGS : ProjectSettings.t :=
  {| ProjectSettings.beatSensitivity := 1%Q;
     ProjectSettings.whisperModel := "small";
     ProjectSettings.language := "Swedish";
     ProjectSettings.beatsPerCut := 2;
     ProjectSettings.totalDuration := (2108 # 100)%Q;
     ProjectSettings.videoWidth := 1080;
     ProjectSettings.videoHeight := 1920;
     ProjectSettings.fps := 30;
     ProjectSettings.tempPath := "output/temp";
     ProjectSettings.outputPath := "output" |}.

(** The [useState] cells of the component. *)
Record State := {
  videos : list VideoItem.t;
  audio : option AudioFile.t;
  subtitle : option SubtitleFile.t;
  settings : ProjectSettings.t;
  processStatus : ProcessStatus.t;
  stages : list ProcessStage.t;
  logs : list LogEntry.t;
  overallProgress : Z;
  downloadUrl : option string
}.

(** The component state together with what lives outside React: the
    [EventSource] objects created so far (addressed by position),
    [unsubRef.current] (the source its closure closes) and the number of
    times the clock has been read. *)
Record World := {
  ui : State;
  unsubRef : option nat;
  sources : list EventSource;
  dateCalls : nat
}.

Definition initialState : State :=
  {| videos := []; audio := None; subtitle := None; settings := DEFAULT_SETTINGS;
     processStatus := ProcessStatus.idle; stages := INITIAL_STAGES; logs := [];
     overallProgress := 0; downloadUrl := None |}.

(** *** The state setters *)

Definition setProcessStatus (v : ProcessStatus.t) (s : State) : State :=
  {| videos := videos s; audio := audio s; subtitle := subtitle s;
     settings := settings s; processStatus := v; stages := stages s;
     logs := logs s; overallProgress := overallProgress s;
     downloadUrl := downloadUrl s |}.

Definition setStages (f : list ProcessStage.t -> list ProcessStage.t) (s : State) : State :=
  {| videos := videos s; audio := audio s; subtitle := subtitle s;
     settings := settings s; processStatus := processStatus s;
     stages := f (stages s);
     logs := logs s; overallProgress := overallProgress s;
     downloadUrl := downloadUrl s |}.

Definition setLogs (f : list LogEntry.t -> list LogEntry.t) (s : State) : State :=
  {| videos := videos s; audio := audio s; subtitle := subtitle s;
     settings := settings s; processStatus := processStatus s;
     stages := stages s;
     logs := f (logs s); overallProgress := overallProgress s;
     downloadUrl := downloadUrl s |}.

Definition setOverallProgress (v : Z) (s : State) : State :=
  {| videos := videos s; audio := audio s; subtitle := subtitle s;
     settings := settings s; processStatus := processStatus s;
     stages := stages s;
     logs := logs s; overallProgress := v;
     downloadUrl := downloadUrl s |}.

Definition setDownloadUrl (v : option string) (s : State) : State :=
  {| videos := videos s; audio := audio s; subtitle := subtitle s;
     settings := settings s; processStatus := processStatus s;
     stages := stages s;
     logs := logs s; overallProgress := overallProgress s;
     downloadUrl := v |}.

Definition setVideos (v : list VideoItem.t) (s : State) : State :=
  {| videos := v; audio := audio s; subtitle := subtitle s;
     settings := settings s; processStatus := processStatus s;
     stages := stages s;
     logs := logs s; overallProgress := overallProgress s;
     downloadUrl := downloadUrl s |}.

Definition setAudio (v : option AudioFile.t) (s : State) : State :=
  {| videos := videos s; audio := v; subtitle := subtitle s;
     settings := settings s; processStatus := processStatus s;
     stages := stages s;
     logs := logs s; overallProgress := overallProgress s;
     downloadUrl := downloadUrl s |}.

Definition setSubtitle (v : option SubtitleFile.t) (s : State) : State :=
  {| videos := videos s; audio := audio s; subtitle := v;
     settings := settings s; processStatus := processStatus s;
     stages := stages s;
     logs := logs s; overallProgress := overallProgress s;
     downloadUrl := downloadUrl s |}.

(** A child component's callback prop wired to a setter, as in
    [onAudioChange={setAudio}]: the setter runs when the child called back. *)
Definition wired {A} (set : A -> State -> State) (called : option A) (s : State) : State :=
  match called with
  | Some v => set v s
  | None => s
  end.

(** The timestamp of [addLog], from [getHours()], [getMinutes()] and
    [getSeconds()]: each is padded to two characters with [0]. *)
Definition timestamp (hours minutes seconds : nat) : string :=
  JS.padStart 2 "0" (JS.showNat hours) ++ ":"
  ++ JS.padStart 2 "0" (JS.showNat minutes) ++ ":"
  ++ JS.padStart 2 "0" (JS.showNat seconds).

(** Run a state update inside the world. *)
Definition onUi (f : State -> State) (w : World) : World :=
  {| ui := f (ui w); unsubRef := unsubRef w; sources := sources w;
     dateCalls := dateCalls w |}.

(** Replace the [n]-th source. *)
Fixpoint setSource (n : nat) (es : EventSource) (l : list EventSource)
  : list EventSource :=
  match l, n with
  | [], _ => []
  | _ :: rest, O => es :: rest
  | x :: rest, S m => x :: setSource m es rest
  end.

Definition replaceSource (n : nat) (es : EventSource) (w : World) : World :=
  {| ui := ui w; unsubRef := unsubRef w;
     sources := setSource n es (sources w); dateCalls := dateCalls w |}.

(** [prev.map(s => s.id === stageId ? { ...s, status, progress } : s)] *)
Definition updateStageIn (stageId : string) (status : StageStatus.t) (progress : Q)
    (prev : list ProcessStage.t) : list ProcessStage.t :=
  map (fun s =>
         if String.eqb (ProcessStage.id s) stageId
         then {| ProcessStage.id := ProcessStage.id s;
                 ProcessStage.label := ProcessStage.label s;
                 ProcessStage.progress := progress;
                 ProcessStage.status := status |}
         else s) prev.

Definition updateStage (stageId : string) (status : StageStatus.t) (progress : Q)
  : World -> World :=
  onUi (setStages (updateStageIn stageId status progress)).

(** [prev.map(s => ({ ...s, status: 'completed', progress: 100 }))] *)
Definition completeAll (prev : list ProcessStage.t) : list ProcessStage.t :=
  map (fun s => {| ProcessStage.id := ProcessStage.id s;
                   ProcessStage.label := ProcessStage.label s;
                   ProcessStage.progress := 100%Q;
                   ProcessStage.status := StageStatus.completed |}) prev.

(** What [stageWeights[event.stage]] evaluates to.  [stageWeights] is an
    object literal, so besides its four own keys the lookup finds the
    members of [Object.prototype]; those are truthy and not iterable, and
    destructuring one throws. *)
Inductive Weight :=
| Range (min max : Z)
| Inherited
| Undefined.

Definition objectPrototypeKeys : list string :=
  [ "constructor"; "hasOwnProperty"; "isPrototypeOf"; "propertyIsEnumerable";
    "toLocaleString"; "toString"; "valueOf"; "__proto__";
    "__defineGetter__"; "__defineSetter__"; "__lookupGetter__"; "__lookupSetter__" ].

Definition stageWeights (key : string) : Weight :=
  if String.eqb key "whisper" then Range 10 30
  else if String.eqb key "beat" then Range 30 45
  else if String.eqb key "ffmpeg" then Range 45 90
  else if String.eqb key "finalize" then Range 90 100
  else if existsb (String.eqb key) objectPrototypeKeys then Inherited
  else Undefined.

(** [min + ((event.percent / 100) * (max - min))], rounded. *)
Definition overall (min max : Z) (percent : Q) : Z :=
  JS.Math_round (inject_Z min + (percent / 100) * inject_Z (max - min))%Q.

(** What [handleGenerate] leaves in the closure of its callbacks. *)
Record Listener := { taskId : string; source : nat; lastStage : string }.

(** Where a call of [handleGenerate] stands: returned, suspended at one of
    its two [await]s (with what it sent and what its closure holds), or
    subscribed. *)
Inductive Suspended :=
| Returned
| AwaitUpload (videoFiles : list File.t) (audioFile : File.t)
              (subtitleFile : option File.t) (captured : ProjectSettings.t)
| AwaitGenerate (config : GenerateConfig.t)
| Listening (l : Listener).

(** How an awaited request settles. *)
Inductive Settled (A : Type) :=
| Resolved (value : A)
| Rejected (err : string).
Arguments Resolved {A} value.
Arguments Rejected {A} err.

Section Clock.

(** The [HH:MM:SS] rendering of the clock at its [n]-th reading. *)
Variable clock : nat -> string.

Definition addLog (message : string) (type : LogType.t) (w : World) : World :=
  let entry := {| LogEntry.timestamp := clock (dateCalls w);
                  LogEntry.message := message;
                  LogEntry.type := type |} in
  {| ui := setLogs (fun prev => prev ++ [entry])%list (ui w);
     unsubRef := unsubRef w; sources := sources w;
     dateCalls := S (dateCalls w) |}.

(** Lines 86-90: close the connection of the previous run. *)
Definition closePrevious (w : World) : World :=
  match unsubRef w with
  | Some n =>
      let w1 := match nth_error (sources w) n with
                | Some es => replaceSource n (close es) w
                | None => w
                end in
      {| ui := ui w1; unsubRef := None; sources := sources w1;
         dateCalls := dateCalls w1 |}
  | None => w
  end.

(** Lines 92-97: reset the progress state. *)
Definition resetProgress (w : World) : World :=
  onUi (setDownloadUrl None)
    (onUi (setOverallProgress 0)
       (onUi (setLogs (fun _ => []))
          (onUi (setStages (fun _ => INITIAL_STAGES))
             (onUi (setProcessStatus ProcessStatus.processing) w)))).

(** Lines 101-109: start the upload stage and send the files. *)
Definition beginUpload (a : AudioFile.t) (w : World) : World * Suspended :=
  let w1 := updateStage "upload" StageStatus.running 0 w in
  let w2 := addLog "正在上传素材到后端服务器..." LogType.info w1 in
  (w2, AwaitUpload (map VideoItem.file (videos (ui w)))
                   (AudioFile.file a)
                   (option_map SubtitleFile.file (subtitle (ui w)))
                   (settings (ui w))).

(** [handleGenerate] up to its first [await]. *)
Definition handleGenerate (w : World) : World * Suspended :=
  if Nat.eqb (List.length (videos (ui w))) 0 then
    (addLog "请先上传至少一个视频素材" LogType.error w, Returned)
  else
    match audio (ui w) with
    | None => (addLog "请先上传背景音乐" LogType.error w, Returned)
    | Some a => beginUpload a (resetProgress (closePrevious w))
    end.

(** The [catch] block. *)
Definition catch (err : string) (w : World) : World * Suspended :=
  (addLog ("请求失败: " ++ err) LogType.error
     (onUi (setProcessStatus ProcessStatus.error) w),
   Returned).

(** Lines 111-132, entered when [uploadFiles] settles. *)
Definition uploadSettled (captured : ProjectSettings.t)
    (r : Settled UploadResult.t) (w : World) : World * Suspended :=
  match r with
  | Resolved uploadResult =>
      let w1 := updateStage "upload" StageStatus.completed 100 w in
      let w2 := addLog ("上传完成：" ++ JS.showNat (List.length (UploadResult.video_paths uploadResult))
                        ++ " 个视频") LogType.success w1 in
      let w3 := onUi (setOverallProgress 10) w2 in
      let w4 := addLog "正在提交生成任务..." LogType.info w3 in
      (w4, AwaitGenerate
             {| GenerateConfig.video_paths := UploadResult.video_paths uploadResult;
                GenerateConfig.audio_path := UploadResult.audio_path uploadResult;
                GenerateConfig.srt_path := UploadResult.srt_path uploadResult;
                GenerateConfig.whisper_model := ProjectSettings.whisperModel captured;
                GenerateConfig.language := ProjectSettings.language captured;
                GenerateConfig.beat_sensitivity := ProjectSettings.beatSensitivity captured;
                GenerateConfig.beats_per_cut := ProjectSettings.beatsPerCut captured;
                GenerateConfig.total_duration := ProjectSettings.totalDuration captured;
                GenerateConfig.video_width := ProjectSettings.videoWidth captured;
                GenerateConfig.video_height := ProjectSettings.videoHeight captured;
                GenerateConfig.fps := ProjectSettings.fps captured;
                GenerateConfig.temp_path := ProjectSettings.tempPath captured;
                GenerateConfig.output_path := ProjectSettings.outputPath captured |})
  | Rejected err => catch err w
  end.

(** Lines 134-184, entered when [startGenerate] settles. *)
Definition generateSettled (r : Settled string) (w : World) : World * Suspended :=
  match r with
  | Resolved taskId =>
      let w1 := addLog ("任务已创建，ID: " ++ JS.slice0 8 taskId ++ "...") LogType.info w in
      let n := List.length (sources w1) in
      ({| ui := ui w1; unsubRef := Some n;
          sources := (sources w1 ++ [subscribeProgress taskId])%list;
          dateCalls := dateCalls w1 |},
       Listening {| taskId := taskId; source := n; lastStage := "" |})
  | Rejected err => catch err w
  end.

(** *** The three callbacks given to [subscribeProgress] *)

(** [onEvent], lines 142-168.  When [stageWeights[event.stage]] is an
    inherited member the destructuring throws; the [try] around the call in
    [onmessage] swallows the exception, and the updates made up to there
    stand. *)
Definition onEvent (event : ProgressEvent) (lw : Listener * World) : Listener * World :=
  let '(l, w) := lw in
  let w1 :=
    if negb (String.eqb (Api.stage event) (lastStage l))
       && negb (String.eqb (lastStage l) "")
    then updateStage (lastStage l) StageStatus.completed 100 w
    else w in
  let l1 := {| taskId := taskId l; source := source l; lastStage := Api.stage event |} in
  if String.eqb (Api.stage event) "done" then (l1, w1)
  else
    let w2 := updateStage (Api.stage event) StageStatus.running (percent event) w1 in
    let log := addLog (message event)
                 (if String.eqb (Api.stage event) "error" then LogType.error
                  else LogType.info) in
    match stageWeights (Api.stage event) with
    | Range min max => (l1, log (onUi (setOverallProgress (overall min max (percent event))) w2))
    | Inherited => (l1, w2)
    | Undefined => (l1, log w2)
    end.

(** [onDone], lines 170-176. *)
Definition onDone (lw : Listener * World) : Listener * World :=
  let '(l, w) := lw in
  let w1 := onUi (setStages completeAll) w in
  let w2 := onUi (setOverallProgress 100) w1 in
  let w3 := onUi (setProcessStatus ProcessStatus.completed) w2 in
  let w4 := onUi (setDownloadUrl (Some (getDownloadUrl (taskId l)))) w3 in
  (l, addLog "===== 全部处理完成 =====" LogType.success w4).

(** [onError], lines 178-181. *)
Definition onError (error : string) (lw : Listener * World) : Listener * World :=
  let '(l, w) := lw in
  (l, addLog ("处理失败: " ++ error) LogType.error
        (onUi (setProcessStatus ProcessStatus.error) w)).

Definition call (cb : Callback) : Listener * World -> Listener * World :=
  match cb with
  | OnEvent event => onEvent event
  | OnDone => onDone
  | OnError error => onError error
  end.

(** One item arrives on the listener's source. *)
Definition deliver (item : SseItem) (lw : Listener * World) : Listener * World :=
  let '(l, w) := lw in
  match nth_error (sources w) (source l) with
  | Some es =>
      let '(es', cb) := dispatch es item in
      let w' := replaceSource (source l) es' w in
      match cb with
      | Some c => call c (l, w')
      | None => (l, w')
      end
  | None => lw
  end.

Definition listen (items : list SseItem) (lw : Listener * World) : Listener * World :=
  fold_left (fun acc item => deliver item acc) items lw.

(** *** A whole run: how the two requests settle and what the stream
    then carries. *)
Inductive Script :=
| UploadFails (err : string)
| GenerateFails (uploadResult : UploadResult.t) (err : string)
| Streams (uploadResult : UploadResult.t) (taskId : string) (items : list SseItem).

Definition resume (script : Script) (captured : ProjectSettings.t) (w : World) : World :=
  match script with
  | UploadFails err => fst (uploadSettled captured (Rejected err) w)
  | GenerateFails uploadResult err =>
      fst (generateSettled (Rejected err)
             (fst (uploadSettled captured (Resolved uploadResult) w)))
  | Streams uploadResult taskId items =>
      match generateSettled (Resolved taskId)
              (fst (uploadSettled captured (Resolved uploadResult) w)) with
      | (w', Listening l) => snd (listen items (l, w'))
      | (w', _) => w'
      end
  end.

Definition run (script : Script) (w : World) : World :=
  match handleGenerate w with
  | (w', AwaitUpload _ _ _ captured) => resume script captured w'
  | (w', _) => w'
  end.

End Clock.

End App.

(* ====================================================================== *)
(** ** [api.ts]: the two requests *)
(* ====================================================================== *)

Module Requests.

Import Api App.

(** What [fetch] gives back: a rejection (the network failed) or a response
    with its status line and what [res.json()] settles to. *)
Record Response (A : Type) := {
  ok : bool;
  status : nat;
  statusText : string;
  json : Settled A
}.
Arguments ok {A} _.
Arguments status {A} _.
Arguments statusText {A} _.
Arguments json {A} _.

Inductive Fetched (A : Type) :=
| Failed (message : string)
| Responded (res : Response A).
Arguments Failed {A} message.
Arguments Responded {A} res.

(** The [FormData] built by [uploadFiles], as its list of entries. *)
Definition formData (videos : list File.t) (audio subtitle : option File.t)
  : list (string * File.t) :=
  (map (fun file => ("videos", file)) videos
   ++ match audio with Some a => [("audio", a)] | None => [] end
   ++ match subtitle with Some f => [("subtitle", f)] | None => [] end)%list.

(** [formData.getAll(name)] *)
Definition getAll (name : string) (form : list (string * File.t)) : list File.t :=
  map snd (filter (fun entry => String.eqb (fst entry) name) form).

(** How [uploadFiles] settles, given what its [fetch] gave back. *)
Definition uploadFiles (fetched : Fetched UploadResult.t) : Settled UploadResult.t :=
  match fetched with
  | Failed message => Rejected message
  | Responded res =>
      if negb (ok res)
      then Rejected ("上传失败: " ++ JS.showNat (status res) ++ " " ++ statusText res)
      else json res
  end.

(** How [startGenerate] settles; the body's [task_id] is what [json] holds. *)
Definition startGenerate (fetched : Fetched string) : Settled string :=
  match fetched with
  | Failed message => Rejected message
  | Responded res =>
      if negb (ok res)
      then Rejected ("生成请求失败: " ++ JS.showNat (status res) ++ " " ++ statusText res)
      else json res
  end.

(** The course of a run, from what the two requests and the stream bring.
    The generate request is only made once the upload has resolved. *)
Definition script (upload : Fetched UploadResult.t) (generate : Fetched string)
    (items : list SseItem) : Script :=
  match uploadFiles upload with
  | Rejected err => UploadFails err
  | Resolved uploadResult =>
      match startGenerate generate with
      | Rejected err => GenerateFails uploadResult err
      | Resolved taskId => Streams uploadResult taskId items
      end
  end.

End Requests.

(* ====================================================================== *)
(** ** [components/PreviewPanel.tsx] and [components/ProgressPanel.tsx] *)
(* ====================================================================== *)

Module PreviewPanel.

(** [!!resultVideoUrl]: [null] and the empty string are falsy. *)
Definition truthy (resultVideoUrl : option string) : bool :=
  match resultVideoUrl with
  | Some (String _ _) => true
  | _ => false
  end.

(** [status === 'completed' && !!resultVideoUrl] *)
Definition isReady (status : ProcessStatus.t) (resultVideoUrl : option string) : bool :=
  ProcessStatus.eqb status ProcessStatus.completed && truthy resultVideoUrl.

(** [handleDownload]: the URL passed to [window.open], if it is called. *)
Definition handleDownload (resultVideoUrl : option string) : option string :=
  if negb (truthy resultVideoUrl) then None else resultVideoUrl.

(** The download button is rendered under [isReady &&]; a click on it runs
    [handleDownload]. *)
Definition download (status : ProcessStatus.t) (resultVideoUrl : option string)
  : option string :=
  if isReady status resultVideoUrl then handleDownload resultVideoUrl else None.

End PreviewPanel.

Module ProgressPanel.

(** The generate button: [disabled={status === 'processing'}]. *)
Definition disabled (status : ProcessStatus.t) : bool :=
  ProcessStatus.eqb status ProcessStatus.processing.

(** The stage list and the log are rendered under [status !== 'idle' &&]. *)
Definition showsProgress (status : ProcessStatus.t) : bool :=
  negb (ProcessStatus.eqb status ProcessStatus.idle).

(** A stage's percentage is rendered under [stage.status === 'running' &&]. *)
Definition shownPercent (stage : ProcessStage.t) : option Q :=
  match ProcessStage.status stage with
  | StageStatus.running => Some (ProcessStage.progress stage)
  | _ => None
  end.

End ProgressPanel.

(* ====================================================================== *)
(** ** Vocabulary of the statements *)
(* ====================================================================== *)

(** Nothing below is taken from the sources: these are the predicates and
    observations the theorems are phrased with. *)

Module Props.

Import Api.

(** The items at which [subscribeProgress] closes its source. *)
Definition terminal (item : SseItem) : bool :=
  match item with
  | Message (Some d) => String.eqb (stage d) "end" || String.eqb (stage d) "error"
  | Message None => false
  | ConnectionError => true
  end.

(** The progress events among the items whose data parsed. *)
Fixpoint parsed (items : list SseItem) : list ProgressEvent :=
  match items with
  | Message (Some d) :: rest => d :: parsed rest
  | _ :: rest => parsed rest
  | [] => []
  end.

Definition isOnError (cb : Callback) : bool :=
  match cb with OnError _ => true | _ => false end.

(** The position of a stage in the pipeline, for the four stages the
    server reports on. *)
Definition rank (stage : string) : option nat :=
  if String.eqb stage "whisper" then Some 1%nat
  else if String.eqb stage "beat" then Some 2%nat
  else if String.eqb stage "ffmpeg" then Some 3%nat
  else if String.eqb stage "finalize" then Some 4%nat
  else None.

(** An event of one of the four stages with a percentage in range. *)
Definition reported (e : ProgressEvent) : Prop :=
  rank (stage e) <> None /\ (0 <= percent e <= 100)%Q.

(** [e2] may come right after [e1]: a later stage, or the same stage with
    a percentage that did not go down. *)
Definition follows (e1 e2 : ProgressEvent) : Prop :=
  match rank (stage e1), rank (stage e2) with
  | Some r1, Some r2 =>
      (r1 < r2)%nat \/ (r1 = r2 /\ (percent e1 <= percent e2)%Q)
  | _, _ => False
  end.

Definition pipelineOrdered (events : list ProgressEvent) : Prop :=
  Forall reported events /\ Sorted follows events.

(** The overall progress shown after each of the events. *)
Fixpoint overallTrace (clock : nat -> string) (events : list ProgressEvent)
    (lw : App.Listener * App.World) : list Z :=
  match events with
  | [] => []
  | e :: rest =>
      let lw' := App.onEvent clock e lw in
      App.overallProgress (App.ui (snd lw')) :: overallTrace clock rest lw'
  end.

(** An item made for a file repeats the file's name and size and uses one
    object URL for both thumbnail and preview. *)
Definition madeFrom (item : VideoItem.t) : Prop :=
  VideoItem.name item = File.name (VideoItem.file item)
  /\ VideoItem.size item = File.size (VideoItem.file item)
  /\ VideoItem.thumbnailUrl item = VideoItem.previewUrl item.

(** The listener's state after [onEvent] has been called with each of the
    events in turn. *)
Definition handled (clock : nat -> string) (events : list ProgressEvent)
    (lw : App.Listener * App.World) : App.Listener * App.World :=
  fold_left (fun acc e => App.onEvent clock e acc) events lw.

(** The listener's state after the given callbacks have been made. *)
Definition calls (clock : nat -> string) (cbs : list Callback)
    (lw : App.Listener * App.World) : App.Listener * App.World :=
  fold_left (fun acc c => App.call clock c acc) cbs lw.

Definition stagesOf (lw : App.Listener * App.World) : list ProcessStage.t :=
  App.stages (App.ui (snd lw)).

(** The stage entry is finished. *)
Definition finished (s : ProcessStage.t) : Prop :=
  ProcessStage.status s = StageStatus.completed /\ ProcessStage.progress s = 100%Q.

(** A list without its [k]-th element, and with [x] put in at position [k]. *)
Definition removeAt {A} (k : nat) (l : list A) : list A :=
  (firstn k l ++ skipn (S k) l)%list.

Definition insertAt {A} (k : nat) (x : A) (l : list A) : list A :=
  (firstn k l ++ x :: skipn k l)%list.

(** The id was handed out by one of the first [n] calls of the generator. *)
Definition issued (randomUUID : nat -> string) (n : nat) (id : string) : Prop :=
  exists k, (k < n)%nat /\ id = randomUUID k.


(** The text, after leading white space and an optional sign, starts with
    a decimal digit. *)
Definition startsWithDigit (s : string) : bool :=
  match snd (JS.stripSign (JS.trimStart s)) with
  | String c _ =>
      let n := nat_of_ascii c in (Nat.leb 48 n && Nat.leb n 57)%bool
  | EmptyString => false
  end.

(** A percentage between 0 and 100. *)
Definition percentage (q : Q) : Prop := (0 <= q <= 100)%Q.

(** The overall progress and every stage's progress are between 0 and 100. *)
Definition inRange (w : App.World) : Prop :=
  0 <= App.overallProgress (App.ui w) <= 100
  /\ Forall (fun s => percentage (ProcessStage.progress s)) (App.stages (App.ui w)).

(** The log of [w] is the log of [w0] with lines added at its end, each
    stamped with the next reading of the clock. *)
Definition grownFrom (clock : nat -> string) (w0 w : App.World) : Prop :=
  exists added,
    App.logs (App.ui w) = (App.logs (App.ui w0) ++ added)%list
    /\ App.dateCalls w = (App.dateCalls w0 + List.length added)%nat
    /\ map LogEntry.timestamp added
       = map clock (seq (App.dateCalls w0) (List.length added)).

(** The ids and labels of the stage list, in order. *)
Definition names (stages : list ProcessStage.t) : list (string * string) :=
  map (fun s => (ProcessStage.id s, ProcessStage.label s)) stages.

End Props.

(* ====================================================================== *)
(** ** Sample data *)
(* ====================================================================== *)

Module Sample.

Definition clock (n : nat) : string := "12:00:0" ++ JS.showNat n.

Definition randomUUID (n : nat) : string := "uuid-" ++ JS.showNat n.

Definition createObjectURL (n : nat) (f : File.t) : string :=
  "blob:" ++ JS.showNat n ++ "/" ++ File.name f.

Definition file (n : nat) (type : string) : File.t :=
  {| File.name := "clip" ++ JS.showNat n; File.size := 1000 * Z.of_nat n;
     File.type := type; File.blob := n |}.

Definition video (n : nat) : VideoItem.t :=
  {| VideoItem.id := "v" ++ JS.showNat n;
     VideoItem.file := file n "video/mp4";
     VideoItem.name := "clip" ++ JS.showNat n;
     VideoItem.size := 1000 * Z.of_nat n;
     VideoItem.thumbnailUrl := "blob:" ++ JS.showNat n;
     VideoItem.previewUrl := "blob:" ++ JS.showNat n;
     VideoItem.duration := None |}.

Definition videos : list VideoItem.t := [video 1; video 2; video 3].

Definition song : AudioFile.t :=
  {| AudioFile.id := "a1"; AudioFile.file := file 9 "audio/mpeg";
     AudioFile.name := "song.mp3"; AudioFile.size := 9000 |}.

(** A component that has finished one run and is asked for another: the
    old connection is still referenced, the old result is still shown. *)
Definition finishedOnce : App.World :=
  {| App.ui :=
       {| App.videos := videos; App.audio := Some song; App.subtitle := None;
          App.settings := App.DEFAULT_SETTINGS;
          App.processStatus := ProcessStatus.completed;
          App.stages := App.completeAll App.INITIAL_STAGES;
          App.logs := [ {| LogEntry.timestamp := "11:59:59";
                           LogEntry.message := "===== 全部处理完成 =====";
                           LogEntry.type := LogType.success |} ];
          App.overallProgress := 100;
          App.downloadUrl := Some (Api.getDownloadUrl "old-task") |};
     App.unsubRef := Some 0%nat;
     App.sources := [Api.subscribeProgress "old-task"];
     App.dateCalls := 1 |}.

(** The same component with nothing uploaded. *)
Definition nothingUploaded : App.World :=
  {| App.ui := App.initialState; App.unsubRef := None; App.sources := [];
     App.dateCalls := 0 |}.

Definition uploaded : Api.UploadResult.t :=
  {| Api.UploadResult.video_paths := ["up/clip1"; "up/clip2"; "up/clip3"];
     Api.UploadResult.audio_path := Some "up/song.mp3";
     Api.UploadResult.srt_path := None |}.

Definition event (stage : string) (percent : Q) : Api.ProgressEvent :=
  {| Api.stage := stage; Api.message := stage; Api.percent := percent |}.

(** A listener in mid-run, right after the upload. *)
Definition listening : App.Listener * App.World :=
  match App.generateSettled clock (App.Resolved "task-0001-abcd")
          (fst (App.uploadSettled clock App.DEFAULT_SETTINGS (App.Resolved uploaded)
                  (fst (App.handleGenerate clock finishedOnce)))) with
  | (w, App.Listening l) => (l, w)
  | (w, _) => ({| App.taskId := ""; App.source := 0; App.lastStage := "" |}, w)
  end.

End Sample.

(* ====================================================================== *)
(** ** The progress subscription *)
(* ====================================================================== *)

Section PumpFacts.

Import Api Props.

Lemma pump_closed es items : closed es = true -> pump es items = (es, []).
Proof.
  intros Hc. induction items as [| item rest IH]; simpl; [reflexivity |].
  unfold dispatch. rewrite Hc, IH. reflexivity.
Qed.

Lemma pump_app es xs ys :
  pump es (xs ++ ys)%list =
  (fst (pump (fst (pump es xs)) ys),
   (snd (pump es xs) ++ snd (pump (fst (pump es xs)) ys))%list).
Proof.
  revert es. induction xs as [| x xs IH]; intros es; simpl.
  - destruct (pump es ys); reflexivity.
  - destruct (dispatch es x) as [es1 cb]. rewrite IH.
    destruct (pump es1 xs) as [es2 cbs]; simpl.
    destruct (pump es2 ys) as [es3 cbs']; simpl.
    destruct cb; reflexivity.
Qed.

(** Before the first terminal item every parsed event is passed on and
    the source stays as it is. *)
Lemma pump_running es items :
  closed es = false -> existsb terminal items = false ->
  pump es items = (es, map OnEvent (parsed items)).
Proof.
  intros Hopen. induction items as [| item rest IH]; simpl; [reflexivity |].
  intros Hnt. apply orb_false_iff in Hnt as [Hi Hrest].
  unfold dispatch. rewrite Hopen.
  destruct item as [[d |] |]; simpl in *; try discriminate.
  - apply orb_false_iff in Hi as [He Hr]. rewrite He, Hr, (IH Hrest). reflexivity.
  - rewrite (IH Hrest). reflexivity.
Qed.

Lemma dispatch_terminal es item :
  closed es = false -> terminal item = true ->
  fst (dispatch es item) = close es.
Proof.
  intros Hopen Ht. unfold dispatch. rewrite Hopen.
  destruct item as [[d |] |]; simpl in *; try discriminate; try reflexivity.
  destruct (String.eqb (stage d) "end"); [reflexivity |].
  simpl in Ht. rewrite Ht. reflexivity.
Qed.

(** At the first terminal item the source is closed, one last callback
    is made, and whatever arrives later is not seen. *)
Lemma pump_terminal es pre t post :
  closed es = false -> existsb terminal pre = false -> terminal t = true ->
  pump es (pre ++ t :: post)%list =
  (close es,
   (map OnEvent (parsed pre)
      ++ match snd (dispatch es t) with Some c => [c] | None => [] end)%list).
Proof.
  intros Hopen Hpre Ht.
  rewrite pump_app, (pump_running es pre Hopen Hpre). simpl.
  pose proof (dispatch_terminal es t Hopen Ht) as Hd.
  destruct (dispatch es t) as [es1 cb]. simpl in Hd. subst es1.
  rewrite (pump_closed (close es) post eq_refl). simpl.
  destruct cb; reflexivity.
Qed.

(** A list either has no terminal item or splits at its first one. *)
Lemma first_terminal items :
  existsb terminal items = true ->
  exists pre t post,
    items = (pre ++ t :: post)%list /\ existsb terminal pre = false /\ terminal t = true.
Proof.
  induction items as [| x rest IH]; simpl; [discriminate |].
  destruct (terminal x) eqn:Hx; simpl.
  - intros _. exists [], x, rest. auto.
  - intros H. destruct (IH H) as (pre & t & post & -> & Hpre & Ht).
    exists (x :: pre), t, post. simpl. rewrite Hx. auto.
Qed.

Lemma pump_closed_iff es items :
  closed es = false ->
  closed (fst (pump es items)) = existsb terminal items.
Proof.
  intros Hopen. destruct (existsb terminal items) eqn:E.
  - destruct (first_terminal items E) as (pre & t & post & -> & Hpre & Ht).
    rewrite (pump_terminal es pre t post Hopen Hpre Ht). reflexivity.
  - rewrite (pump_running es items Hopen E). exact Hopen.
Qed.

End PumpFacts.

(** C1, as the code has it.  The source of a subscription is closed exactly
    when an item arrived that is an event of stage [end], an event of stage
    [error], or a connection failure.  Up to the first such item every
    parsed event (an event of stage [done] included) goes to [onEvent]; an
    [end] event then causes [onDone], an [error] event causes [onError] with
    that event's message, a connection failure causes [onError] with a fixed
    message, and nothing is called afterwards. *)
Theorem subscribeProgress_terminates_on_end_or_error :
  forall (taskId : string) (items : list Api.SseItem),
    let es := Api.subscribeProgress taskId in
    Api.closed (fst (Api.pump es items)) = existsb Props.terminal items
    /\ (forall pre d post,
          items = (pre ++ Api.Message (Some d) :: post)%list ->
          existsb Props.terminal pre = false ->
          Api.stage d = "end" ->
          snd (Api.pump es items)
          = (map Api.OnEvent (Props.parsed pre) ++ [Api.OnDone])%list)
    /\ (forall pre d post,
          items = (pre ++ Api.Message (Some d) :: post)%list ->
          existsb Props.terminal pre = false ->
          Api.stage d = "error" ->
          snd (Api.pump es items)
          = (map Api.OnEvent (Props.parsed pre) ++ [Api.OnError (Api.message d)])%list)
    /\ (forall pre post,
          items = (pre ++ Api.ConnectionError :: post)%list ->
          existsb Props.terminal pre = false ->
          snd (Api.pump es items)
          = (map Api.OnEvent (Props.parsed pre) ++ [Api.OnError "SSE 连接中断"])%list)
    /\ (forall d, Api.stage d = "done" -> Props.terminal (Api.Message (Some d)) = false).
Proof.
  intros taskId items es. repeat split.
  - apply pump_closed_iff. reflexivity.
  - intros pre d post -> Hpre Hd.
    rewrite (pump_terminal es pre _ post eq_refl Hpre); simpl.
    + unfold Api.dispatch, Api.onmessage; simpl. rewrite Hd. reflexivity.
    + rewrite Hd. reflexivity.
  - intros pre d post -> Hpre Hd.
    rewrite (pump_terminal es pre _ post eq_refl Hpre); simpl.
    + unfold Api.dispatch, Api.onmessage; simpl. rewrite Hd. reflexivity.
    + rewrite Hd. reflexivity.
  - intros pre post -> Hpre.
    rewrite (pump_terminal es pre _ post eq_refl Hpre); reflexivity.
  - intros d Hd. simpl. rewrite Hd. reflexivity.
Qed.

(** C1 as stated fails: an event of stage [done] neither closes the source
    nor causes [onDone]; it is passed to [onEvent], and so is the event
    after it. *)
Lemma done_event_does_not_terminate :
  let done := {| Api.stage := "done"; Api.message := "finished"; Api.percent := 100%Q |} in
  let next := {| Api.stage := "finalize"; Api.message := "late"; Api.percent := 50%Q |} in
  let r := Api.pump (Api.subscribeProgress "t1")
             [Api.Message (Some done); Api.Message (Some next)] in
  Api.closed (fst r) = false
  /\ snd r = [Api.OnEvent done; Api.OnEvent next]
  /\ ~ In Api.OnDone (snd r).
Proof.
  simpl. repeat split. intros [H | [H | []]]; discriminate.
Qed.

(* ====================================================================== *)
(** ** The beats-per-cut field *)
(* ====================================================================== *)

Section ParseIntFacts.

Import JS.











End ParseIntFacts.




Example parseInt_samples :
  map JS.parseInt ["42"; "  12px"; "-7.9"; "+3"; "0x1F"; ""; "abc"; "-"; "-0"; "1e3"]
  = map (option_map JS.Int)
      [Some 42; Some 12; Some (-7); Some 3; Some 31; None; None; None; Some 0; Some 1].
Proof. reflexivity. Qed.

(** Beyond 53 bits [parseInt] returns the nearest double, a tie going to
    the even significand, and beyond the largest double an infinity. *)
Example parseInt_rounds :
  map JS.parseInt
    ["9007199254740992"; "9007199254740993"; "9007199254740995";
     "-123456789012345678901234567890"; "0x20000000000001";
     "1" ++ JS.fill 308 "0"; "1" ++ JS.fill 309 "0"; "-1" ++ JS.fill 309 "0"]
  = [Some (JS.Int 9007199254740992); Some (JS.Int 9007199254740992);
     Some (JS.Int 9007199254740996);
     Some (JS.Int (-123456789012345677877719597056)); Some (JS.Int 9007199254740992);
     JS.parseInt ("1" ++ JS.fill 308 "0"); Some JS.PosInfinity; Some JS.NegInfinity]
  /\ (exists z : Z, JS.parseInt ("1" ++ JS.fill 308 "0") = Some (JS.Int z))
  /\ ProjectSettings.beatsPerCut
       (SettingsPanel.onChange_beatsPerCut App.DEFAULT_SETTINGS ("1" ++ JS.fill 309 "0"))
     = JS.PosInfinity.
Proof. vm_compute. split; [reflexivity |]. split; [eauto | reflexivity]. Qed.

(** Leading white space of any script is dropped: a no-break space
    (U+00A0), an ideographic space (U+3000) and a byte order mark (U+FEFF)
    before [-5] still store [-5]; a no-break space inside the number ends
    it. *)
Example trimStart_samples :
  let nbsp := String (ascii_of_nat 194) (String (ascii_of_nat 160) EmptyString) in
  let wide := String (ascii_of_nat 227) (String (ascii_of_nat 128)
                (String (ascii_of_nat 128) EmptyString)) in
  let bom := String (ascii_of_nat 239) (String (ascii_of_nat 187)
               (String (ascii_of_nat 191) EmptyString)) in
  JS.trimStart (nbsp ++ " " ++ wide ++ bom ++ "-5") = "-5"
  /\ ProjectSettings.beatsPerCut
       (SettingsPanel.onChange_beatsPerCut App.DEFAULT_SETTINGS (nbsp ++ "-5"))
     = JS.Int (-5)
  /\ JS.parseInt (nbsp ++ "5") = Some (JS.Int 5)
  /\ JS.parseInt ("1" ++ nbsp ++ "5") = Some (JS.Int 1)
  /\ JS.parseInt ("é5") = None.
Proof. vm_compute. repeat split. Qed.

(* ====================================================================== *)
(** ** The video upload zone *)
(* ====================================================================== *)

Section UploadFacts.

Import VideoUploadZone Props.

Variable randomUUID : nat -> string.
Variable createObjectURL : nat -> File.t -> string.

Lemma newItems_files b files :
  map VideoItem.file (fst (newItems randomUUID createObjectURL b files)) = files.
Proof.
  revert b. induction files as [| f rest IH]; intros b; simpl; [reflexivity |].
  specialize (IH {| uuidCalls := S (uuidCalls b); urlCalls := S (urlCalls b) |}).
  destruct (newItems _ _ _ rest) as [items b']. simpl in *. now rewrite IH.
Qed.

Lemma newItems_madeFrom b files :
  Forall madeFrom (fst (newItems randomUUID createObjectURL b files)).
Proof.
  revert b. induction files as [| f rest IH]; intros b; simpl; [constructor |].
  specialize (IH {| uuidCalls := S (uuidCalls b); urlCalls := S (urlCalls b) |}).
  destruct (newItems _ _ _ rest) as [items b']. simpl in *.
  constructor; [repeat split | exact IH].
Qed.

End UploadFacts.

(** C8.  [handleFiles] passes to [onVideosChange] the existing list followed
    by one new item per file whose MIME type starts with [video/], in the
    order of the file list; the other files leave no trace, and a missing
    file list changes nothing. *)
Theorem handleFiles_appends_video_files :
  forall (randomUUID : nat -> string) (createObjectURL : nat -> File.t -> string)
         (videos : list VideoItem.t) (files : list File.t)
         (b : VideoUploadZone.Browser),
    (exists items,
        fst (VideoUploadZone.handleFiles randomUUID createObjectURL videos (Some files) b)
        = Some (videos ++ items)%list
        /\ map VideoItem.file items
           = filter (fun f => JS.startsWith (File.type f) "video/") files
        /\ Forall Props.madeFrom items)
    /\ fst (VideoUploadZone.handleFiles randomUUID createObjectURL videos None b) = None.
Proof.
  intros randomUUID createObjectURL videos files b. split; [| reflexivity].
  unfold VideoUploadZone.handleFiles.
  pose proof (newItems_files randomUUID createObjectURL b
                (filter VideoUploadZone.isVideo files)) as Hf.
  pose proof (newItems_madeFrom randomUUID createObjectURL b
                (filter VideoUploadZone.isVideo files)) as Hm.
  destruct (VideoUploadZone.newItems _ _ b _) as [items b'].
  exists items. simpl in *. auto.
Qed.

Section ArrayFacts.

Import JS.

Lemma findIndexFrom_range {A} (p : A -> bool) a i :
  findIndexFrom p a i = -1
  \/ i <= findIndexFrom p a i < i + Z.of_nat (List.length a).
Proof.
  revert i. induction a as [| x rest IH]; intros i; simpl; [left; reflexivity |].
  destruct (p x); [right; lia |].
  destruct (IH (i + 1)) as [-> | H]; [left; reflexivity | right; lia].
Qed.

Lemma findIndex_range {A} (p : A -> bool) a :
  -1 <= findIndex p a < Z.of_nat (List.length a).
Proof.
  unfold findIndex. destruct (findIndexFrom_range p a 0) as [-> | H]; lia.
Qed.

Lemma relativeIndex_le len start :
  0 <= len -> Z.of_nat (relativeIndex len start) <= len.
Proof. unfold relativeIndex. intros H. destruct (Z.ltb_spec start 0); lia. Qed.

(** Inserting with [splice(start, 0, x)] adds [x] and loses nothing,
    wherever [start] points. *)
Lemma splice_insert_perm {A} (l : list A) start x :
  Permutation (x :: l) (snd (splice l start 0 [x])).
Proof.
  unfold splice. simpl snd.
  pose proof (relativeIndex_le (Z.of_nat (List.length l)) start (Nat2Z.is_nonneg _)) as Hk.
  set (k := relativeIndex (Z.of_nat (List.length l)) start) in *.
  replace (Z.to_nat (Z.min (Z.max 0 0) (Z.of_nat (List.length l) - Z.of_nat k)))
    with 0%nat by lia.
  rewrite Nat.add_0_r. simpl.
  rewrite <- (firstn_skipn k l) at 1. apply Permutation_middle.
Qed.

(** Removing with [splice(start, 1)] takes out exactly one element when
    [start] points into the array. *)
Lemma splice_remove_perm {A} (l : list A) start :
  (relativeIndex (Z.of_nat (List.length l)) start < List.length l)%nat ->
  exists x, fst (splice l start 1 []) = [x]
            /\ Permutation l (x :: snd (splice l start 1 [])).
Proof.
  unfold splice. simpl fst. simpl snd.
  set (k := relativeIndex (Z.of_nat (List.length l)) start). intros Hk.
  replace (Z.to_nat (Z.min (Z.max 1 0) (Z.of_nat (List.length l) - Z.of_nat k)))
    with 1%nat by lia.
  destruct (skipn k l) as [| x tl] eqn:Hs.
  - apply (f_equal (@List.length A)) in Hs. rewrite length_skipn in Hs. simpl in Hs. lia.
  - exists x. split; [reflexivity |]. simpl.
    replace (skipn (k + 1) l) with tl.
    + rewrite <- (firstn_skipn k l) at 1. rewrite Hs.
      symmetry. apply Permutation_middle.
    + replace (k + 1)%nat with (1 + k)%nat by lia.
      rewrite <- skipn_skipn, Hs. reflexivity.
Qed.

(** [arrayMove] permutes the array as soon as [from] points at an element,
    counting from either end; [to] may be anything. *)
Lemma arrayMove_perm {A} (array : list A) from to :
  - Z.of_nat (List.length array) <= from < Z.of_nat (List.length array) ->
  exists moved,
    VideoUploadZone.arrayMove array from to = map Some moved
    /\ Permutation array moved.
Proof.
  intros Hfrom. unfold VideoUploadZone.arrayMove.
  destruct (splice_remove_perm (map Some array) from) as (x & Hx & Hperm).
  { rewrite length_map. unfold relativeIndex. destruct (Z.ltb_spec from 0); lia. }
  destruct (splice (map Some array) from 1 []) as [removed newArray1].
  simpl in Hx, Hperm. subst removed.
  match goal with
  | |- context [splice newArray1 ?s 0 [x]] =>
      pose proof (splice_insert_perm newArray1 s x) as Hins
  end.
  apply Permutation_sym in Hperm.
  pose proof (Permutation_trans (Permutation_sym Hins) Hperm) as Hall.
  apply Permutation_map_inv in Hall as (moved & -> & Hm).
  exists moved. split; [reflexivity | exact Hm].
Qed.

End ArrayFacts.

(** C9.  [handleDragEnd] on a list with items in it: what it passes to
    [onVideosChange] is the list's own items in some order, each exactly
    once with all its fields; dropped outside any target or on the item
    itself, it passes nothing and the list stays as it is. *)
Theorem handleDragEnd_permutes :
  forall (videos : list VideoItem.t) (event : VideoUploadZone.DragEndEvent),
    videos <> [] ->
    (forall result,
        VideoUploadZone.handleDragEnd videos event = Some result ->
        exists reordered, result = map Some reordered /\ Permutation videos reordered)
    /\ (VideoUploadZone.over event = None ->
        VideoUploadZone.handleDragEnd videos event = None)
    /\ (VideoUploadZone.over event = Some (VideoUploadZone.active event) ->
        VideoUploadZone.handleDragEnd videos event = None).
Proof.
  intros videos event Hne. unfold VideoUploadZone.handleDragEnd. repeat split.
  - intros result.
    destruct (VideoUploadZone.over event) as [over_id |]; [| discriminate].
    destruct (negb _); [| discriminate]. intros [= <-].
    apply arrayMove_perm.
    match goal with
    | |- context [JS.findIndex ?p videos] => pose proof (findIndex_range p videos)
    end.
    destruct videos; [congruence | simpl List.length in *; lia].
  - intros ->. reflexivity.
  - intros ->. rewrite String.eqb_refl. reflexivity.
Qed.

Lemma handleDragEnd_permutes_witness :
  Sample.videos <> []
  /\ exists reordered,
       VideoUploadZone.handleDragEnd Sample.videos
         {| VideoUploadZone.active := "v1"; VideoUploadZone.over := Some "v3" |}
       = Some (map Some reordered)
       /\ Permutation Sample.videos reordered.
Proof.
  assert (Hne : Sample.videos <> []) by discriminate.
  split; [exact Hne |].
  destruct (proj1 (handleDragEnd_permutes Sample.videos
                     {| VideoUploadZone.active := "v1"; VideoUploadZone.over := Some "v3" |}
                     Hne)
              [Some (Sample.video 2); Some (Sample.video 3); Some (Sample.video 1)]
              eq_refl) as (reordered & Heq & Hperm).
  exists reordered. split; [rewrite <- Heq; reflexivity | exact Hperm].
Defined.

(** The first item dragged onto the last one ends up last; with no item in
    the list at all (where the component renders no drag context) the
    library would hand back a one-cell array holding [undefined]. *)
Example handleDragEnd_samples :
  VideoUploadZone.handleDragEnd Sample.videos
    {| VideoUploadZone.active := "v1"; VideoUploadZone.over := Some "v3" |}
  = Some [Some (Sample.video 2); Some (Sample.video 3); Some (Sample.video 1)]
  /\ VideoUploadZone.handleDragEnd Sample.videos
       {| VideoUploadZone.active := "v3"; VideoUploadZone.over := Some "v1" |}
     = Some [Some (Sample.video 3); Some (Sample.video 1); Some (Sample.video 2)]
  /\ VideoUploadZone.handleDragEnd []
       {| VideoUploadZone.active := "v1"; VideoUploadZone.over := Some "v3" |}
     = Some [None].
Proof. repeat split. Qed.

Example handleFiles_sample :
  option_map (map VideoItem.file)
    (fst (VideoUploadZone.handleFiles Sample.randomUUID Sample.createObjectURL
            [Sample.video 1]
            (Some [Sample.file 2 "video/mp4"; Sample.file 3 "image/png";
                   Sample.file 4 "video/quicktime"; Sample.file 5 "text/video/"])
            {| VideoUploadZone.uuidCalls := 0; VideoUploadZone.urlCalls := 0 |}))
  = Some [Sample.file 1 "video/mp4"; Sample.file 2 "video/mp4";
          Sample.file 4 "video/quicktime"].
Proof. reflexivity. Qed.

(* ====================================================================== *)
(** ** The generate handler *)
(* ====================================================================== *)

Section SourceFacts.

Import Api App.

Lemma nth_error_setSource_eq n es l x :
  nth_error l n = Some x -> nth_error (setSource n es l) n = Some es.
Proof.
  revert n. induction l as [| y rest IH]; intros [| n]; simpl; try discriminate; auto.
Qed.

Lemma nth_error_setSource_ne n m es l :
  n <> m -> nth_error (setSource n es l) m = nth_error l m.
Proof.
  revert n m. induction l as [| y rest IH]; intros [| n] [| m] H; simpl; auto.
  congruence.
Qed.

Lemma setSource_setSource n es es' l :
  setSource n es (setSource n es' l) = setSource n es l.
Proof.
  revert n. induction l as [| y rest IH]; intros [| n]; simpl; auto.
  now rewrite IH.
Qed.

Lemma setSource_same n es l : nth_error l n = Some es -> setSource n es l = l.
Proof.
  revert n. induction l as [| y rest IH]; intros [| n]; simpl; try discriminate.
  - now intros [= ->].
  - intros H. now rewrite IH.
Qed.

Lemma length_zero_nil {A} (l : list A) : Nat.eqb (List.length l) 0 = true <-> l = [].
Proof. destruct l; simpl; split; intros; congruence. Qed.

End SourceFacts.

(** C2.  With no video in the list, or with no audio file, [handleGenerate]
    appends one error entry to the log and returns: nothing is sent, no
    connection is touched, and no other state changes.  It goes on to the
    upload only with at least one video and an audio file, which is then
    the one it sends. *)
Theorem handleGenerate_validates_inputs :
  forall (clock : nat -> string) (w : App.World),
    (App.videos (App.ui w) = [] \/ App.audio (App.ui w) = None ->
     exists entry,
       LogEntry.type entry = LogType.error
       /\ App.handleGenerate clock w
          = ({| App.ui := App.setLogs (fun prev => prev ++ [entry])%list (App.ui w);
                App.unsubRef := App.unsubRef w;
                App.sources := App.sources w;
                App.dateCalls := S (App.dateCalls w) |},
             App.Returned))
    /\ (forall w' videoFiles audioFile subtitleFile captured,
          App.handleGenerate clock w
          = (w', App.AwaitUpload videoFiles audioFile subtitleFile captured) ->
          App.videos (App.ui w) <> []
          /\ exists a, App.audio (App.ui w) = Some a /\ audioFile = AudioFile.file a).
Proof.
  intros clock w. unfold App.handleGenerate. split.
  - intros H.
    destruct (Nat.eqb (List.length (App.videos (App.ui w))) 0) eqn:E.
    + eexists. split; [| reflexivity]. reflexivity.
    + destruct H as [H | H].
      * apply length_zero_nil in H. congruence.
      * rewrite H. eexists. split; [| reflexivity]. reflexivity.
  - intros w' vf af sf cap.
    destruct (Nat.eqb (List.length (App.videos (App.ui w))) 0) eqn:E; [discriminate |].
    destruct (App.audio (App.ui w)) as [a |]; [| discriminate].
    unfold App.beginUpload. intros [= _ _ <- _ _].
    split; [| eauto].
    intros Hnil. apply length_zero_nil in Hnil. congruence.
Qed.

Lemma handleGenerate_validates_inputs_witness :
  (exists entry,
      LogEntry.type entry = LogType.error
      /\ App.handleGenerate Sample.clock Sample.nothingUploaded
         = ({| App.ui := App.setLogs (fun prev => prev ++ [entry])%list App.initialState;
               App.unsubRef := None; App.sources := []; App.dateCalls := 1 |},
            App.Returned))
  /\ Sample.videos <> [].
Proof.
  split.
  - apply (proj1 (handleGenerate_validates_inputs Sample.clock Sample.nothingUploaded)).
    left. reflexivity.
  - eapply (proj2 (handleGenerate_validates_inputs Sample.clock Sample.finishedOnce)).
    reflexivity.
Defined.

(** C10.  When the inputs pass validation, [handleGenerate] starts the
    upload stage from a state in which the previous connection is closed
    and no longer referenced, the status is [processing], the stages are the
    five initial ones, the log is empty, the overall progress is 0 and there
    is no download URL, while videos, audio, subtitle and settings are what
    they were. *)
Theorem handleGenerate_resets_progress :
  forall (clock : nat -> string) (w : App.World) (a : AudioFile.t),
    App.videos (App.ui w) <> [] ->
    App.audio (App.ui w) = Some a ->
    let r := App.resetProgress (App.closePrevious w) in
    App.handleGenerate clock w = App.beginUpload clock a r
    /\ App.processStatus (App.ui r) = ProcessStatus.processing
    /\ App.stages (App.ui r) = App.INITIAL_STAGES
    /\ Forall (fun s => ProcessStage.status s = StageStatus.pending
                        /\ ProcessStage.progress s = 0%Q) (App.stages (App.ui r))
    /\ App.logs (App.ui r) = []
    /\ App.overallProgress (App.ui r) = 0
    /\ App.downloadUrl (App.ui r) = None
    /\ App.unsubRef r = None
    /\ (forall n es, App.unsubRef w = Some n ->
                     nth_error (App.sources w) n = Some es ->
                     nth_error (App.sources r) n = Some (Api.close es))
    /\ App.videos (App.ui r) = App.videos (App.ui w)
    /\ App.audio (App.ui r) = App.audio (App.ui w)
    /\ App.subtitle (App.ui r) = App.subtitle (App.ui w)
    /\ App.settings (App.ui r) = App.settings (App.ui w).
Proof.
  intros clock w a Hv Ha r.
  assert (Hui : App.ui (App.closePrevious w) = App.ui w).
  { unfold App.closePrevious. destruct (App.unsubRef w) as [n |]; [| reflexivity].
    simpl. destruct (nth_error (App.sources w) n); reflexivity. }
  split.
  { unfold App.handleGenerate.
    destruct (Nat.eqb (List.length (App.videos (App.ui w))) 0) eqn:E.
    - apply length_zero_nil in E. contradiction.
    - rewrite Ha. reflexivity. }
  subst r. unfold App.resetProgress. simpl. rewrite Hui.
  repeat split.
  - repeat constructor.
  - unfold App.closePrevious. destruct (App.unsubRef w) eqn:E; [reflexivity | exact E].
  - intros n es Hn Hes. unfold App.closePrevious. rewrite Hn, Hes. simpl.
    apply (nth_error_setSource_eq n (Api.close es) (App.sources w) es Hes).
Qed.

Lemma handleGenerate_resets_progress_witness :
  App.videos (App.ui Sample.finishedOnce) <> []
  /\ App.audio (App.ui Sample.finishedOnce) = Some Sample.song
  /\ App.logs (App.ui (App.resetProgress (App.closePrevious Sample.finishedOnce))) = []
  /\ nth_error (App.sources (App.resetProgress (App.closePrevious Sample.finishedOnce))) 0
     = Some (Api.close (Api.subscribeProgress "old-task")).
Proof.
  assert (Hv : App.videos (App.ui Sample.finishedOnce) <> []) by discriminate.
  pose proof (handleGenerate_resets_progress Sample.clock Sample.finishedOnce
                Sample.song Hv eq_refl) as H.
  split; [exact Hv |]. split; [reflexivity |].
  split.
  - exact (proj1 (proj2 (proj2 (proj2 (proj2 H))))).
  - apply (proj1 (proj2 (proj2 (proj2 (proj2 (proj2 (proj2 (proj2 (proj2 H))))))))
             0%nat (Api.subscribeProgress "old-task")); reflexivity.
Defined.

(* ====================================================================== *)
(** ** The stage list under progress events *)
(* ====================================================================== *)

Section StageFacts.

Import Api App Props.

Lemma updateStageIn_ids x st p l :
  map ProcessStage.id (updateStageIn x st p l) = map ProcessStage.id l.
Proof.
  unfold updateStageIn. rewrite map_map. apply map_ext.
  intros s. destruct (String.eqb _ _); reflexivity.
Qed.

(** An entry of the updated list is either a rewritten entry of that id
    or an old entry of another id. *)
Lemma updateStageIn_In x st p l s :
  In s (updateStageIn x st p l) ->
  (ProcessStage.id s = x /\ ProcessStage.status s = st /\ ProcessStage.progress s = p)
  \/ (ProcessStage.id s <> x /\ In s l).
Proof.
  unfold updateStageIn. rewrite in_map_iff. intros (s0 & <- & Hin).
  destruct (String.eqb_spec (ProcessStage.id s0) x) as [E | E]; simpl; auto.
Qed.

Lemma onEvent_stages clock e l w :
  stagesOf (onEvent clock e (l, w)) =
  let s1 := if negb (String.eqb (Api.stage e) (lastStage l))
               && negb (String.eqb (lastStage l) "")
            then updateStageIn (lastStage l) StageStatus.completed 100 (stages (ui w))
            else stages (ui w) in
  if String.eqb (Api.stage e) "done" then s1
  else updateStageIn (Api.stage e) StageStatus.running (percent e) s1.
Proof.
  unfold stagesOf, onEvent.
  destruct (negb _ && negb _); destruct (String.eqb (Api.stage e) "done");
    try reflexivity; destruct (stageWeights _); reflexivity.
Qed.

Lemma onEvent_ids clock e lw :
  map ProcessStage.id (stagesOf (onEvent clock e lw)) = map ProcessStage.id (stagesOf lw).
Proof.
  destruct lw as [l w]. rewrite onEvent_stages. cbv zeta.
  destruct (negb _ && negb _); destruct (String.eqb (Api.stage e) "done");
    rewrite ?updateStageIn_ids; reflexivity.
Qed.

(** An event of another stage leaves a finished stage finished. *)
Lemma onEvent_keeps_finished clock e lw S :
  Api.stage e <> S ->
  (forall s, In s (stagesOf lw) -> ProcessStage.id s = S -> finished s) ->
  forall s, In s (stagesOf (onEvent clock e lw)) -> ProcessStage.id s = S -> finished s.
Proof.
  destruct lw as [l w]. intros Hne Hfin s. rewrite onEvent_stages. cbv zeta.
  assert (Hs1 : forall s,
             In s (if negb (String.eqb (Api.stage e) (lastStage l))
                      && negb (String.eqb (lastStage l) "")
                   then updateStageIn (lastStage l) StageStatus.completed 100 (stages (ui w))
                   else stages (ui w)) ->
             ProcessStage.id s = S -> finished s).
  { intros s0. destruct (negb _ && negb _); [| apply Hfin].
    intros Hin Hid. apply updateStageIn_In in Hin as [(_ & Hst & Hp) | (_ & Hin)].
    - split; assumption.
    - apply Hfin; assumption. }
  destruct (String.eqb (Api.stage e) "done"); [apply Hs1 |].
  intros Hin Hid. apply updateStageIn_In in Hin as [(Hx & _) | (_ & Hin)].
  - congruence.
  - apply Hs1; assumption.
Qed.

End StageFacts.

(** C4.  The stage list starts as upload, whisper, beat, ffmpeg, finalize,
    and no event changes which stages it holds.  When an event's stage
    differs from the stage seen before it, the entry of that previous stage
    is completed at 100 percent afterwards; and a stage that is completed at
    100 percent stays so under any number of later events of other stages. *)
Theorem stages_move_forward :
  map ProcessStage.id App.INITIAL_STAGES = ["upload"; "whisper"; "beat"; "ffmpeg"; "finalize"]
  /\ (forall (clock : nat -> string) (e : Api.ProgressEvent) (lw : App.Listener * App.World),
        map ProcessStage.id (Props.stagesOf lw) = map ProcessStage.id App.INITIAL_STAGES ->
        Api.stage e <> App.lastStage (fst lw) ->
        map ProcessStage.id (Props.stagesOf (App.onEvent clock e lw))
        = map ProcessStage.id App.INITIAL_STAGES
        /\ forall s, In s (Props.stagesOf (App.onEvent clock e lw)) ->
                     ProcessStage.id s = App.lastStage (fst lw) ->
                     Props.finished s)
  /\ (forall (clock : nat -> string) (events : list Api.ProgressEvent)
             (lw : App.Listener * App.World) (S : string),
        Forall (fun e => Api.stage e <> S) events ->
        (forall s, In s (Props.stagesOf lw) -> ProcessStage.id s = S -> Props.finished s) ->
        forall s, In s (Props.stagesOf (Props.handled clock events lw)) ->
                  ProcessStage.id s = S -> Props.finished s).
Proof.
  split; [reflexivity |]. split.
  - intros clock e [l w] Hids Hne. simpl fst in *. split.
    + rewrite onEvent_ids. exact Hids.
    + intros s Hin Hid.
      destruct (String.eqb_spec (App.lastStage l) "") as [Hempty | Hlast].
      * exfalso. apply (in_map ProcessStage.id) in Hin.
        rewrite onEvent_ids, Hids, Hid, Hempty in Hin. simpl in Hin.
        repeat destruct Hin as [Hin | Hin]; try discriminate; exact Hin.
      * rewrite onEvent_stages in Hin. cbv zeta in Hin.
        apply String.eqb_neq in Hne, Hlast. rewrite Hne, Hlast in Hin. simpl in Hin.
        apply String.eqb_neq in Hne.
        destruct (String.eqb (Api.stage e) "done").
        -- apply updateStageIn_In in Hin as [(_ & Hst & Hp) | (Hx & _)];
             [split; assumption | contradiction].
        -- apply updateStageIn_In in Hin as [(Hx & _) | (_ & Hin)]; [congruence |].
           apply updateStageIn_In in Hin as [(_ & Hst & Hp) | (Hx & _)];
             [split; assumption | contradiction].
  - intros clock events. unfold Props.handled.
    induction events as [| e rest IH]; intros lw S Hall Hfin; simpl; [exact Hfin |].
    inversion Hall as [| ? ? He Hrest]; subst.
    apply (IH _ S Hrest). apply onEvent_keeps_finished; assumption.
Qed.

Lemma stages_move_forward_witness :
  let lw := App.onEvent Sample.clock (Sample.event "whisper" 50) Sample.listening in
  let e := Sample.event "beat" 10 in
  map ProcessStage.id (Props.stagesOf lw) = map ProcessStage.id App.INITIAL_STAGES
  /\ Api.stage e <> App.lastStage (fst lw)
  /\ (forall s, In s (Props.stagesOf (App.onEvent Sample.clock e lw)) ->
                ProcessStage.id s = "whisper" -> Props.finished s)
  /\ (forall s, In s (Props.stagesOf
                        (Props.handled Sample.clock
                           [Sample.event "ffmpeg" 20; Sample.event "finalize" 5]
                           (App.onEvent Sample.clock e lw))) ->
                ProcessStage.id s = "whisper" -> Props.finished s).
Proof.
  intros lw e.
  assert (Hids : map ProcessStage.id (Props.stagesOf lw)
                 = map ProcessStage.id App.INITIAL_STAGES) by reflexivity.
  assert (Hne : Api.stage e <> App.lastStage (fst lw)) by discriminate.
  pose proof (proj2 (proj1 (proj2 stages_move_forward) Sample.clock e lw Hids Hne)) as Hdone.
  split; [exact Hids |]. split; [exact Hne |]. split; [exact Hdone |].
  apply (proj2 (proj2 stages_move_forward) Sample.clock
           [Sample.event "ffmpeg" 20; Sample.event "finalize" 5]
           (App.onEvent Sample.clock e lw) "whisper").
  - repeat constructor; discriminate.
  - exact Hdone.
Defined.

(** Whisper at 50, then beat at 10: whisper is completed and beat runs.  A
    second whisper event afterwards is an event of that stage itself, and
    sets it running again. *)
Example stage_transition_sample :
  let status lw := map (fun s => (ProcessStage.id s, ProcessStage.status s))
                       (Props.stagesOf lw) in
  status (Props.handled Sample.clock
            [Sample.event "whisper" 50; Sample.event "beat" 10] Sample.listening)
  = [("upload", StageStatus.completed); ("whisper", StageStatus.completed);
     ("beat", StageStatus.running); ("ffmpeg", StageStatus.pending);
     ("finalize", StageStatus.pending)]
  /\ status (Props.handled Sample.clock
               [Sample.event "whisper" 50; Sample.event "beat" 10;
                Sample.event "whisper" 60] Sample.listening)
     = [("upload", StageStatus.completed); ("whisper", StageStatus.running);
        ("beat", StageStatus.completed); ("ffmpeg", StageStatus.pending);
        ("finalize", StageStatus.pending)].
Proof. split; reflexivity. Qed.

(* ====================================================================== *)
(** ** The overall progress *)
(* ====================================================================== *)

Section OverallFacts.

Import Api App Props.

Lemma scaled_mono (p q : Q) (d : Z) :
  0 <= d -> (p <= q)%Q -> (p / 100 * inject_Z d <= q / 100 * inject_Z d)%Q.
Proof.
  intros Hd Hpq. apply Qmult_le_compat_r.
  - unfold Qdiv. apply Qmult_le_compat_r; [exact Hpq | discriminate].
  - change 0%Q with (inject_Z 0). rewrite <- Zle_Qle. exact Hd.
Qed.

Lemma overall_mono lo hi (p q : Q) :
  lo <= hi -> (p <= q)%Q -> overall lo hi p <= overall lo hi q.
Proof.
  intros Hd Hpq. unfold overall, JS.Math_round. apply Qfloor_resp_le.
  pose proof (scaled_mono p q (hi - lo) ltac:(lia) Hpq). lra.
Qed.

Lemma overall_lower lo hi (p : Q) :
  lo <= hi -> (0 <= p)%Q -> lo <= overall lo hi p.
Proof.
  intros Hd Hp. unfold overall, JS.Math_round.
  rewrite <- (Qfloor_Z lo) at 1. apply Qfloor_resp_le.
  pose proof (scaled_mono 0 p (hi - lo) ltac:(lia) Hp) as H.
  assert (E : (0 / 100 * inject_Z (hi - lo) == 0)%Q) by (unfold Qdiv; ring).
  rewrite E in H. lra.
Qed.

Lemma overall_upper lo hi (p : Q) :
  lo <= hi -> (p <= 100)%Q -> overall lo hi p <= hi.
Proof.
  intros Hd Hp. unfold overall, JS.Math_round.
  set (y := (inject_Z lo + p / 100 * inject_Z (hi - lo) + (1 # 2))%Q).
  apply Z.lt_succ_r. unfold Z.succ. rewrite Zlt_Qlt.
  apply Qle_lt_trans with y; [apply Qfloor_le |]. subst y.
  pose proof (scaled_mono p 100 (hi - lo) ltac:(lia) Hp) as H.
  assert (E : (100 / 100 * inject_Z (hi - lo) == inject_Z (hi - lo))%Q) by field.
  rewrite E in H.
  replace (hi + 1) with (lo + (hi - lo) + 1) by lia.
  rewrite !inject_Z_plus. change (inject_Z 1) with 1%Q. lra.
Qed.

Lemma onEvent_overall clock e lw lo hi :
  stageWeights (Api.stage e) = Range lo hi ->
  overallProgress (ui (snd (onEvent clock e lw))) = overall lo hi (percent e).
Proof.
  destruct lw as [l w]. intros Hw. unfold onEvent.
  destruct (String.eqb_spec (Api.stage e) "done") as [E | _].
  - rewrite E in Hw. discriminate.
  - rewrite Hw. destruct (negb _ && negb _); reflexivity.
Qed.

(** The four stages and their spans. *)
Lemma rank_weight s r :
  rank s = Some r ->
  (r = 1%nat /\ stageWeights s = Range 10 30)
  \/ (r = 2%nat /\ stageWeights s = Range 30 45)
  \/ (r = 3%nat /\ stageWeights s = Range 45 90)
  \/ (r = 4%nat /\ stageWeights s = Range 90 100).
Proof.
  unfold rank, stageWeights.
  destruct (String.eqb s "whisper"); [intros [= <-]; auto |].
  destruct (String.eqb s "beat"); [intros [= <-]; auto |].
  destruct (String.eqb s "ffmpeg"); [intros [= <-]; auto |].
  destruct (String.eqb s "finalize"); [intros [= <-]; auto 6 | discriminate].
Qed.

(** An event that may follow another shows at least as much progress. *)
Lemma follows_overall clock e1 e2 lw1 lw2 :
  reported e1 -> reported e2 -> follows e1 e2 ->
  overallProgress (ui (snd (onEvent clock e1 lw1)))
  <= overallProgress (ui (snd (onEvent clock e2 lw2))).
Proof.
  intros [_ [H1lo H1hi]] [_ [H2lo H2hi]]. unfold follows.
  destruct (rank (Api.stage e1)) as [r1 |] eqn:R1; [| contradiction].
  destruct (rank (Api.stage e2)) as [r2 |] eqn:R2; [| contradiction].
  intros Hf.
  destruct (rank_weight _ _ R1) as [[-> W1] | [[-> W1] | [[-> W1] | [-> W1]]]];
    destruct (rank_weight _ _ R2) as [[-> W2] | [[-> W2] | [[-> W2] | [-> W2]]]];
    rewrite (onEvent_overall clock e1 lw1 _ _ W1), (onEvent_overall clock e2 lw2 _ _ W2);
    destruct Hf as [Hlt | [Heq Hle]];
    try (exfalso; lia);
    try (apply overall_mono; [lia | exact Hle]);
    match goal with
    | |- overall ?a ?b _ <= overall ?c ?d _ =>
        apply Z.le_trans with b; [apply overall_upper; [lia | assumption] |];
        apply Z.le_trans with c; [lia | apply overall_lower; [lia | assumption]]
    end.
Qed.

Lemma first_overall clock e lw :
  reported e -> 10 <= overallProgress (ui (snd (onEvent clock e lw))).
Proof.
  intros [Hr [Hlo _]].
  destruct (rank (Api.stage e)) as [r |] eqn:R; [| congruence].
  destruct (rank_weight _ _ R) as [[_ W] | [[_ W] | [[_ W] | [_ W]]]];
    rewrite (onEvent_overall clock e lw _ _ W);
    match goal with
    | |- _ <= overall ?a ?b _ =>
        apply Z.le_trans with a; [lia | apply overall_lower; [lia | assumption]]
    end.
Qed.

Lemma overallTrace_sorted clock events :
  Forall reported events -> Sorted follows events ->
  forall lw v0,
    match events with
    | [] => True
    | e :: _ => forall lw', v0 <= overallProgress (ui (snd (onEvent clock e lw')))
    end ->
    Sorted Z.le (v0 :: overallTrace clock events lw).
Proof.
  induction events as [| e rest IH]; intros Hrep Hsorted lw v0 Hfirst; simpl.
  - repeat constructor.
  - inversion Hrep as [| ? ? He Hrest]; subst.
    inversion Hsorted as [| ? ? Hs Hhd]; subst.
    constructor; [| constructor; apply Hfirst].
    apply (IH Hrest Hs). destruct rest as [| e' rest']; [exact I |].
    intros lw'. inversion Hhd; subst. inversion Hrest; subst.
    apply follows_overall; assumption.
Qed.

End OverallFacts.

(** C3.  Starting from the 10 percent the upload accounts for (or less),
    a sequence of whisper, beat, ffmpeg and finalize events in pipeline
    order, with percentages between 0 and 100 that do not go down within a
    stage, makes the overall progress go up or stay: every value shown is at
    most every later one. *)
Theorem overall_progress_monotone :
  forall (clock : nat -> string) (events : list Api.ProgressEvent)
         (lw : App.Listener * App.World),
    Props.pipelineOrdered events ->
    App.overallProgress (App.ui (snd lw)) <= 10 ->
    StronglySorted Z.le
      (App.overallProgress (App.ui (snd lw)) :: Props.overallTrace clock events lw).
Proof.
  intros clock events lw [Hrep Hsorted] H10.
  apply Sorted_StronglySorted; [intros x y z; apply Z.le_trans |].
  apply overallTrace_sorted; try assumption.
  destruct events as [| e rest]; [exact I |].
  intros lw'. inversion Hrep; subst.
  apply Z.le_trans with 10; [exact H10 | apply first_overall; assumption].
Qed.

Lemma overall_progress_monotone_witness :
  let events := [Sample.event "whisper" 0; Sample.event "whisper" (125 # 2);
                 Sample.event "beat" (1 # 3); Sample.event "ffmpeg" 100;
                 Sample.event "finalize" 40] in
  Props.pipelineOrdered events
  /\ App.overallProgress (App.ui (snd Sample.listening)) <= 10
  /\ StronglySorted Z.le
       (App.overallProgress (App.ui (snd Sample.listening))
          :: Props.overallTrace Sample.clock events Sample.listening).
Proof.
  intros events.
  assert (Hord : Props.pipelineOrdered events).
  { split.
    - repeat (apply Forall_cons;
              [split; [simpl; discriminate | split; vm_compute; discriminate] |]).
      apply Forall_nil.
    - repeat (apply Sorted_cons;
              [| first [ apply HdRel_nil
                       | apply HdRel_cons; unfold Props.follows; simpl;
                         first [ left; lia
                               | right; split; [reflexivity | vm_compute; discriminate] ] ] ]).
      apply Sorted_nil. }
  assert (H10 : App.overallProgress (App.ui (snd Sample.listening)) <= 10)
    by (vm_compute; discriminate).
  split; [exact Hord |]. split; [exact H10 |].
  exact (overall_progress_monotone Sample.clock events Sample.listening Hord H10).
Defined.

Example overallTrace_sample :
  Props.overallTrace Sample.clock
    [Sample.event "whisper" 0; Sample.event "whisper" (125 # 2);
     Sample.event "beat" (1 # 3); Sample.event "ffmpeg" 100;
     Sample.event "finalize" 40] Sample.listening
  = [10; 23; 30; 90; 94].
Proof. reflexivity. Qed.

(* ====================================================================== *)
(** ** A run from subscription to its end *)
(* ====================================================================== *)

Section ListenFacts.

Import Api App Props.

Variable clock : nat -> string.

(** The callbacks neither look at the connections nor touch them. *)
Lemma call_replaceSource c l w n es :
  call clock c (l, replaceSource n es w)
  = (fst (call clock c (l, w)), replaceSource n es (snd (call clock c (l, w)))).
Proof.
  destruct c as [e | | m]; simpl; try reflexivity.
  unfold onEvent.
  destruct (negb _ && negb _); destruct (String.eqb (Api.stage e) "done");
    try reflexivity; destruct (stageWeights _); reflexivity.
Qed.

Lemma call_source c l w :
  source (fst (call clock c (l, w))) = source l
  /\ taskId (fst (call clock c (l, w))) = taskId l
  /\ sources (snd (call clock c (l, w))) = sources w.
Proof.
  destruct c as [e | | m]; simpl; auto.
  unfold onEvent.
  destruct (negb _ && negb _); destruct (String.eqb (Api.stage e) "done");
    auto; destruct (stageWeights _); auto.
Qed.

Lemma calls_replaceSource cbs l w n es :
  calls clock cbs (l, replaceSource n es w)
  = (fst (calls clock cbs (l, w)), replaceSource n es (snd (calls clock cbs (l, w)))).
Proof.
  unfold calls. revert l w. induction cbs as [| c rest IH]; intros l w; simpl.
  - reflexivity.
  - rewrite call_replaceSource.
    destruct (call clock c (l, w)) as [l1 w1]. simpl. apply IH.
Qed.

Lemma calls_source cbs l w :
  source (fst (calls clock cbs (l, w))) = source l
  /\ taskId (fst (calls clock cbs (l, w))) = taskId l
  /\ sources (snd (calls clock cbs (l, w))) = sources w.
Proof.
  unfold calls. revert l w. induction cbs as [| c rest IH]; intros l w; simpl; auto.
  destruct (call_source c l w) as (Hs & Ht & Hw).
  destruct (call clock c (l, w)) as [l1 w1]. simpl in *.
  destruct (IH l1 w1) as (Hs' & Ht' & Hw'). repeat split; congruence.
Qed.

Lemma replaceSource_twice n es es' w :
  replaceSource n es (replaceSource n es' w) = replaceSource n es w.
Proof. unfold replaceSource. simpl. now rewrite setSource_setSource. Qed.

Lemma replaceSource_same n es w :
  nth_error (sources w) n = Some es -> replaceSource n es w = w.
Proof.
  intros H. unfold replaceSource. rewrite (setSource_same _ _ _ H).
  destruct w; reflexivity.
Qed.

(** Listening to the items is making the callbacks [subscribeProgress]
    makes for them, and leaving the connection as it leaves it. *)
Lemma listen_pump items :
  forall l w es,
    nth_error (sources w) (source l) = Some es ->
    listen clock items (l, w)
    = (fst (calls clock (snd (pump es items)) (l, w)),
       replaceSource (source l) (fst (pump es items))
         (snd (calls clock (snd (pump es items)) (l, w)))).
Proof.
  unfold listen.
  induction items as [| item rest IH]; intros l w es Hes; simpl.
  - rewrite (replaceSource_same _ _ _ Hes). reflexivity.
  - rewrite Hes. destruct (dispatch es item) as [es1 cb] eqn:Hd.
    assert (Hes1 : nth_error (sources (replaceSource (source l) es1 w)) (source l)
                   = Some es1)
      by (simpl; apply (nth_error_setSource_eq _ _ _ _ Hes)).
    destruct cb as [c |].
    + rewrite call_replaceSource.
      destruct (call_source c l w) as (Hs & _ & Hw).
      destruct (call clock c (l, w)) as [l1 w1] eqn:Hc. simpl in Hs, Hw. simpl fst. simpl snd.
      rewrite (IH l1 (replaceSource (source l) es1 w1) es1).
      2:{ rewrite Hs. simpl. rewrite Hw. apply (nth_error_setSource_eq _ _ _ _ Hes). }
      destruct (pump es1 rest) as [es2 cbs]. simpl.
      fold (calls clock cbs (l1, replaceSource (source l) es1 w1)).
      rewrite calls_replaceSource. simpl. rewrite Hc. fold (calls clock cbs (l1, w1)).
      rewrite Hs, replaceSource_twice. reflexivity.
    + rewrite (IH l (replaceSource (source l) es1 w) es1 Hes1).
      destruct (pump es1 rest) as [es2 cbs]. simpl.
      rewrite calls_replaceSource. simpl. rewrite replaceSource_twice. reflexivity.
Qed.

Lemma calls_app xs ys lw : calls clock (xs ++ ys)%list lw = calls clock ys (calls clock xs lw).
Proof. unfold calls. apply fold_left_app. Qed.

Lemma calls_events evs lw : calls clock (map OnEvent evs) lw = handled clock evs lw.
Proof.
  unfold calls, handled. revert lw.
  induction evs as [| e rest IH]; intros lw; simpl; [reflexivity | apply IH].
Qed.

(** Progress events change neither the status nor the download URL. *)
Lemma handled_frame evs l w :
  processStatus (ui (snd (handled clock evs (l, w)))) = processStatus (ui w)
  /\ downloadUrl (ui (snd (handled clock evs (l, w)))) = downloadUrl (ui w)
  /\ taskId (fst (handled clock evs (l, w))) = taskId l.
Proof.
  unfold handled. revert l w.
  induction evs as [| e rest IH]; intros l w; cbn [fold_left]; [simpl; auto |].
  assert (H : processStatus (ui (snd (onEvent clock e (l, w)))) = processStatus (ui w)
              /\ downloadUrl (ui (snd (onEvent clock e (l, w)))) = downloadUrl (ui w)
              /\ taskId (fst (onEvent clock e (l, w))) = taskId l).
  { unfold onEvent.
    destruct (negb _ && negb _); destruct (String.eqb (Api.stage e) "done");
      auto; destruct (stageWeights _); auto. }
  destruct (onEvent clock e (l, w)) as [l1 w1]. simpl in H.
  destruct (IH l1 w1) as (H1 & H2 & H3). destruct H as (H4 & H5 & H6).
  repeat split; congruence.
Qed.

Lemma filter_isOnError_events evs : filter isOnError (map OnEvent evs) = [].
Proof. induction evs; simpl; auto. Qed.

Lemma not_In_events c evs : In c (map OnEvent evs) -> exists e, c = OnEvent e.
Proof. rewrite in_map_iff. intros (e & <- & _). eauto. Qed.

End ListenFacts.

(** C6.  An [error] event arriving on an open connection ends the run:
    the connection is closed, the callbacks made are [onEvent] for the
    events before it and then [onError] with its message, so exactly one
    [onError] in all; the status becomes [error], the log ends with the
    failure line carrying the message, and whatever the stream carries
    afterwards changes nothing. *)
Theorem error_event_is_terminal :
  forall (clock : nat -> string) (l : App.Listener) (w : App.World)
         (es : Api.EventSource) (pre post : list Api.SseItem) (d : Api.ProgressEvent),
    nth_error (App.sources w) (App.source l) = Some es ->
    Api.closed es = false ->
    existsb Props.terminal pre = false ->
    Api.stage d = "error" ->
    let items := (pre ++ Api.Message (Some d) :: post)%list in
    let cbs := snd (Api.pump es items) in
    let final := App.listen clock items (l, w) in
    nth_error (App.sources (snd final)) (App.source l) = Some (Api.close es)
    /\ cbs = (map Api.OnEvent (Props.parsed pre) ++ [Api.OnError (Api.message d)])%list
    /\ filter Props.isOnError cbs = [Api.OnError (Api.message d)]
    /\ App.processStatus (App.ui (snd final)) = ProcessStatus.error
    /\ (exists before timestamp,
          App.logs (App.ui (snd final))
          = (before ++ [ {| LogEntry.timestamp := timestamp;
                            LogEntry.message := "处理失败: " ++ Api.message d;
                            LogEntry.type := LogType.error |} ])%list)
    /\ final = App.listen clock (pre ++ [Api.Message (Some d)])%list (l, w).
Proof.
  intros clock l w es pre post d Hes Hopen Hpre Hd items cbs final.
  assert (Ht : Props.terminal (Api.Message (Some d)) = true)
    by (simpl; rewrite Hd; reflexivity).
  assert (Hcb : snd (Api.dispatch es (Api.Message (Some d)))
                = Some (Api.OnError (Api.message d))).
  { unfold Api.dispatch, Api.onmessage. rewrite Hopen, Hd. reflexivity. }
  assert (Hpump : forall post',
             Api.pump es (pre ++ Api.Message (Some d) :: post')%list
             = (Api.close es,
                (map Api.OnEvent (Props.parsed pre) ++ [Api.OnError (Api.message d)])%list)).
  { intros post'. rewrite (pump_terminal es pre _ post' Hopen Hpre Ht), Hcb. reflexivity. }
  assert (Hfinal : forall post',
             App.listen clock (pre ++ Api.Message (Some d) :: post')%list (l, w)
             = (fst (Props.calls clock
                       (map Api.OnEvent (Props.parsed pre) ++ [Api.OnError (Api.message d)])
                       (l, w)),
                App.replaceSource (App.source l) (Api.close es)
                  (snd (Props.calls clock
                          (map Api.OnEvent (Props.parsed pre) ++ [Api.OnError (Api.message d)])
                          (l, w))))).
  { intros post'. rewrite (listen_pump clock _ l w es Hes), Hpump. reflexivity. }
  subst final cbs items. rewrite (Hfinal post), (Hfinal []), Hpump.
  rewrite calls_app, calls_events.
  destruct (calls_source clock (map Api.OnEvent (Props.parsed pre)) l w) as (_ & _ & Hsrc).
  rewrite calls_events in Hsrc.
  destruct (Props.handled clock (Props.parsed pre) (l, w)) as [l1 w1]. simpl in Hsrc.
  simpl. repeat split.
  - rewrite Hsrc. apply (nth_error_setSource_eq _ _ _ _ Hes).
  - rewrite filter_app, filter_isOnError_events. reflexivity.
  - eexists _, _. reflexivity.
Qed.

Lemma error_event_is_terminal_witness :
  let items := [Api.Message (Some (Sample.event "whisper" 40)); Api.Message None;
                Api.Message (Some {| Api.stage := "error"; Api.message := "ffmpeg exited with 1";
                                     Api.percent := 0%Q |});
                Api.Message (Some (Sample.event "beat" 10)); Api.ConnectionError] in
  let final := App.listen Sample.clock items Sample.listening in
  filter Props.isOnError (snd (Api.pump (Api.subscribeProgress "task-0001-abcd") items))
  = [Api.OnError "ffmpeg exited with 1"]
  /\ App.processStatus (App.ui (snd final)) = ProcessStatus.error.
Proof.
  intros items final.
  pose proof (error_event_is_terminal Sample.clock
                (fst Sample.listening) (snd Sample.listening)
                (Api.subscribeProgress "task-0001-abcd")
                [Api.Message (Some (Sample.event "whisper" 40)); Api.Message None]
                [Api.Message (Some (Sample.event "beat" 10)); Api.ConnectionError]
                {| Api.stage := "error"; Api.message := "ffmpeg exited with 1";
                   Api.percent := 0%Q |}
                eq_refl eq_refl eq_refl eq_refl) as H.
  split.
  - exact (proj1 (proj2 (proj2 H))).
  - exact (proj1 (proj2 (proj2 (proj2 H)))).
Defined.

Section RunFacts.

Import Api App Props.

Variable clock : nat -> string.

(** The callbacks of a subscription: [onEvent] some number of times, then
    at most one of [onDone] and [onError]. *)
Lemma pump_outcome es items :
  closed es = false ->
  exists evs tl,
    snd (pump es items) = (map OnEvent evs ++ tl)%list
    /\ (tl = [] \/ tl = [OnDone] \/ exists m, tl = [OnError m]).
Proof.
  intros Hopen. destruct (existsb terminal items) eqn:E.
  - destruct (first_terminal items E) as (pre & t & post & -> & Hpre & Ht).
    rewrite (pump_terminal es pre t post Hopen Hpre Ht). simpl.
    exists (parsed pre). eexists. split; [reflexivity |].
    unfold dispatch, onmessage, onerror. rewrite Hopen.
    destruct t as [[d |] |]; simpl in Ht; try discriminate.
    + destruct (String.eqb (stage d) "end") eqn:E1; [auto |].
      destruct (String.eqb (stage d) "error") eqn:E2; [| discriminate].
      right. right. eexists. reflexivity.
    + right. right. eexists. reflexivity.
  - rewrite (pump_running es items Hopen E). simpl.
    exists (parsed items), []. rewrite app_nil_r. auto.
Qed.

(** How a subscription ends, and what it leaves in the state: completed
    with the task's download URL, failed, or still running, the last two
    with the URL untouched. *)
Lemma listen_outcome l w es items :
  nth_error (sources w) (source l) = Some es ->
  closed es = false ->
  let cbs := snd (pump es items) in
  let final := ui (snd (listen clock items (l, w))) in
  (In OnDone cbs /\ (forall m, ~ In (OnError m) cbs)
   /\ downloadUrl final = Some (getDownloadUrl (taskId l))
   /\ processStatus final = ProcessStatus.completed)
  \/ (~ In OnDone cbs /\ (exists m, In (OnError m) cbs)
      /\ downloadUrl final = downloadUrl (ui w)
      /\ processStatus final = ProcessStatus.error)
  \/ (~ In OnDone cbs /\ (forall m, ~ In (OnError m) cbs)
      /\ downloadUrl final = downloadUrl (ui w)
      /\ processStatus final = processStatus (ui w)).
Proof.
  intros Hes Hopen cbs final. subst cbs final.
  rewrite (listen_pump clock items l w es Hes). simpl snd.
  destruct (pump_outcome es items Hopen) as (evs & tl & -> & Htl).
  rewrite calls_app, calls_events.
  destruct (handled_frame clock evs l w) as (Hst & Hurl & Htask).
  destruct (handled clock evs (l, w)) as [l1 w1]. simpl in Hst, Hurl, Htask.
  assert (Hev : forall c, In c (map OnEvent evs) -> c <> OnDone /\ forall m, c <> OnError m).
  { intros c Hc. apply not_In_events in Hc as (e & ->). split; [| intros m]; discriminate. }
  destruct Htl as [-> | [-> | (m & ->)]]; simpl.
  - right. right. rewrite app_nil_r. repeat split; try assumption.
    + intros Hc. now apply Hev in Hc.
    + intros m Hc. apply Hev in Hc. now apply (proj2 Hc m).
  - left. repeat split.
    + apply in_or_app. right. left. reflexivity.
    + intros m Hc. apply in_app_or in Hc as [Hc | [Hc | []]]; [| discriminate].
      apply Hev in Hc. now apply (proj2 Hc m).
    + now rewrite Htask.
  - right. left. repeat split.
    + intros Hc. apply in_app_or in Hc as [Hc | [Hc | []]]; [| discriminate].
      now apply Hev in Hc.
    + exists m. apply in_or_app. right. left. reflexivity.
    + exact Hurl.
Qed.

(** After validation the run reaches its first [await] with no download
    URL and the status [processing]. *)
Lemma handleGenerate_started w :
  videos (ui w) <> [] -> audio (ui w) <> None ->
  exists videoFiles audioFile subtitleFile,
    snd (handleGenerate clock w)
    = AwaitUpload videoFiles audioFile subtitleFile (settings (ui w))
    /\ downloadUrl (ui (fst (handleGenerate clock w))) = None
    /\ processStatus (ui (fst (handleGenerate clock w))) = ProcessStatus.processing.
Proof.
  intros Hv Ha. unfold handleGenerate.
  destruct (Nat.eqb (List.length (videos (ui w))) 0) eqn:E.
  - apply length_zero_nil in E. contradiction.
  - destruct (audio (ui w)) as [a |]; [| contradiction].
    unfold beginUpload, closePrevious. simpl.
    destruct (unsubRef w) as [n |]; simpl.
    + destruct (nth_error (sources w) n); simpl; eauto 6.
    + eauto 6.
Qed.

Lemma catch_state err w :
  downloadUrl (ui (fst (catch clock err w))) = downloadUrl (ui w)
  /\ processStatus (ui (fst (catch clock err w))) = ProcessStatus.error.
Proof. split; reflexivity. Qed.

Lemma uploadSettled_resolved captured uploadResult w :
  exists config,
    snd (uploadSettled clock captured (Resolved uploadResult) w) = AwaitGenerate config
    /\ downloadUrl (ui (fst (uploadSettled clock captured (Resolved uploadResult) w)))
       = downloadUrl (ui w)
    /\ processStatus (ui (fst (uploadSettled clock captured (Resolved uploadResult) w)))
       = processStatus (ui w).
Proof. eexists. repeat split. Qed.

Lemma generateSettled_resolved tid w :
  exists l w',
    generateSettled clock (Resolved tid) w = (w', Listening l)
    /\ taskId l = tid
    /\ nth_error (sources w') (source l) = Some (subscribeProgress tid)
    /\ downloadUrl (ui w') = downloadUrl (ui w)
    /\ processStatus (ui w') = processStatus (ui w).
Proof.
  eexists _, _. split; [reflexivity |]. simpl. repeat split.
  rewrite nth_error_app2, Nat.sub_diag; [reflexivity | apply Nat.le_refl].
Qed.

End RunFacts.

(** C7.  The download URL of a task is the API base followed by
    [/api/download/] and the task id.  In a run that passed validation the
    state holds a download URL only if the stream reached its [end] event
    and [onDone] ran, and then it is the URL of that run's task; a run that
    ends in [onError], or whose upload or generate request fails, or that
    is still in progress, holds none. *)
Theorem download_url_only_after_completion :
  (forall taskId : string,
      Api.getDownloadUrl taskId = Api.API_BASE ++ "/api/download/" ++ taskId)
  /\ forall (clock : nat -> string) (w : App.World) (script : App.Script),
      App.videos (App.ui w) <> [] ->
      App.audio (App.ui w) <> None ->
      let final := App.ui (App.run clock script w) in
      (forall u,
          App.downloadUrl final = Some u ->
          exists uploadResult taskId items,
            script = App.Streams uploadResult taskId items
            /\ u = Api.getDownloadUrl taskId
            /\ In Api.OnDone (snd (Api.pump (Api.subscribeProgress taskId) items))
            /\ App.processStatus final = ProcessStatus.completed)
      /\ (forall uploadResult taskId items,
             script = App.Streams uploadResult taskId items ->
             In Api.OnDone (snd (Api.pump (Api.subscribeProgress taskId) items)) ->
             App.downloadUrl final = Some (Api.getDownloadUrl taskId))
      /\ (forall uploadResult taskId items m,
             script = App.Streams uploadResult taskId items ->
             In (Api.OnError m) (snd (Api.pump (Api.subscribeProgress taskId) items)) ->
             App.downloadUrl final = None
             /\ App.processStatus final = ProcessStatus.error)
      /\ (App.processStatus final = ProcessStatus.error -> App.downloadUrl final = None).
Proof.
  split; [reflexivity |].
  intros clock w script Hv Ha final. subst final. unfold App.run.
  destruct (handleGenerate_started clock w Hv Ha) as (vf & af & sf & Hsusp & Hurl & Hst).
  destruct (App.handleGenerate clock w) as [w0 susp]. simpl in Hsusp, Hurl, Hst. subst susp.
  destruct script as [err | uploadResult err | uploadResult tid items]; unfold App.resume.
  - (* the upload fails *)
    simpl. rewrite Hurl. repeat split; try discriminate; intros; discriminate.
  - (* the generate request fails *)
    simpl. rewrite Hurl. repeat split; try discriminate; intros; discriminate.
  - (* the stream is listened to *)
    destruct (uploadSettled_resolved clock (App.settings (App.ui w)) uploadResult w0)
      as (config & _ & Hurl1 & Hst1).
    set (w1 := fst (App.uploadSettled clock (App.settings (App.ui w))
                      (App.Resolved uploadResult) w0)) in *.
    destruct (generateSettled_resolved clock tid w1) as (l & w2 & -> & Htid & Hsrc & Hurl2 & Hst2).
    pose proof (listen_outcome clock l w2 (Api.subscribeProgress tid) items Hsrc eq_refl) as Hout.
    cbv zeta in Hout. rewrite Htid in Hout.
    assert (Hnone : App.downloadUrl (App.ui w2) = None) by congruence.
    assert (Hproc : App.processStatus (App.ui w2) = ProcessStatus.processing) by congruence.
    rewrite Hnone, Hproc in Hout.
    destruct Hout as [(Hd & He & Hu & Hs) | [(Hd & He & Hu & Hs) | (Hd & He & Hu & Hs)]];
      rewrite Hu, Hs; (split; [| split; [| split]]).
    + intros u [= <-]. exists uploadResult, tid, items. auto.
    + intros ur t its [= _ <- <-] _. reflexivity.
    + intros ur t its m [= _ <- <-] Hin. exfalso. exact (He m Hin).
    + discriminate.
    + intros u [=].
    + intros ur t its [= _ <- <-] Hin. contradiction.
    + intros ur t its m _ _. split; reflexivity.
    + reflexivity.
    + intros u [=].
    + intros ur t its [= _ <- <-] Hin. contradiction.
    + intros ur t its m [= _ <- <-] Hin. exfalso. exact (He m Hin).
    + discriminate.
Qed.

Lemma download_url_only_after_completion_witness :
  let good := App.Streams Sample.uploaded "task-0001-abcd"
                [Api.Message (Some (Sample.event "whisper" 40));
                 Api.Message (Some (Sample.event "done" 100));
                 Api.Message (Some (Sample.event "end" 100))] in
  let bad := App.Streams Sample.uploaded "task-0002-abcd"
               [Api.Message (Some (Sample.event "whisper" 40));
                Api.Message (Some (Sample.event "error" 0));
                Api.Message (Some (Sample.event "end" 100))] in
  App.videos (App.ui Sample.finishedOnce) <> []
  /\ App.audio (App.ui Sample.finishedOnce) <> None
  /\ App.downloadUrl (App.ui (App.run Sample.clock good Sample.finishedOnce))
     = Some "http://localhost:8000/api/download/task-0001-abcd"
  /\ App.downloadUrl (App.ui (App.run Sample.clock bad Sample.finishedOnce)) = None.
Proof.
  intros good bad.
  assert (Hv : App.videos (App.ui Sample.finishedOnce) <> []) by discriminate.
  assert (Ha : App.audio (App.ui Sample.finishedOnce) <> None) by discriminate.
  split; [exact Hv |]. split; [exact Ha |]. split.
  - apply (proj1 (proj2 (proj2 download_url_only_after_completion
                           Sample.clock Sample.finishedOnce good Hv Ha))
             Sample.uploaded "task-0001-abcd" _ eq_refl).
    simpl. auto.
  - apply (proj1 (proj2 (proj2 (proj2 download_url_only_after_completion
                                  Sample.clock Sample.finishedOnce bad Hv Ha)))
             Sample.uploaded "task-0002-abcd" _ "error" eq_refl).
    simpl. auto.
Defined.

Lemma subscribeProgress_terminates_on_end_or_error_witness :
  let items := [Api.Message (Some (Sample.event "ffmpeg" 80));
                Api.Message (Some (Sample.event "done" 100));
                Api.Message (Some (Sample.event "end" 100));
                Api.Message (Some (Sample.event "finalize" 5))] in
  snd (Api.pump (Api.subscribeProgress "t1") items)
  = [Api.OnEvent (Sample.event "ffmpeg" 80); Api.OnEvent (Sample.event "done" 100);
     Api.OnDone].
Proof.
  intros items.
  exact (proj1 (proj2 (subscribeProgress_terminates_on_end_or_error "t1" items))
           [Api.Message (Some (Sample.event "ffmpeg" 80));
            Api.Message (Some (Sample.event "done" 100))]
           (Sample.event "end" 100)
           [Api.Message (Some (Sample.event "finalize" 5))]
           eq_refl eq_refl eq_refl).
Defined.

(** A whole run on sample data: the second run of a component resets what
    the first one left, closes its connection and ends completed. *)
Example run_sample :
  let final := App.run Sample.clock
                 (App.Streams Sample.uploaded "task-0001-abcd"
                    [Api.Message (Some (Sample.event "whisper" 40));
                     Api.Message None;
                     Api.Message (Some (Sample.event "beat" 100));
                     Api.Message (Some (Sample.event "done" 100));
                     Api.Message (Some (Sample.event "end" 100))])
                 Sample.finishedOnce in
  App.processStatus (App.ui final) = ProcessStatus.completed
  /\ App.overallProgress (App.ui final) = 100
  /\ map Api.closed (App.sources final) = [true; true]
  /\ App.unsubRef final = Some 1%nat
  /\ List.length (App.logs (App.ui final)) = 7%nat.
Proof. repeat split. Qed.

(* ====================================================================== *)
(** ** More on the video list *)
(* ====================================================================== *)

Section ListFacts.

Import Props.

Lemma removeAt_map {A B} (f : A -> B) k l :
  removeAt k (map f l) = map f (removeAt k l).
Proof. unfold removeAt. now rewrite map_app, firstn_map, skipn_map. Qed.

Lemma insertAt_map {A B} (f : A -> B) k x l :
  insertAt k (f x) (map f l) = map f (insertAt k x l).
Proof. unfold insertAt. now rewrite map_app, firstn_map, skipn_map. Qed.

Lemma length_removeAt {A} k (l : list A) :
  (k < List.length l)%nat -> S (List.length (removeAt k l)) = List.length l.
Proof.
  intros H. unfold removeAt.
  rewrite length_app, length_firstn, length_skipn. lia.
Qed.

Lemma length_insertAt {A} k (x : A) l :
  List.length (insertAt k x l) = S (List.length l).
Proof.
  unfold insertAt. rewrite length_app. simpl.
  rewrite length_firstn, length_skipn. lia.
Qed.

Lemma nth_error_insertAt {A} k (x : A) l :
  (k <= List.length l)%nat -> nth_error (insertAt k x l) k = Some x.
Proof.
  intros H. unfold insertAt.
  rewrite nth_error_app2; rewrite length_firstn, Nat.min_l by exact H; [| lia].
  now rewrite Nat.sub_diag.
Qed.

Lemma removeAt_app {A} (l1 l2 : list A) x :
  removeAt (List.length l1) (l1 ++ x :: l2) = (l1 ++ l2)%list.
Proof.
  unfold removeAt. induction l1 as [| y l1 IH]; simpl; [reflexivity |].
  simpl in IH. now rewrite IH.
Qed.

Lemma insertAt_app {A} (l1 l2 : list A) x :
  insertAt (List.length l1) x (l1 ++ l2) = (l1 ++ x :: l2)%list.
Proof.
  unfold insertAt. induction l1 as [| y l1 IH]; simpl; [reflexivity |].
  now rewrite IH.
Qed.

Lemma removeAt_insertAt {A} k (x : A) l :
  (k <= List.length l)%nat -> removeAt k (insertAt k x l) = l.
Proof.
  intros H. unfold insertAt.
  assert (Hk : List.length (firstn k l) = k) by (rewrite length_firstn; lia).
  rewrite <- Hk at 1. rewrite removeAt_app. apply firstn_skipn.
Qed.

Lemma insertAt_removeAt {A} k (x : A) l :
  nth_error l k = Some x -> insertAt k x (removeAt k l) = l.
Proof.
  intros H. apply nth_error_split in H as (l1 & l2 & -> & <-).
  now rewrite removeAt_app, insertAt_app.
Qed.

(** [splice] at an index inside the array. *)
Lemma splice_remove_at {A} (l : list A) start x :
  0 <= start -> nth_error l (Z.to_nat start) = Some x ->
  JS.splice l start 1 [] = ([x], removeAt (Z.to_nat start) l).
Proof.
  intros H0 Hx.
  assert (Hlt : (Z.to_nat start < List.length l)%nat) by (apply nth_error_Some; congruence).
  unfold JS.splice, JS.relativeIndex.
  destruct (Z.ltb_spec start 0); [lia |].
  replace (Z.min start (Z.of_nat (List.length l))) with start by lia.
  replace (Z.to_nat (Z.min (Z.max 1 0)
                       (Z.of_nat (List.length l) - Z.of_nat (Z.to_nat start))))
    with 1%nat by lia.
  rewrite <- hd_error_skipn in Hx.
  unfold removeAt. simpl app.
  destruct (skipn (Z.to_nat start) l) as [| y tl] eqn:E; [discriminate |].
  injection Hx as ->. simpl firstn. f_equal.
  now rewrite Nat.add_1_r.
Qed.

Lemma splice_insert_at {A} (l : list A) start x :
  0 <= start <= Z.of_nat (List.length l) ->
  snd (JS.splice l start 0 [x]) = insertAt (Z.to_nat start) x l.
Proof.
  intros H. unfold JS.splice, JS.relativeIndex. simpl snd.
  destruct (Z.ltb_spec start 0); [lia |].
  replace (Z.min start (Z.of_nat (List.length l))) with start by lia.
  replace (Z.to_nat (Z.min (Z.max 0 0)
                       (Z.of_nat (List.length l) - Z.of_nat (Z.to_nat start))))
    with 0%nat by lia.
  rewrite Nat.add_0_r. reflexivity.
Qed.

(** With both indices inside the array, [arrayMove] takes the element out
    and puts it in at the target index. *)
Lemma arrayMove_inside {A} (array : list A) from to x :
  0 <= from -> nth_error array (Z.to_nat from) = Some x ->
  0 <= to < Z.of_nat (List.length array) ->
  VideoUploadZone.arrayMove array from to
  = map Some (insertAt (Z.to_nat to) x (removeAt (Z.to_nat from) array)).
Proof.
  intros Hfrom Hx Hto.
  assert (Hlt : (Z.to_nat from < List.length array)%nat)
    by (apply nth_error_Some; congruence).
  unfold VideoUploadZone.arrayMove.
  rewrite (splice_remove_at (map Some array) from (Some x) Hfrom)
    by (rewrite nth_error_map, Hx; reflexivity).
  destruct (Z.ltb_spec to 0); [lia |].
  rewrite splice_insert_at.
  - now rewrite removeAt_map, insertAt_map.
  - pose proof (length_removeAt (Z.to_nat from) (map Some array)) as Hl.
    rewrite length_map in Hl. specialize (Hl Hlt). lia.
Qed.

(** [findIndex] and [find] agree on the first match. *)
Lemma findIndexFrom_found {A} (p : A -> bool) l k :
  (exists v, In v l /\ p v = true) ->
  exists i v,
    JS.findIndexFrom p l k = k + Z.of_nat i
    /\ nth_error l i = Some v /\ p v = true /\ find p l = Some v
    /\ forall u, In u (firstn i l) -> p u = false.
Proof.
  revert k. induction l as [| y rest IH]; intros k (v & Hin & Hp); [destruct Hin |].
  simpl. destruct (p y) eqn:Hy.
  - exists 0%nat, y. simpl. repeat split; auto; try lia; intros u [].
  - destruct Hin as [-> | Hin]; [congruence |].
    destruct (IH (k + 1) (ex_intro _ v (conj Hin Hp))) as (i & w & Hi & Hn & Hw & Hf & Hb).
    exists (S i), w. simpl. repeat split; auto; try lia;
      intros u [<- | Hu]; auto.
Qed.

Lemma findIndex_found {A} (p : A -> bool) l :
  (exists v, In v l /\ p v = true) ->
  exists v,
    0 <= JS.findIndex p l
    /\ nth_error l (Z.to_nat (JS.findIndex p l)) = Some v
    /\ p v = true /\ find p l = Some v
    /\ forall u, In u (firstn (Z.to_nat (JS.findIndex p l)) l) -> p u = false.
Proof.
  intros H. unfold JS.findIndex.
  destruct (findIndexFrom_found p l 0 H) as (i & v & -> & Hn & Hp & Hf & Hb).
  exists v. simpl. rewrite Nat2Z.id. repeat split; auto. lia.
Qed.

Lemma find_none_filter {A} (p : A -> bool) l :
  (forall v, In v l -> p v = false) ->
  find p l = None /\ filter (fun v => negb (p v)) l = l.
Proof.
  induction l as [| y rest IH]; intros H; simpl; [auto |].
  rewrite (H y (or_introl eq_refl)). simpl.
  destruct IH as [-> ->]; auto. intros v Hv. apply H. now right.
Qed.

End ListFacts.

Section VideoListFacts.

Import Props VideoUploadZone.

Lemma find_app {A} (p : A -> bool) l1 l2 :
  find p (l1 ++ l2) = match find p l1 with Some x => Some x | None => find p l2 end.
Proof. induction l1 as [| y l1 IH]; simpl; [reflexivity |]. now destruct (p y). Qed.

Lemma other_ids (l : list VideoItem.t) id :
  ~ In id (map VideoItem.id l) ->
  forall v, In v l -> String.eqb (VideoItem.id v) id = false.
Proof.
  intros H v Hv. apply String.eqb_neq. intros <-. apply H. now apply in_map.
Qed.

Variable randomUUID : nat -> string.
Variable createObjectURL : nat -> File.t -> string.

Lemma newItems_ids b files :
  map VideoItem.id (fst (newItems randomUUID createObjectURL b files))
  = map randomUUID (seq (uuidCalls b) (List.length files)).
Proof.
  revert b. induction files as [| f rest IH]; intros b; simpl; [reflexivity |].
  specialize (IH {| uuidCalls := S (uuidCalls b); urlCalls := S (urlCalls b) |}).
  destruct (newItems _ _ _ rest) as [items b']. simpl in *. now rewrite IH.
Qed.

Lemma newItems_urls b files :
  map VideoItem.previewUrl (fst (newItems randomUUID createObjectURL b files))
  = map (fun p => createObjectURL (fst p) (snd p))
        (combine (seq (urlCalls b) (List.length files)) files).
Proof.
  revert b. induction files as [| f rest IH]; intros b; simpl; [reflexivity |].
  specialize (IH {| uuidCalls := S (uuidCalls b); urlCalls := S (urlCalls b) |}).
  destruct (newItems _ _ _ rest) as [items b']. simpl in *. now rewrite IH.
Qed.

Lemma newItems_counters b files :
  snd (newItems randomUUID createObjectURL b files)
  = {| uuidCalls := uuidCalls b + List.length files;
       urlCalls := urlCalls b + List.length files |}.
Proof.
  revert b. induction files as [| f rest IH]; intros b; simpl.
  - rewrite !Nat.add_0_r. now destruct b.
  - specialize (IH {| uuidCalls := S (uuidCalls b); urlCalls := S (urlCalls b) |}).
    destruct (newItems _ _ _ rest) as [items b']. simpl in *. rewrite IH.
    f_equal; lia.
Qed.

Lemma newItems_length b files :
  List.length (fst (newItems randomUUID createObjectURL b files)) = List.length files.
Proof.
  rewrite <- (length_map VideoItem.file), newItems_files. reflexivity.
Qed.

End VideoListFacts.

(** X1.  [removeVideo] on a list with distinct ids: an id that is in the
    list takes exactly its item out, leaves the items before and after it
    as they are, and revokes that item's preview URL; an id that is not in
    the list changes nothing and revokes nothing. *)
Theorem removeVideo_takes_out_one :
  forall (videos : list VideoItem.t) (id : string),
    NoDup (map VideoItem.id videos) ->
    (In id (map VideoItem.id videos) ->
     exists before item after,
       videos = (before ++ item :: after)%list
       /\ VideoItem.id item = id
       /\ VideoUploadZone.removeVideo videos id
          = (Some (VideoItem.previewUrl item), (before ++ after)%list))
    /\ (~ In id (map VideoItem.id videos) ->
        VideoUploadZone.removeVideo videos id = (None, videos)).
Proof.
  intros videos id Hnd. unfold VideoUploadZone.removeVideo. split.
  - intros Hin. apply in_map_iff in Hin as (item & Hid & Hin).
    apply in_split in Hin as (before & after & ->).
    rewrite map_app in Hnd. simpl in Hnd. apply NoDup_remove_2 in Hnd.
    rewrite Hid in Hnd.
    assert (Hb : ~ In id (map VideoItem.id before))
      by (intros H; apply Hnd, in_or_app; now left).
    assert (Ha : ~ In id (map VideoItem.id after))
      by (intros H; apply Hnd, in_or_app; now right).
    destruct (find_none_filter _ before (other_ids before id Hb)) as [Hfb Hlb].
    destruct (find_none_filter _ after (other_ids after id Ha)) as [_ Hla].
    exists before, item, after. split; [reflexivity |]. split; [exact Hid |].
    rewrite find_app, Hfb, filter_app, Hlb. simpl.
    rewrite Hid, String.eqb_refl. simpl. now rewrite Hla.
  - intros Hnot.
    destruct (find_none_filter _ videos (other_ids videos id Hnot)) as [-> ->].
    reflexivity.
Qed.

Lemma removeVideo_takes_out_one_witness :
  NoDup (map VideoItem.id Sample.videos)
  /\ (exists before item after,
        Sample.videos = (before ++ item :: after)%list
        /\ VideoItem.id item = "v2"
        /\ VideoUploadZone.removeVideo Sample.videos "v2"
           = (Some (VideoItem.previewUrl item), (before ++ after)%list))
  /\ VideoUploadZone.removeVideo Sample.videos "v7" = (None, Sample.videos).
Proof.
  assert (Hnd : NoDup (map VideoItem.id Sample.videos)).
  { repeat constructor; simpl; intuition discriminate. }
  split; [exact Hnd |]. split.
  - apply (proj1 (removeVideo_takes_out_one Sample.videos "v2" Hnd)).
    simpl. auto.
  - apply (proj2 (removeVideo_takes_out_one Sample.videos "v7" Hnd)).
    simpl. intuition discriminate.
Defined.

(** X2.  Adding one video file and then removing the item made for it
    gives back the list as it was, and revokes the object URL that was
    created for the file, provided the new id is not already in the list. *)
Theorem add_then_remove_restores :
  forall (randomUUID : nat -> string) (createObjectURL : nat -> File.t -> string)
         (videos : list VideoItem.t) (f : File.t) (b : VideoUploadZone.Browser),
    JS.startsWith (File.type f) "video/" = true ->
    ~ In (randomUUID (VideoUploadZone.uuidCalls b)) (map VideoItem.id videos) ->
    exists added,
      fst (VideoUploadZone.handleFiles randomUUID createObjectURL videos (Some [f]) b)
      = Some added
      /\ VideoUploadZone.removeVideo added (randomUUID (VideoUploadZone.uuidCalls b))
         = (Some (createObjectURL (VideoUploadZone.urlCalls b) f), videos).
Proof.
  intros randomUUID createObjectURL videos f b Hvideo Hfresh.
  unfold VideoUploadZone.handleFiles. simpl filter.
  unfold VideoUploadZone.isVideo. rewrite Hvideo. simpl.
  eexists. split; [reflexivity |].
  unfold VideoUploadZone.removeVideo.
  destruct (find_none_filter _ videos (other_ids videos _ Hfresh)) as [Hf Hl].
  rewrite find_app, Hf, filter_app, Hl. simpl.
  rewrite String.eqb_refl. simpl. now rewrite app_nil_r.
Qed.

Lemma add_then_remove_restores_witness :
  exists added,
    fst (VideoUploadZone.handleFiles Sample.randomUUID Sample.createObjectURL
           Sample.videos (Some [Sample.file 4 "video/webm"])
           {| VideoUploadZone.uuidCalls := 3; VideoUploadZone.urlCalls := 3 |})
    = Some added
    /\ VideoUploadZone.removeVideo added "uuid-3"
       = (Some "blob:3/clip4", Sample.videos).
Proof.
  apply (add_then_remove_restores Sample.randomUUID Sample.createObjectURL
           Sample.videos (Sample.file 4 "video/webm")
           {| VideoUploadZone.uuidCalls := 3; VideoUploadZone.urlCalls := 3 |}).
  - reflexivity.
  - simpl. intuition discriminate.
Defined.

(** X3.  If the UUID generator never repeats itself and the ids in the list
    are distinct and were all handed out earlier, then after [handleFiles]
    the ids in the list are again distinct and handed out earlier, and the
    generator and the URL factory have each been called once per accepted
    file. *)
Theorem handleFiles_keeps_ids_distinct :
  forall (randomUUID : nat -> string) (createObjectURL : nat -> File.t -> string)
         (videos : list VideoItem.t) (files : list File.t)
         (b : VideoUploadZone.Browser),
    (forall i j, randomUUID i = randomUUID j -> i = j) ->
    NoDup (map VideoItem.id videos) ->
    Forall (fun v => Props.issued randomUUID (VideoUploadZone.uuidCalls b) (VideoItem.id v))
           videos ->
    exists added b',
      VideoUploadZone.handleFiles randomUUID createObjectURL videos (Some files) b
      = (Some added, b')
      /\ NoDup (map VideoItem.id added)
      /\ Forall (fun v => Props.issued randomUUID (VideoUploadZone.uuidCalls b')
                            (VideoItem.id v)) added
      /\ VideoUploadZone.uuidCalls b'
         = (VideoUploadZone.uuidCalls b
            + List.length (filter VideoUploadZone.isVideo files))%nat
      /\ VideoUploadZone.urlCalls b'
         = (VideoUploadZone.urlCalls b
            + List.length (filter VideoUploadZone.isVideo files))%nat.
Proof.
  intros randomUUID createObjectURL videos files b Hinj Hnd Hold.
  unfold VideoUploadZone.handleFiles.
  set (accepted := filter VideoUploadZone.isVideo files).
  pose proof (newItems_ids randomUUID createObjectURL b accepted) as Hids.
  pose proof (newItems_counters randomUUID createObjectURL b accepted) as Hcnt.
  destruct (VideoUploadZone.newItems randomUUID createObjectURL b accepted)
    as [items b']. simpl in Hids, Hcnt. subst b'.
  exists (videos ++ items)%list. eexists. split; [reflexivity |]. simpl.
  rewrite Forall_forall in Hold.
  split; [| split; [| split; reflexivity]].
  - rewrite map_app, Hids. apply NoDup_app.
    + exact Hnd.
    + apply NoDup_map_NoDup_ForallPairs; [| apply seq_NoDup].
      intros i j _ _. apply Hinj.
    + intros id Hin1 Hin2.
      apply in_map_iff in Hin1 as (v & <- & Hv).
      destruct (Hold v Hv) as (k & Hk & Hidk).
      apply in_map_iff in Hin2 as (j & Hj & Hseq).
      apply in_seq in Hseq. rewrite Hidk in Hj. apply Hinj in Hj. lia.
  - apply Forall_forall. intros v Hv. apply in_app_or in Hv as [Hv | Hv].
    + destruct (Hold v Hv) as (k & Hk & Hidk). exists k. split; [lia | exact Hidk].
    + apply (in_map VideoItem.id) in Hv. rewrite Hids in Hv.
      apply in_map_iff in Hv as (j & Hj & Hseq). apply in_seq in Hseq.
      exists j. split; [lia | now symmetry].
Qed.

(* ====================================================================== *)
(** ** More on the settings panel *)
(* ====================================================================== *)

Section NumberFacts.

Import JS.

Lemma digits_string_of_uint d :
  forall a,
    digits 10 (NilEmpty.string_of_uint d) (Some (Z.of_nat a))
    = Some (Z.of_nat (Nat.of_uint_acc d a)).
Proof.
  induction d; intros a; simpl NilEmpty.string_of_uint; simpl Nat.of_uint_acc;
    [reflexivity | ..];
    rewrite <- IHd; cbn [digits];
    match goal with
    | |- context [digitValue ?c] =>
        let v := eval vm_compute in (digitValue c) in
        change (digitValue c) with v
    end; cbv iota beta;
    match goal with
    | |- context [(?k <? 10)] => change (k <? 10) with true
    end; cbv iota; do 2 f_equal; rewrite Nat.tail_mul_spec; lia.
Qed.

(** The digits of a decimal numeral are read back as the number it
    writes; no numeral starts with [0x]. *)
Lemma unsigned_digits d :
  d <> Decimal.Nil ->
  (let '(R, s2) := stripPrefix (NilEmpty.string_of_uint d) in digits R s2 None)
  = Some (Z.of_nat (Nat.of_uint d)).
Proof.
  intros Hd. unfold Nat.of_uint.
  destruct d as [| d | d | d | d | d | d | d | d | d | d]; [congruence | ..].
  1: destruct d.
  all: cbn [NilEmpty.string_of_uint stripPrefix]; cbn [digits];
    repeat match goal with
    | |- context [digitValue ?c] =>
        let v := eval vm_compute in (digitValue c) in
        change (digitValue c) with v; cbv iota beta
    end;
    repeat match goal with
    | |- context [(?k <? 10)] => change (k <? 10) with true; cbv iota
    end.
  all: try reflexivity.
  all: simpl Nat.of_uint_acc.
  all: match goal with
       | |- digits 10 _ (Some ?z) = Some (Z.of_nat (Nat.of_uint_acc _ ?a)) =>
           change z with (Z.of_nat a); apply digits_string_of_uint
       end.
Qed.

Lemma unsigned_front d :
  d <> Decimal.Nil ->
  trimStart (NilEmpty.string_of_uint d) = NilEmpty.string_of_uint d
  /\ stripSign (NilEmpty.string_of_uint d) = (1, NilEmpty.string_of_uint d).
Proof. intros Hd. destruct d; [congruence | ..]; split; reflexivity. Qed.

Lemma to_uint_nonnil n : Nat.to_uint n <> Decimal.Nil.
Proof.
  intros H. assert (E : n = 0%nat) by (rewrite <- (DecimalNat.Unsigned.of_to n), H; reflexivity).
  subst n. discriminate H.
Qed.

Lemma showNat_numeral n : showNat n = NilEmpty.string_of_uint (Nat.to_uint n).
Proof.
  unfold showNat, NilZero.string_of_uint.
  pose proof (to_uint_nonnil n). destruct (Nat.to_uint n); congruence.
Qed.

(** The digits [String] writes denote the number written. *)
Lemma mathInt_showNat n : mathInt (showNat n) = Some (Z.of_nat n).
Proof.
  rewrite showNat_numeral. unfold mathInt.
  destruct (unsigned_front _ (to_uint_nonnil n)) as [-> ->].
  pose proof (unsigned_digits _ (to_uint_nonnil n)) as H.
  destruct (stripPrefix _) as [R s2]. rewrite H, DecimalNat.Unsigned.of_to. f_equal. lia.
Qed.








Lemma showNat_injective i j : showNat i = showNat j -> i = j.
Proof.
  intros H. apply (f_equal mathInt) in H. rewrite !mathInt_showNat in H.
  injection H. lia.
Qed.

(** Text that does not start with a digit is not a number. *)
Lemma parseInt_no_digit s : Props.startsWithDigit s = false -> parseInt s = None.
Proof.
  unfold Props.startsWithDigit, parseInt, mathInt.
  destruct (stripSign (trimStart s)) as [sign s1]. simpl snd.
  destruct s1 as [| c rest]; [reflexivity |].
  intros H.
  assert (Hp : stripPrefix (String c rest) = (10, String c rest)).
  { unfold stripPrefix.
    destruct (Ascii.eqb_spec c "0") as [-> | Hc]; [discriminate H |].
    destruct c as [[] [] [] [] [] [] [] []]; try reflexivity. now elim Hc. }
  rewrite Hp. cbn [digits]. unfold digitValue.
  set (n := nat_of_ascii c) in *.
  assert (E1 : (48 <=? Z.of_nat n) && (Z.of_nat n <=? 57) = false).
  { apply andb_false_iff in H. apply andb_false_iff.
    destruct H as [H | H]; apply Nat.leb_gt in H; [left | right];
      apply Z.leb_gt; lia. }
  rewrite E1.
  destruct ((97 <=? Z.of_nat n) && (Z.of_nat n <=? 122)) eqn:E2.
  { apply andb_true_iff in E2 as [A _]. apply Z.leb_le in A.
    destruct (Z.ltb_spec (Z.of_nat n - 87) 10); [lia | reflexivity]. }
  destruct ((65 <=? Z.of_nat n) && (Z.of_nat n <=? 90)) eqn:E3; [| reflexivity].
  apply andb_true_iff in E3 as [A _]. apply Z.leb_le in A.
  destruct (Z.ltb_spec (Z.of_nat n - 55) 10); [lia | reflexivity].
Qed.

End NumberFacts.



(** What X4 leaves out: an integer that is no double is stored as the
    double next to it, and from [10 ^ 21] on the field shows no plain
    digits. *)
Example integer_fields_round :
  JS.toNumber 9007199254740993 = JS.Int 9007199254740992
  /\ JS.showInt 9007199254740993 = Some "9007199254740993"
  /\ ProjectSettings.fps
       (SettingsPanel.onChange_fps App.DEFAULT_SETTINGS "9007199254740993")
     = JS.Int 9007199254740992
  /\ JS.toNumber (10 ^ 21) = JS.Int (10 ^ 21)
  /\ JS.showInt (10 ^ 21) = None
  /\ ProjectSettings.fps (SettingsPanel.onChange_fps App.DEFAULT_SETTINGS "1e+21")
     = JS.Int 1.
Proof. vm_compute. repeat split. Qed.

(** X5.  Text that, after leading white space and an optional sign, does
    not start with a decimal digit (the empty field included) stores the
    defaults: 1 beat per cut, width 1080, height 1920, 30 frames per
    second. *)
Theorem integer_fields_fall_back :
  forall (settings : ProjectSettings.t) (value : string),
    Props.startsWithDigit value = false ->
    ProjectSettings.beatsPerCut (SettingsPanel.onChange_beatsPerCut settings value)
    = JS.Int 1
    /\ ProjectSettings.videoWidth (SettingsPanel.onChange_videoWidth settings value)
       = JS.Int 1080
    /\ ProjectSettings.videoHeight (SettingsPanel.onChange_videoHeight settings value)
       = JS.Int 1920
    /\ ProjectSettings.fps (SettingsPanel.onChange_fps settings value) = JS.Int 30.
Proof.
  intros settings value H. simpl. rewrite (parseInt_no_digit value H). auto.
Qed.

Lemma integer_fields_fall_back_witness :
  Props.startsWithDigit "  -px" = false
  /\ ProjectSettings.videoHeight
       (SettingsPanel.onChange_videoHeight App.DEFAULT_SETTINGS "  -px") = JS.Int 1920
  /\ ProjectSettings.fps (SettingsPanel.onChange_fps App.DEFAULT_SETTINGS "") = JS.Int 30.
Proof.
  split; [reflexivity |]. split.
  - exact (proj1 (proj2 (proj2 (integer_fields_fall_back App.DEFAULT_SETTINGS "  -px" eq_refl)))).
  - exact (proj2 (proj2 (proj2 (integer_fields_fall_back App.DEFAULT_SETTINGS "" eq_refl)))).
Defined.

(** White space of any script is passed over before the digit is looked
    for: after a no-break space (U+00A0) or a line separator (U+2028) the
    text [5] is a number and is stored, and the text [px] is not. *)
Example startsWithDigit_samples :
  let nbsp := String (ascii_of_nat 194) (String (ascii_of_nat 160) EmptyString) in
  let ls := String (ascii_of_nat 226) (String (ascii_of_nat 128)
              (String (ascii_of_nat 168) EmptyString)) in
  Props.startsWithDigit (nbsp ++ "5") = true
  /\ ProjectSettings.fps (SettingsPanel.onChange_fps App.DEFAULT_SETTINGS (nbsp ++ "5"))
     = JS.Int 5
  /\ ProjectSettings.fps (SettingsPanel.onChange_fps App.DEFAULT_SETTINGS (ls ++ "5"))
     = JS.Int 5
  /\ Props.startsWithDigit (ls ++ nbsp ++ "px") = false.
Proof. vm_compute. repeat split. Qed.

Lemma sample_randomUUID_injective i j :
  Sample.randomUUID i = Sample.randomUUID j -> i = j.
Proof.
  unfold Sample.randomUUID. simpl. intros H. injection H as H.
  now apply showNat_injective.
Qed.

Lemma handleFiles_keeps_ids_distinct_witness :
  let ids := map Sample.randomUUID [0; 1]%nat in
  let videos := map (fun id => {| VideoItem.id := id;
                                  VideoItem.file := Sample.file 1 "video/mp4";
                                  VideoItem.name := "clip1"; VideoItem.size := 1000;
                                  VideoItem.thumbnailUrl := "blob:x";
                                  VideoItem.previewUrl := "blob:x";
                                  VideoItem.duration := None |}) ids in
  exists added b',
    VideoUploadZone.handleFiles Sample.randomUUID Sample.createObjectURL videos
      (Some [Sample.file 2 "video/mp4"; Sample.file 3 "audio/wav";
             Sample.file 4 "video/webm"])
      {| VideoUploadZone.uuidCalls := 2; VideoUploadZone.urlCalls := 2 |}
    = (Some added, b')
    /\ NoDup (map VideoItem.id added)
    /\ VideoUploadZone.uuidCalls b' = 4%nat.
Proof.
  intros ids videos.
  destruct (handleFiles_keeps_ids_distinct Sample.randomUUID Sample.createObjectURL
              videos
              [Sample.file 2 "video/mp4"; Sample.file 3 "audio/wav";
               Sample.file 4 "video/webm"]
              {| VideoUploadZone.uuidCalls := 2; VideoUploadZone.urlCalls := 2 |}
              sample_randomUUID_injective)
    as (added & b' & H1 & H2 & _ & H4 & _).
  - repeat constructor; simpl; intuition discriminate.
  - apply Forall_cons; [exists 0%nat; split; [simpl; lia | reflexivity] |].
    apply Forall_cons; [exists 1%nat; split; [simpl; lia | reflexivity] |].
    apply Forall_nil.
  - exists added, b'. auto.
Defined.

(* ====================================================================== *)
(** ** More on drag reordering *)
(* ====================================================================== *)

Section DragFacts.

Import Props VideoUploadZone.

(** With both ids in the list, [handleDragEnd] takes the first item of the
    dragged id out and puts it in where the first item of the target id
    was. *)
Lemma handleDragEnd_inside videos a b :
  a <> b ->
  In a (map VideoItem.id videos) -> In b (map VideoItem.id videos) ->
  exists item,
    let ia := Z.to_nat (JS.findIndex (fun v => String.eqb (VideoItem.id v) a) videos) in
    let ib := Z.to_nat (JS.findIndex (fun v => String.eqb (VideoItem.id v) b) videos) in
    find (fun v => String.eqb (VideoItem.id v) a) videos = Some item
    /\ nth_error videos ia = Some item
    /\ VideoItem.id item = a
    /\ (ib < List.length videos)%nat
    /\ handleDragEnd videos {| active := a; over := Some b |}
       = Some (map Some (insertAt ib item (removeAt ia videos))).
Proof.
  intros Hab Ha Hb.
  assert (Hfa : exists v, In v videos /\ String.eqb (VideoItem.id v) a = true).
  { apply in_map_iff in Ha as (v & <- & Hv). exists v. now rewrite String.eqb_refl. }
  assert (Hfb : exists v, In v videos /\ String.eqb (VideoItem.id v) b = true).
  { apply in_map_iff in Hb as (v & <- & Hv). exists v. now rewrite String.eqb_refl. }
  destruct (findIndex_found _ videos Hfa) as (item & Ha0 & Hna & Hpa & Hfinda & _).
  destruct (findIndex_found _ videos Hfb) as (target & Hb0 & Hnb & _ & _ & _).
  assert (Hlb : (Z.to_nat (JS.findIndex (fun v => String.eqb (VideoItem.id v) b) videos)
                 < List.length videos)%nat) by (apply nth_error_Some; congruence).
  exists item. cbv zeta. repeat split; try assumption.
  - now apply String.eqb_eq.
  - unfold handleDragEnd. simpl.
    apply String.eqb_neq in Hab. rewrite Hab. simpl. f_equal.
    apply arrayMove_inside; try assumption. lia.
Qed.

End DragFacts.

(** X6.  Dragging the item with id [a] onto the item with id [b], both in
    the list: the list keeps its length, and the dragged item ends up at
    the index the target had. *)
Theorem handleDragEnd_lands_on_target :
  forall (videos : list VideoItem.t) (a b : string),
    a <> b ->
    In a (map VideoItem.id videos) ->
    In b (map VideoItem.id videos) ->
    exists reordered item,
      VideoUploadZone.handleDragEnd videos
        {| VideoUploadZone.active := a; VideoUploadZone.over := Some b |}
      = Some (map Some reordered)
      /\ List.length reordered = List.length videos
      /\ find (fun v => String.eqb (VideoItem.id v) a) videos = Some item
      /\ nth_error reordered
           (Z.to_nat (JS.findIndex (fun v => String.eqb (VideoItem.id v) b) videos))
         = Some item.
Proof.
  intros videos a b Hab Ha Hb.
  destruct (handleDragEnd_inside videos a b Hab Ha Hb)
    as (item & Hfind & Hnth & _ & Hlb & Heq).
  cbv zeta in *.
  assert (Hla : (Z.to_nat (JS.findIndex (fun v => String.eqb (VideoItem.id v) a) videos)
                 < List.length videos)%nat) by (apply nth_error_Some; congruence).
  pose proof (length_removeAt _ videos Hla) as Hlen.
  eexists _, item. split; [exact Heq |]. split; [| split; [exact Hfind |]].
  - rewrite length_insertAt. exact Hlen.
  - apply nth_error_insertAt. lia.
Qed.

Lemma handleDragEnd_lands_on_target_witness :
  exists reordered item,
    VideoUploadZone.handleDragEnd Sample.videos
      {| VideoUploadZone.active := "v3"; VideoUploadZone.over := Some "v1" |}
    = Some (map Some reordered)
    /\ List.length reordered = 3%nat
    /\ find (fun v => String.eqb (VideoItem.id v) "v3") Sample.videos = Some item
    /\ nth_error reordered 0 = Some item.
Proof.
  apply (handleDragEnd_lands_on_target Sample.videos "v3" "v1").
  - discriminate.
  - simpl. auto.
  - simpl. auto.
Defined.

(** X7.  Dragging moves nothing but the dragged item: with the items of
    the dragged id left out, the list reads the same before and after. *)
Theorem handleDragEnd_keeps_the_others :
  forall (videos : list VideoItem.t) (a b : string),
    a <> b ->
    In a (map VideoItem.id videos) ->
    In b (map VideoItem.id videos) ->
    exists reordered,
      VideoUploadZone.handleDragEnd videos
        {| VideoUploadZone.active := a; VideoUploadZone.over := Some b |}
      = Some (map Some reordered)
      /\ filter (fun v => negb (String.eqb (VideoItem.id v) a)) reordered
         = filter (fun v => negb (String.eqb (VideoItem.id v) a)) videos.
Proof.
  intros videos a b Hab Ha Hb.
  destruct (handleDragEnd_inside videos a b Hab Ha Hb)
    as (item & _ & Hnth & Hid & _ & Heq).
  cbv zeta in *. eexists. split; [exact Heq |]. clear Heq.
  assert (Hdrop : negb (String.eqb (VideoItem.id item) a) = false)
    by (rewrite Hid, String.eqb_refl; reflexivity).
  set (ia := Z.to_nat (JS.findIndex (fun v => String.eqb (VideoItem.id v) a) videos)) in *.
  set (ib := Z.to_nat (JS.findIndex (fun v => String.eqb (VideoItem.id v) b) videos)) in *.
  clearbody ia ib. clear Ha Hb.
  apply nth_error_split in Hnth as (l1 & l2 & -> & <-).
  rewrite removeAt_app. unfold Props.insertAt.
  rewrite filter_app. simpl. rewrite Hdrop, <- filter_app, firstn_skipn.
  rewrite !filter_app. simpl. now rewrite Hdrop.
Qed.

Lemma handleDragEnd_keeps_the_others_witness :
  exists reordered,
    VideoUploadZone.handleDragEnd Sample.videos
      {| VideoUploadZone.active := "v1"; VideoUploadZone.over := Some "v3" |}
    = Some (map Some reordered)
    /\ filter (fun v => negb (String.eqb (VideoItem.id v) "v1")) reordered
       = [Sample.video 2; Sample.video 3].
Proof.
  apply (handleDragEnd_keeps_the_others Sample.videos "v1" "v3").
  - discriminate.
  - simpl. auto.
  - simpl. auto.
Defined.

(** X8.  Moving an element from one index to another and then back gives
    the array as it was, for indices inside the array. *)
Theorem arrayMove_back_restores :
  forall (A : Type) (array : list A) (from to : Z),
    0 <= from < Z.of_nat (List.length array) ->
    0 <= to < Z.of_nat (List.length array) ->
    exists moved,
      VideoUploadZone.arrayMove array from to = map Some moved
      /\ VideoUploadZone.arrayMove moved to from = map Some array.
Proof.
  intros A array from to Hfrom Hto.
  destruct (nth_error array (Z.to_nat from)) as [x |] eqn:Hx.
  2:{ apply nth_error_None in Hx. lia. }
  assert (Hlt : (Z.to_nat from < List.length array)%nat) by lia.
  pose proof (length_removeAt _ array Hlt) as Hlen.
  exists (Props.insertAt (Z.to_nat to) x (Props.removeAt (Z.to_nat from) array)).
  split.
  - apply arrayMove_inside; [lia | exact Hx | exact Hto].
  - rewrite (arrayMove_inside _ to from x).
    + rewrite removeAt_insertAt by lia.
      now rewrite (insertAt_removeAt _ x array Hx).
    + lia.
    + apply nth_error_insertAt. lia.
    + rewrite length_insertAt. lia.
Qed.

Lemma arrayMove_back_restores_witness :
  0 <= 0 < Z.of_nat (List.length Sample.videos)
  /\ 0 <= 2 < Z.of_nat (List.length Sample.videos)
  /\ exists moved,
       VideoUploadZone.arrayMove Sample.videos 0 2 = map Some moved
       /\ VideoUploadZone.arrayMove moved 2 0 = map Some Sample.videos.
Proof.
  assert (H1 : 0 <= 0 < Z.of_nat (List.length Sample.videos)) by (simpl; lia).
  assert (H2 : 0 <= 2 < Z.of_nat (List.length Sample.videos)) by (simpl; lia).
  split; [exact H1 |]. split; [exact H2 |].
  exact (arrayMove_back_restores _ Sample.videos 0 2 H1 H2).
Defined.

(* ====================================================================== *)
(** ** More on a run *)
(* ====================================================================== *)

Section RunInvariants.

Import Api App Props.

Variable clock : nat -> string.

Lemma length_setSource n es l : List.length (setSource n es l) = List.length l.
Proof.
  revert n. induction l as [| y rest IH]; intros [| n]; simpl; auto.
Qed.

(** What [dispatch] calls back with comes from the item. *)
Lemma dispatch_event es item es' d :
  dispatch es item = (es', Some (OnEvent d)) -> item = Message (Some d).
Proof.
  unfold dispatch, onmessage, onerror.
  destruct (closed es); [discriminate |].
  destruct item as [[d0 |] |]; try discriminate.
  destruct (String.eqb (stage d0) "end"); [discriminate |].
  destruct (String.eqb (stage d0) "error"); [discriminate |].
  now intros [= _ ->].
Qed.

(** A property of the world that the three callbacks keep, and that does
    not depend on the connections, holds after listening if it held
    before. *)
Lemma listen_preserves (P : World -> Prop) (Q : ProgressEvent -> Prop) :
  (forall n es w, P w -> P (replaceSource n es w)) ->
  (forall e l w, Q e -> P w -> P (snd (onEvent clock e (l, w)))) ->
  (forall l w, P w -> P (snd (onDone clock (l, w)))) ->
  (forall m l w, P w -> P (snd (onError clock m (l, w)))) ->
  forall items l w,
    Forall Q (parsed items) -> P w -> P (snd (listen clock items (l, w))).
Proof.
  intros Hsrc Hev Hdone Herr.
  assert (Hstep : forall item l w,
             Forall Q (parsed [item]) -> P w -> P (snd (deliver clock item (l, w)))).
  { intros item l w HQ HP. unfold deliver.
    destruct (nth_error (sources w) (source l)) as [es |]; [| exact HP].
    destruct (dispatch es item) as [es' [c |]] eqn:Hd; [| now apply Hsrc].
    destruct c as [d | | m]; cbn [call].
    - apply dispatch_event in Hd. subst item. simpl in HQ. inversion HQ; subst.
      apply Hev; [assumption | now apply Hsrc].
    - apply Hdone. now apply Hsrc.
    - apply Herr. now apply Hsrc. }
  unfold listen.
  induction items as [| item rest IH]; intros l w HQ HP; [exact HP |].
  cbn [fold_left].
  assert (HQ1 : Forall Q (parsed [item]) /\ Forall Q (parsed rest)).
  { destruct item as [[d |] |]; simpl in *; [inversion HQ; subst |..]; auto. }
  pose proof (Hstep item l w (proj1 HQ1) HP) as Hnext.
  destruct (deliver clock item (l, w)) as [l1 w1].
  apply IH; [exact (proj2 HQ1) | exact Hnext].
Qed.

(** A closed connection delivers nothing. *)
Lemma listen_closed items l w es :
  nth_error (sources w) (source l) = Some es -> closed es = true ->
  listen clock items (l, w) = (l, w).
Proof.
  intros Hes Hc. rewrite (listen_pump clock items l w es Hes).
  rewrite (pump_closed es items Hc). simpl.
  now rewrite (replaceSource_same _ _ _ Hes).
Qed.

Lemma stageWeights_range s lo hi :
  stageWeights s = Range lo hi -> 0 <= lo /\ lo <= hi /\ hi <= 100.
Proof.
  unfold stageWeights.
  repeat match goal with
         | |- context [if ?b then _ else _] => destruct b
         end; intros [= <- <-] || discriminate; lia.
Qed.

Lemma updateStageIn_Forall (P : ProcessStage.t -> Prop) x st p l :
  (forall s, P s ->
             P {| ProcessStage.id := ProcessStage.id s;
                  ProcessStage.label := ProcessStage.label s;
                  ProcessStage.progress := p; ProcessStage.status := st |}) ->
  Forall P l -> Forall P (updateStageIn x st p l).
Proof.
  intros Hp H. unfold updateStageIn. apply Forall_map.
  eapply Forall_impl; [| exact H].
  intros s Hs. destruct (String.eqb _ _); auto.
Qed.

Lemma updateStageIn_labels x st p l :
  map ProcessStage.label (updateStageIn x st p l) = map ProcessStage.label l.
Proof.
  unfold updateStageIn. rewrite map_map. apply map_ext.
  intros s. destruct (String.eqb _ _); reflexivity.
Qed.

End RunInvariants.

(** X9.  Starting a new run makes the stream of the previous one harmless:
    once [handleGenerate] has passed validation, whatever still arrives for
    the previous listener changes nothing. *)
Theorem previous_stream_is_ignored :
  forall (clock : nat -> string) (w : App.World) (l : App.Listener)
         (es : Api.EventSource) (items : list Api.SseItem),
    App.videos (App.ui w) <> [] ->
    App.audio (App.ui w) <> None ->
    App.unsubRef w = Some (App.source l) ->
    nth_error (App.sources w) (App.source l) = Some es ->
    let w' := fst (App.handleGenerate clock w) in
    App.listen clock items (l, w') = (l, w').
Proof.
  intros clock w l es items Hv Ha Hu Hes w'.
  apply (listen_closed clock items l w' (Api.close es)); [| reflexivity].
  subst w'. unfold App.handleGenerate.
  destruct (Nat.eqb (List.length (App.videos (App.ui w))) 0) eqn:E.
  { apply length_zero_nil in E. contradiction. }
  destruct (App.audio (App.ui w)) as [a |]; [| contradiction].
  unfold App.beginUpload, App.closePrevious. rewrite Hu, Hes. simpl.
  apply (nth_error_setSource_eq _ _ _ _ Hes).
Qed.

Lemma previous_stream_is_ignored_witness :
  let stale := {| App.taskId := "old-task"; App.source := 0; App.lastStage := "ffmpeg" |} in
  let w' := fst (App.handleGenerate Sample.clock Sample.finishedOnce) in
  App.listen Sample.clock
    [Api.Message (Some (Sample.event "finalize" 90));
     Api.Message (Some (Sample.event "end" 100))] (stale, w')
  = (stale, w').
Proof.
  intros stale w'.
  apply (previous_stream_is_ignored Sample.clock Sample.finishedOnce stale
           (Api.subscribeProgress "old-task")); try discriminate; reflexivity.
Defined.

Section ProgressFacts.

Import Api App Props.

Variable clock : nat -> string.

Lemma onEvent_overall_cases e l w :
  overallProgress (ui (snd (onEvent clock e (l, w)))) =
  if String.eqb (Api.stage e) "done" then overallProgress (ui w)
  else match stageWeights (Api.stage e) with
       | Range lo hi => overall lo hi (percent e)
       | _ => overallProgress (ui w)
       end.
Proof.
  unfold onEvent.
  destruct (negb _ && negb _); destruct (String.eqb (Api.stage e) "done");
    try reflexivity; destruct (stageWeights _); reflexivity.
Qed.

Lemma onEvent_logs e l w :
  exists added,
    logs (ui (snd (onEvent clock e (l, w)))) = (logs (ui w) ++ added)%list
    /\ dateCalls (snd (onEvent clock e (l, w))) = (dateCalls w + List.length added)%nat
    /\ map LogEntry.timestamp added = map clock (seq (dateCalls w) (List.length added)).
Proof.
  unfold onEvent.
  destruct (negb _ && negb _); destruct (String.eqb (Api.stage e) "done");
    try (exists []; simpl; rewrite app_nil_r, Nat.add_0_r; now auto);
    destruct (stageWeights _);
    try (exists []; simpl; rewrite app_nil_r, Nat.add_0_r; now auto);
    (eexists [_]; simpl; rewrite Nat.add_1_r; now auto).
Qed.

End ProgressFacts.

Section BoundsFacts.

Import Api App Props.

Variable clock : nat -> string.

Lemma percentage_100 : percentage 100.
Proof. split; discriminate. Qed.

Lemma onEvent_inRange e l w :
  percentage (percent e) -> inRange w -> inRange (snd (onEvent clock e (l, w))).
Proof.
  intros He [Ho Hs]. split.
  - rewrite onEvent_overall_cases.
    destruct (String.eqb (Api.stage e) "done"); [exact Ho |].
    destruct (stageWeights (Api.stage e)) as [lo hi | |] eqn:W; try exact Ho.
    destruct (stageWeights_range _ _ _ W) as (H0 & Hlh & H100).
    destruct He as [Hp0 Hp100].
    pose proof (overall_lower lo hi (percent e) Hlh Hp0).
    pose proof (overall_upper lo hi (percent e) Hlh Hp100). lia.
  - change (stages (ui (snd (onEvent clock e (l, w)))))
      with (stagesOf (onEvent clock e (l, w))).
    rewrite onEvent_stages. cbv zeta.
    assert (H1 : Forall (fun s => percentage (ProcessStage.progress s))
                   (if negb (String.eqb (Api.stage e) (lastStage l))
                       && negb (String.eqb (lastStage l) "")
                    then updateStageIn (lastStage l) StageStatus.completed 100 (stages (ui w))
                    else stages (ui w))).
    { destruct (negb _ && negb _); [| exact Hs].
      apply updateStageIn_Forall; [intros; apply percentage_100 | exact Hs]. }
    destruct (String.eqb (Api.stage e) "done"); [exact H1 |].
    apply updateStageIn_Forall; [intros; exact He | exact H1].
Qed.

Lemma grownFrom_refl w : grownFrom clock w w.
Proof. exists []. simpl. now rewrite app_nil_r, Nat.add_0_r. Qed.

Lemma grownFrom_step w0 w w' :
  grownFrom clock w0 w -> grownFrom clock w w' -> grownFrom clock w0 w'.
Proof.
  intros (a1 & L1 & D1 & T1) (a2 & L2 & D2 & T2).
  exists (a1 ++ a2)%list. rewrite L2, L1, D2, D1, length_app, app_assoc.
  repeat split; [lia |].
  rewrite map_app, seq_app, map_app, T1, T2, D1. reflexivity.
Qed.

Lemma addLog_grownFrom message type w : grownFrom clock w (addLog clock message type w).
Proof. eexists [_]. simpl. rewrite Nat.add_1_r. auto. Qed.

End BoundsFacts.

(** X10.  While a stream is listened to, the overall progress and the
    progress of every stage stay between 0 and 100, as long as the
    percentages the server sends are between 0 and 100. *)
Theorem progress_stays_in_range :
  forall (clock : nat -> string) (items : list Api.SseItem)
         (l : App.Listener) (w : App.World),
    Forall (fun e => Props.percentage (Api.percent e)) (Props.parsed items) ->
    Props.inRange w ->
    Props.inRange (snd (App.listen clock items (l, w))).
Proof.
  intros clock items l w Hitems Hw.
  apply (listen_preserves clock Props.inRange
           (fun e => Props.percentage (Api.percent e))); try assumption.
  - intros n es w0 H. exact H.
  - intros e l0 w0. apply onEvent_inRange.
  - intros l0 w0 [_ Hs]. split; [simpl; lia |].
    simpl. unfold App.completeAll. apply Forall_map.
    eapply Forall_impl; [| exact Hs]. intros s _. apply percentage_100.
  - intros m l0 w0 H. exact H.
Qed.

Lemma progress_stays_in_range_witness :
  let items := [Api.Message (Some (Sample.event "whisper" (199 # 2)));
                Api.Message (Some (Sample.event "toString" 100));
                Api.Message (Some (Sample.event "beat" 0));
                Api.Message (Some (Sample.event "end" 100))] in
  Props.inRange (snd Sample.listening)
  /\ Props.inRange (snd (App.listen Sample.clock items Sample.listening)).
Proof.
  intros items.
  assert (Hw : Props.inRange (snd Sample.listening)).
  { split; [vm_compute; split; discriminate |].
    repeat (apply Forall_cons; [split; vm_compute; discriminate |]). apply Forall_nil. }
  split; [exact Hw |].
  apply (progress_stays_in_range Sample.clock items
           (fst Sample.listening) (snd Sample.listening)); [| exact Hw].
  repeat (apply Forall_cons; [split; vm_compute; discriminate |]). apply Forall_nil.
Defined.

(** X11.  While a stream is listened to the log only grows: the lines that
    were there stay, in order, and each added line carries the next
    reading of the clock. *)
Theorem log_only_grows :
  forall (clock : nat -> string) (items : list Api.SseItem)
         (l : App.Listener) (w : App.World),
    Props.grownFrom clock w (snd (App.listen clock items (l, w))).
Proof.
  intros clock items l w.
  apply (listen_preserves clock (Props.grownFrom clock w) (fun _ => True)).
  - intros n es w0 H. exact H.
  - intros e l0 w0 _ H. apply (grownFrom_step clock w w0); [exact H |].
    destruct (onEvent_logs clock e l0 w0) as (added & H1 & H2 & H3).
    exists added. auto.
  - intros l0 w0 H. apply (grownFrom_step clock w w0); [exact H |].
    eexists [_]. simpl. rewrite Nat.add_1_r. auto.
  - intros m l0 w0 H. apply (grownFrom_step clock w w0); [exact H |].
    eexists [_]. simpl. rewrite Nat.add_1_r. auto.
  - clear. induction (Props.parsed items); constructor; auto.
  - apply grownFrom_refl.
Qed.

Section NameFacts.

Import Api App Props.

Variable clock : nat -> string.

Lemma names_updateStageIn x st p l : names (updateStageIn x st p l) = names l.
Proof.
  unfold names, updateStageIn. rewrite map_map. apply map_ext.
  intros s. destruct (String.eqb _ _); reflexivity.
Qed.

Lemma names_completeAll l : names (completeAll l) = names l.
Proof. unfold names, completeAll. rewrite map_map. reflexivity. Qed.

Lemma onEvent_names e l w :
  names (stages (ui (snd (onEvent clock e (l, w))))) = names (stages (ui w)).
Proof.
  change (stages (ui (snd (onEvent clock e (l, w)))))
    with (stagesOf (onEvent clock e (l, w))).
  rewrite onEvent_stages. cbv zeta.
  destruct (negb _ && negb _); destruct (String.eqb (Api.stage e) "done");
    rewrite ?names_updateStageIn; reflexivity.
Qed.

Lemma listen_names items l w :
  names (stages (ui (snd (listen clock items (l, w))))) = names (stages (ui w)).
Proof.
  apply (listen_preserves clock
           (fun w' => names (stages (ui w')) = names (stages (ui w)))
           (fun _ => True)); try reflexivity.
  - intros n es w0 H. exact H.
  - intros e l0 w0 _ H. now rewrite onEvent_names.
  - intros l0 w0 H. simpl. now rewrite names_completeAll.
  - intros m l0 w0 H. exact H.
  - induction (parsed items); constructor; auto.
Qed.

(** The state in which a validated [handleGenerate] waits for the upload. *)
Lemma handleGenerate_waiting w :
  videos (ui w) <> [] -> audio (ui w) <> None ->
  exists videoFiles audioFile subtitleFile,
    snd (handleGenerate clock w)
    = AwaitUpload videoFiles audioFile subtitleFile (settings (ui w))
    /\ stages (ui (fst (handleGenerate clock w)))
       = updateStageIn "upload" StageStatus.running 0 INITIAL_STAGES
    /\ logs (ui (fst (handleGenerate clock w)))
       = [ {| LogEntry.timestamp := clock (dateCalls w);
              LogEntry.message := "正在上传素材到后端服务器...";
              LogEntry.type := LogType.info |} ]
    /\ overallProgress (ui (fst (handleGenerate clock w))) = 0
    /\ downloadUrl (ui (fst (handleGenerate clock w))) = None
    /\ processStatus (ui (fst (handleGenerate clock w))) = ProcessStatus.processing
    /\ unsubRef (fst (handleGenerate clock w)) = None
    /\ List.length (sources (fst (handleGenerate clock w))) = List.length (sources w)
    /\ dateCalls (fst (handleGenerate clock w)) = S (dateCalls w).
Proof.
  intros Hv Ha. unfold handleGenerate.
  destruct (Nat.eqb (List.length (videos (ui w))) 0) eqn:E.
  - apply length_zero_nil in E. contradiction.
  - destruct (audio (ui w)) as [a |]; [| contradiction].
    unfold beginUpload, closePrevious. simpl.
    destruct (unsubRef w) as [n |] eqn:Hu; simpl.
    + destruct (nth_error (sources w) n); simpl;
        rewrite ?length_setSource; eauto 12.
    + rewrite Hu. eauto 12.
Qed.

Lemma generateSettled_stages r w :
  stages (ui (fst (generateSettled clock r w))) = stages (ui w).
Proof. destruct r; reflexivity. Qed.

Lemma uploadSettled_stages captured uploadResult w :
  stages (ui (fst (uploadSettled clock captured (Resolved uploadResult) w)))
  = updateStageIn "upload" StageStatus.completed 100 (stages (ui w)).
Proof. reflexivity. Qed.

End NameFacts.

(** X12.  Whatever happens in a run that passed validation (a request
    fails, the stream ends or goes on), the stage list still holds the five
    stages with their ids and labels, in order. *)
Theorem stage_list_keeps_its_names :
  forall (clock : nat -> string) (script : App.Script) (w : App.World),
    App.videos (App.ui w) <> [] ->
    App.audio (App.ui w) <> None ->
    Props.names (App.stages (App.ui (App.run clock script w)))
    = Props.names App.INITIAL_STAGES.
Proof.
  intros clock script w Hv Ha. unfold App.run.
  destruct (handleGenerate_waiting clock w Hv Ha)
    as (vf & af & sf & Hsusp & Hst & _).
  destruct (App.handleGenerate clock w) as [w0 susp]. cbn [fst snd] in Hsusp, Hst.
  subst susp.
  assert (H0 : Props.names (App.stages (App.ui w0)) = Props.names App.INITIAL_STAGES)
    by (rewrite Hst; apply names_updateStageIn).
  destruct script as [err | uploadResult err | uploadResult tid items]; unfold App.resume.
  - exact H0.
  - simpl. rewrite names_updateStageIn. exact H0.
  - pose proof (generateSettled_stages clock (App.Resolved tid)
                  (fst (App.uploadSettled clock (App.settings (App.ui w))
                          (App.Resolved uploadResult) w0))) as Hg.
    destruct (generateSettled_resolved clock tid
                (fst (App.uploadSettled clock (App.settings (App.ui w))
                        (App.Resolved uploadResult) w0)))
      as (l & w2 & Heq & _).
    rewrite Heq in Hg |- *. cbn [fst] in Hg.
    rewrite listen_names, Hg, uploadSettled_stages, names_updateStageIn. exact H0.
Qed.

Lemma stage_list_keeps_its_names_witness :
  App.videos (App.ui Sample.finishedOnce) <> []
  /\ App.audio (App.ui Sample.finishedOnce) <> None
  /\ Props.names
       (App.stages
          (App.ui (App.run Sample.clock
                     (App.Streams Sample.uploaded "task-0001-abcd"
                        [Api.Message (Some (Sample.event "upload" 5));
                         Api.Message (Some (Sample.event "mystery" 50));
                         Api.ConnectionError])
                     Sample.finishedOnce)))
     = Props.names App.INITIAL_STAGES.
Proof.
  assert (Hv : App.videos (App.ui Sample.finishedOnce) <> []) by discriminate.
  assert (Ha : App.audio (App.ui Sample.finishedOnce) <> None) by discriminate.
  split; [exact Hv |]. split; [exact Ha |].
  exact (stage_list_keeps_its_names Sample.clock _ Sample.finishedOnce Hv Ha).
Defined.

(** X13.  An [end] event arriving on an open connection completes the run:
    the connection is closed, every stage is completed at 100 percent, the
    overall progress is 100, the status is [completed], the download URL is
    the one of the listener's task, the log ends with the completion line,
    and whatever the stream carries afterwards changes nothing. *)
Theorem end_event_completes_the_run :
  forall (clock : nat -> string) (l : App.Listener) (w : App.World)
         (es : Api.EventSource) (pre post : list Api.SseItem) (d : Api.ProgressEvent),
    nth_error (App.sources w) (App.source l) = Some es ->
    Api.closed es = false ->
    existsb Props.terminal pre = false ->
    Api.stage d = "end" ->
    let final := App.listen clock (pre ++ Api.Message (Some d) :: post)%list (l, w) in
    nth_error (App.sources (snd final)) (App.source l) = Some (Api.close es)
    /\ Forall Props.finished (App.stages (App.ui (snd final)))
    /\ App.overallProgress (App.ui (snd final)) = 100
    /\ App.processStatus (App.ui (snd final)) = ProcessStatus.completed
    /\ App.downloadUrl (App.ui (snd final)) = Some (Api.getDownloadUrl (App.taskId l))
    /\ (exists before timestamp,
          App.logs (App.ui (snd final))
          = (before ++ [ {| LogEntry.timestamp := timestamp;
                            LogEntry.message := "===== 全部处理完成 =====";
                            LogEntry.type := LogType.success |} ])%list)
    /\ final = App.listen clock (pre ++ [Api.Message (Some d)])%list (l, w).
Proof.
  intros clock l w es pre post d Hes Hopen Hpre Hd final.
  assert (Ht : Props.terminal (Api.Message (Some d)) = true)
    by (simpl; rewrite Hd; reflexivity).
  assert (Hcb : snd (Api.dispatch es (Api.Message (Some d))) = Some Api.OnDone).
  { unfold Api.dispatch, Api.onmessage. rewrite Hopen, Hd. reflexivity. }
  assert (Hfinal : forall post',
             App.listen clock (pre ++ Api.Message (Some d) :: post')%list (l, w)
             = (fst (Props.calls clock (map Api.OnEvent (Props.parsed pre) ++ [Api.OnDone])
                       (l, w)),
                App.replaceSource (App.source l) (Api.close es)
                  (snd (Props.calls clock
                          (map Api.OnEvent (Props.parsed pre) ++ [Api.OnDone]) (l, w))))).
  { intros post'. rewrite (listen_pump clock _ l w es Hes).
    rewrite (pump_terminal es pre _ post' Hopen Hpre Ht), Hcb. reflexivity. }
  subst final. rewrite (Hfinal post), (Hfinal []).
  rewrite calls_app, calls_events.
  destruct (calls_source clock (map Api.OnEvent (Props.parsed pre)) l w) as (_ & Htask & Hsrc).
  rewrite calls_events in Hsrc, Htask.
  destruct (Props.handled clock (Props.parsed pre) (l, w)) as [l1 w1].
  simpl in Hsrc, Htask. simpl.
  split; [rewrite Hsrc; apply (nth_error_setSource_eq _ _ _ _ Hes) |].
  split.
  { unfold App.completeAll. apply Forall_map. apply Forall_forall.
    intros s _. split; reflexivity. }
  repeat split.
  - now rewrite Htask.
  - eexists _, _. reflexivity.
Qed.

Lemma end_event_completes_the_run_witness :
  let final := App.listen Sample.clock
                 [Api.Message (Some (Sample.event "ffmpeg" 80));
                  Api.Message (Some (Sample.event "end" 100));
                  Api.Message (Some (Sample.event "error" 0))]
                 Sample.listening in
  Forall Props.finished (App.stages (App.ui (snd final)))
  /\ App.overallProgress (App.ui (snd final)) = 100
  /\ App.processStatus (App.ui (snd final)) = ProcessStatus.completed.
Proof.
  intros final.
  pose proof (end_event_completes_the_run Sample.clock
                (fst Sample.listening) (snd Sample.listening)
                (Api.subscribeProgress "task-0001-abcd")
                [Api.Message (Some (Sample.event "ffmpeg" 80))]
                [Api.Message (Some (Sample.event "error" 0))]
                (Sample.event "end" 100)
                eq_refl eq_refl eq_refl eq_refl) as H.
  split; [exact (proj1 (proj2 H)) |]. split.
  - exact (proj1 (proj2 (proj2 H))).
  - exact (proj1 (proj2 (proj2 (proj2 H)))).
Defined.

(** X14.  When the upload is rejected (the network fails, the server
    answers with a status that is not ok, or the body is not JSON), the run
    ends there: the status is [error], the log holds the upload line and
    then the failure line with the reason, the upload stage is left running
    at 0 with the other stages pending, no generate request is made, and no
    connection is opened.  A response that is not ok is rejected with its
    status and status text. *)
Theorem failed_upload_ends_the_run :
  forall (clock : nat -> string) (w : App.World)
         (upload : Requests.Fetched Api.UploadResult.t) (err : string)
         (generate : Requests.Fetched string) (items : list Api.SseItem),
    App.videos (App.ui w) <> [] ->
    App.audio (App.ui w) <> None ->
    Requests.uploadFiles upload = App.Rejected err ->
    let final := App.run clock (Requests.script upload generate items) w in
    Requests.script upload generate items = App.UploadFails err
    /\ App.processStatus (App.ui final) = ProcessStatus.error
    /\ App.logs (App.ui final)
       = [ {| LogEntry.timestamp := clock (App.dateCalls w);
              LogEntry.message := "正在上传素材到后端服务器...";
              LogEntry.type := LogType.info |};
           {| LogEntry.timestamp := clock (S (App.dateCalls w));
              LogEntry.message := "请求失败: " ++ err;
              LogEntry.type := LogType.error |} ]
    /\ map (fun s => (ProcessStage.id s, ProcessStage.status s, ProcessStage.progress s))
           (App.stages (App.ui final))
       = [ ("upload", StageStatus.running, 0%Q); ("whisper", StageStatus.pending, 0%Q);
           ("beat", StageStatus.pending, 0%Q); ("ffmpeg", StageStatus.pending, 0%Q);
           ("finalize", StageStatus.pending, 0%Q) ]
    /\ App.overallProgress (App.ui final) = 0
    /\ App.downloadUrl (App.ui final) = None
    /\ App.unsubRef final = None
    /\ List.length (App.sources final) = List.length (App.sources w)
    /\ (forall res,
          upload = Requests.Responded res -> Requests.ok res = false ->
          err = "上传失败: " ++ JS.showNat (Requests.status res) ++ " "
                ++ Requests.statusText res).
Proof.
  intros clock w upload err generate items Hv Ha Hup final. subst final.
  unfold Requests.script. rewrite Hup. split; [reflexivity |]. unfold App.run.
  destruct (handleGenerate_waiting clock w Hv Ha)
    as (vf & af & sf & Hsusp & Hst & Hlog & Hov & Hurl & _ & Hun & Hlen & Hdate).
  destruct (App.handleGenerate clock w) as [w0 susp].
  cbn [fst snd] in *. subst susp. cbn [App.resume App.uploadSettled App.catch fst].
  unfold App.addLog, App.onUi. cbn [App.ui App.unsubRef App.sources App.dateCalls].
  unfold App.setLogs, App.setProcessStatus.
  cbn [App.processStatus App.logs App.stages App.overallProgress App.downloadUrl].
  rewrite Hst, Hlog, Hov, Hurl, Hun, Hlen, Hdate.
  repeat split.
  intros res -> Hok. unfold Requests.uploadFiles in Hup. rewrite Hok in Hup.
  simpl in Hup. now injection Hup as <-.
Qed.

Lemma failed_upload_ends_the_run_witness :
  let answer := Requests.Responded
                  {| Requests.ok := false; Requests.status := 413;
                     Requests.statusText := "Payload Too Large";
                     Requests.json := App.Rejected "Unexpected token" |} in
  let final := App.run Sample.clock
                 (Requests.script answer (Requests.Failed "unused") [])
                 Sample.finishedOnce in
  App.processStatus (App.ui final) = ProcessStatus.error
  /\ map LogEntry.message (App.logs (App.ui final))
     = ["正在上传素材到后端服务器..."; "请求失败: 上传失败: 413 Payload Too Large"].
Proof.
  intros answer final.
  assert (Hv : App.videos (App.ui Sample.finishedOnce) <> []) by discriminate.
  assert (Ha : App.audio (App.ui Sample.finishedOnce) <> None) by discriminate.
  pose proof (failed_upload_ends_the_run Sample.clock Sample.finishedOnce answer
                "上传失败: 413 Payload Too Large" (Requests.Failed "unused") []
                Hv Ha eq_refl) as H.
  split; [exact (proj1 (proj2 H)) |].
  subst final. rewrite (proj1 (proj2 (proj2 H))). reflexivity.
Defined.

(** X15.  When the upload succeeds and the generate request is rejected,
    the run ends there: the status is [error], the upload stage is
    completed at 100 and the other stages are pending, the overall progress
    is the 10 of the upload, the log holds the upload lines and then the
    failure line with the reason, and no connection is opened. *)
Theorem failed_generate_ends_the_run :
  forall (clock : nat -> string) (w : App.World)
         (upload : Requests.Fetched Api.UploadResult.t)
         (uploadResult : Api.UploadResult.t)
         (generate : Requests.Fetched string) (err : string)
         (items : list Api.SseItem),
    App.videos (App.ui w) <> [] ->
    App.audio (App.ui w) <> None ->
    Requests.uploadFiles upload = App.Resolved uploadResult ->
    Requests.startGenerate generate = App.Rejected err ->
    let final := App.run clock (Requests.script upload generate items) w in
    App.processStatus (App.ui final) = ProcessStatus.error
    /\ map (fun e => (LogEntry.timestamp e, LogEntry.type e)) (App.logs (App.ui final))
       = [ (clock (App.dateCalls w), LogType.info);
           (clock (1 + App.dateCalls w)%nat, LogType.success);
           (clock (2 + App.dateCalls w)%nat, LogType.info);
           (clock (3 + App.dateCalls w)%nat, LogType.error) ]
    /\ (exists before,
          map LogEntry.message (App.logs (App.ui final))
          = (before ++ [("请求失败: " ++ err)%string])%list)
    /\ map (fun s => (ProcessStage.id s, ProcessStage.status s, ProcessStage.progress s))
           (App.stages (App.ui final))
       = [ ("upload", StageStatus.completed, 100%Q); ("whisper", StageStatus.pending, 0%Q);
           ("beat", StageStatus.pending, 0%Q); ("ffmpeg", StageStatus.pending, 0%Q);
           ("finalize", StageStatus.pending, 0%Q) ]
    /\ App.overallProgress (App.ui final) = 10
    /\ App.downloadUrl (App.ui final) = None
    /\ App.unsubRef final = None
    /\ List.length (App.sources final) = List.length (App.sources w)
    /\ (forall res,
          generate = Requests.Responded res -> Requests.ok res = false ->
          err = "生成请求失败: " ++ JS.showNat (Requests.status res) ++ " "
                ++ Requests.statusText res).
Proof.
  intros clock w upload uploadResult generate err items Hv Ha Hup Hgen final.
  subst final. unfold Requests.script. rewrite Hup, Hgen. unfold App.run.
  destruct (handleGenerate_waiting clock w Hv Ha)
    as (vf & af & sf & Hsusp & Hst & Hlog & Hov & Hurl & _ & Hun & Hlen & Hdate).
  destruct (App.handleGenerate clock w) as [w0 susp].
  cbn [fst snd] in *. subst susp.
  cbn [App.resume App.uploadSettled App.generateSettled App.catch fst].
  unfold App.updateStage, App.addLog, App.onUi.
  cbn [App.ui App.unsubRef App.sources App.dateCalls].
  unfold App.setLogs, App.setProcessStatus, App.setOverallProgress, App.setStages.
  cbn [App.processStatus App.logs App.stages App.overallProgress App.downloadUrl].
  rewrite Hst, Hlog, Hurl, Hun, Hlen, Hdate.
  split; [reflexivity |]. split; [reflexivity |]. split; [eexists [_; _; _]; reflexivity |].
  repeat split.
  intros res -> Hok. unfold Requests.startGenerate in Hgen. rewrite Hok in Hgen.
  simpl in Hgen. now injection Hgen as <-.
Qed.

Lemma failed_generate_ends_the_run_witness :
  let upload := Requests.Responded
                  {| Requests.ok := true; Requests.status := 200;
                     Requests.statusText := "OK";
                     Requests.json := App.Resolved Sample.uploaded |} in
  let generate := Requests.Responded
                    {| Requests.ok := false; Requests.status := 500;
                       Requests.statusText := "Internal Server Error";
                       Requests.json := App.Resolved "never-read" |} in
  let final := App.run Sample.clock (Requests.script upload generate [])
                 Sample.finishedOnce in
  App.processStatus (App.ui final) = ProcessStatus.error
  /\ App.overallProgress (App.ui final) = 10.
Proof.
  intros upload generate final.
  assert (Hv : App.videos (App.ui Sample.finishedOnce) <> []) by discriminate.
  assert (Ha : App.audio (App.ui Sample.finishedOnce) <> None) by discriminate.
  pose proof (failed_generate_ends_the_run Sample.clock Sample.finishedOnce upload
                Sample.uploaded generate "生成请求失败: 500 Internal Server Error" []
                Hv Ha eq_refl eq_refl) as H.
  split; [exact (proj1 H) |].
  exact (proj1 (proj2 (proj2 (proj2 (proj2 H))))).
Defined.

(* ====================================================================== *)
(** ** The upload form and the audio card *)
(* ====================================================================== *)

Section FormFacts.

Import Requests.

Lemma getAll_videos_only videos :
  getAll "videos" (map (fun file => ("videos", file)) videos) = videos
  /\ getAll "audio" (map (fun file => ("videos", file)) videos) = []
  /\ getAll "subtitle" (map (fun file => ("videos", file)) videos) = [].
Proof.
  unfold getAll. induction videos as [| f rest (IH1 & IH2 & IH3)]; simpl; auto.
  repeat split; [now rewrite IH1 | exact IH2 | exact IH3].
Qed.

Lemma getAll_app name f1 f2 :
  getAll name (f1 ++ f2) = (getAll name f1 ++ getAll name f2)%list.
Proof. unfold getAll. now rewrite filter_app, map_app. Qed.

Lemma getAll_formData videos audio subtitle :
  getAll "videos" (formData videos audio subtitle) = videos
  /\ getAll "audio" (formData videos audio subtitle)
     = match audio with Some a => [a] | None => [] end
  /\ getAll "subtitle" (formData videos audio subtitle)
     = match subtitle with Some f => [f] | None => [] end.
Proof.
  unfold formData. rewrite !getAll_app.
  destruct (getAll_videos_only videos) as (-> & -> & ->).
  destruct audio, subtitle; simpl; rewrite ?app_nil_r; auto.
Qed.

End FormFacts.

(** X16.  The form [handleGenerate] has uploaded lists the video files in
    the order of the video list, then the audio file of the state, then the
    subtitle file if there is one; and the settings the run will use are
    the ones of the moment of the click. *)
Theorem upload_form_follows_the_state :
  forall (clock : nat -> string) (w w' : App.World)
         (videoFiles : list File.t) (audioFile : File.t)
         (subtitleFile : option File.t) (captured : ProjectSettings.t),
    App.handleGenerate clock w
    = (w', App.AwaitUpload videoFiles audioFile subtitleFile captured) ->
    let form := Requests.formData videoFiles (Some audioFile) subtitleFile in
    Requests.getAll "videos" form = map VideoItem.file (App.videos (App.ui w))
    /\ option_map (fun a => [AudioFile.file a]) (App.audio (App.ui w))
       = Some (Requests.getAll "audio" form)
    /\ Requests.getAll "subtitle" form
       = match App.subtitle (App.ui w) with
         | Some s => [SubtitleFile.file s]
         | None => []
         end
    /\ captured = App.settings (App.ui w).
Proof.
  intros clock w w' vf af sf cap H form. subst form.
  destruct (getAll_formData vf (Some af) sf) as (-> & -> & ->).
  unfold App.handleGenerate in H.
  destruct (Nat.eqb (List.length (App.videos (App.ui w))) 0); [discriminate |].
  destruct (App.audio (App.ui w)) as [a |] eqn:Ha; [| discriminate].
  unfold App.beginUpload in H.
  assert (Hui : App.ui (App.resetProgress (App.closePrevious w))
                = App.ui (App.resetProgress w)).
  { unfold App.resetProgress, App.closePrevious.
    destruct (App.unsubRef w) as [n |]; [| reflexivity].
    destruct (nth_error (App.sources w) n); reflexivity. }
  rewrite Hui in H. simpl in H. injection H as _ <- <- <- <-.
  repeat split. destruct (App.subtitle (App.ui w)); reflexivity.
Qed.

Lemma upload_form_follows_the_state_witness :
  exists w' videoFiles audioFile subtitleFile captured,
    App.handleGenerate Sample.clock Sample.finishedOnce
    = (w', App.AwaitUpload videoFiles audioFile subtitleFile captured)
    /\ Requests.getAll "videos"
         (Requests.formData videoFiles (Some audioFile) subtitleFile)
       = [Sample.file 1 "video/mp4"; Sample.file 2 "video/mp4"; Sample.file 3 "video/mp4"].
Proof.
  eexists _, _, _, _, _. split; [reflexivity |].
  exact (proj1 (upload_form_follows_the_state Sample.clock Sample.finishedOnce
                  _ _ _ _ _ eq_refl)).
Defined.

(** X17.  The audio card: choosing files makes the first of them the audio
    of the state, and that file is the one a following [handleGenerate]
    uploads; an empty choice changes nothing; after the card's remove
    button [handleGenerate] refuses to start. *)
Theorem audio_card_feeds_the_upload :
  forall (clock : nat -> string) (randomUUID : nat -> string) (n : nat)
         (f : File.t) (others : list File.t) (w : App.World),
    App.videos (App.ui w) <> [] ->
    (exists w' videoFiles subtitleFile captured,
        App.handleGenerate clock
          (App.onUi (App.wired App.setAudio
                       (fst (AudioSubtitleZone.onAudioFiles randomUUID
                               (Some (f :: others)) n))) w)
        = (w', App.AwaitUpload videoFiles f subtitleFile captured)
        /\ Requests.getAll "audio" (Requests.formData videoFiles (Some f) subtitleFile)
           = [f])
    /\ (forall files,
          AudioSubtitleZone.firstFile files = None ->
          App.wired App.setAudio
            (fst (AudioSubtitleZone.onAudioFiles randomUUID files n)) (App.ui w)
          = App.ui w)
    /\ snd (App.handleGenerate clock
              (App.onUi (App.wired App.setAudio AudioSubtitleZone.onAudioRemove) w))
       = App.Returned.
Proof.
  intros clock randomUUID n f others w Hv. split; [| split].
  - unfold App.handleGenerate. simpl.
    destruct (Nat.eqb (List.length (App.videos (App.ui w))) 0) eqn:E.
    { apply length_zero_nil in E. contradiction. }
    unfold App.beginUpload. eexists _, _, _, _. split; [reflexivity |].
    apply (proj1 (proj2 (getAll_formData _ (Some f) _))).
  - intros files Hnone. unfold AudioSubtitleZone.onAudioFiles. now rewrite Hnone.
  - unfold App.handleGenerate. simpl.
    destruct (Nat.eqb (List.length (App.videos (App.ui w))) 0); reflexivity.
Qed.

Lemma audio_card_feeds_the_upload_witness :
  App.videos (App.ui Sample.finishedOnce) <> []
  /\ exists w' videoFiles subtitleFile captured,
       App.handleGenerate Sample.clock
         (App.onUi (App.wired App.setAudio
                      (fst (AudioSubtitleZone.onAudioFiles Sample.randomUUID
                              (Some [Sample.file 7 "audio/wav"; Sample.file 8 "audio/ogg"])
                              5))) Sample.finishedOnce)
       = (w', App.AwaitUpload videoFiles (Sample.file 7 "audio/wav") subtitleFile captured)
       /\ Requests.getAll "audio"
            (Requests.formData videoFiles (Some (Sample.file 7 "audio/wav")) subtitleFile)
          = [Sample.file 7 "audio/wav"].
Proof.
  assert (Hv : App.videos (App.ui Sample.finishedOnce) <> []) by discriminate.
  split; [exact Hv |].
  exact (proj1 (audio_card_feeds_the_upload Sample.clock Sample.randomUUID 5
                  (Sample.file 7 "audio/wav") [Sample.file 8 "audio/ogg"]
                  Sample.finishedOnce Hv)).
Defined.

(* ====================================================================== *)
(** ** What the two panels show of a run *)
(* ====================================================================== *)

Section PanelFacts.

Import Api App Props.

Variable clock : nat -> string.

(** A terminal item arrived exactly when [onDone] or [onError] was called. *)
Lemma terminal_callback es items :
  closed es = false ->
  (existsb terminal items = true
   <-> In OnDone (snd (pump es items)) \/ exists m, In (OnError m) (snd (pump es items))).
Proof.
  intros Hopen. split.
  - intros E. destruct (first_terminal items E) as (pre & t & post & -> & Hpre & Ht).
    rewrite (pump_terminal es pre t post Hopen Hpre Ht). simpl.
    unfold dispatch, onmessage, onerror. rewrite Hopen.
    destruct t as [[d |] |]; simpl in Ht; try discriminate.
    + destruct (String.eqb (stage d) "end") eqn:E1.
      * left. apply in_or_app. right. now left.
      * destruct (String.eqb (stage d) "error") eqn:E2; [| discriminate].
        right. eexists. apply in_or_app. right. now left.
    + right. eexists. apply in_or_app. right. now left.
  - intros H. destruct (existsb terminal items) eqn:E; [reflexivity |].
    rewrite (pump_running es items Hopen E) in H. simpl in H.
    destruct H as [H | (m & H)]; apply not_In_events in H as (e & H); discriminate.
Qed.

(** The status and the download URL at the end of a run. *)
Lemma run_outcome script w :
  videos (ui w) <> [] -> audio (ui w) <> None ->
  let final := ui (run clock script w) in
  match script with
  | Streams _ tid items =>
      let cbs := snd (pump (subscribeProgress tid) items) in
      (In OnDone cbs
       /\ processStatus final = ProcessStatus.completed
       /\ downloadUrl final = Some (getDownloadUrl tid))
      \/ (existsb terminal items = true
          /\ ~ In OnDone cbs
          /\ processStatus final = ProcessStatus.error
          /\ downloadUrl final = None)
      \/ (existsb terminal items = false
          /\ ~ In OnDone cbs
          /\ processStatus final = ProcessStatus.processing
          /\ downloadUrl final = None)
  | _ => processStatus final = ProcessStatus.error /\ downloadUrl final = None
  end.
Proof.
  intros Hv Ha final. subst final. unfold run.
  destruct (handleGenerate_started clock w Hv Ha) as (vf & af & sf & Hsusp & Hurl & Hst).
  destruct (handleGenerate clock w) as [w0 susp]. cbn [fst snd] in *. subst susp.
  destruct script as [err | uploadResult err | uploadResult tid items]; unfold resume.
  - simpl. auto.
  - simpl. auto.
  - destruct (uploadSettled_resolved clock (settings (ui w)) uploadResult w0)
      as (config & _ & Hurl1 & Hst1).
    set (w1 := fst (uploadSettled clock (settings (ui w)) (Resolved uploadResult) w0)) in *.
    destruct (generateSettled_resolved clock tid w1)
      as (l & w2 & -> & Htid & Hsrc & Hurl2 & Hst2).
    pose proof (listen_outcome clock l w2 (subscribeProgress tid) items Hsrc eq_refl) as Hout.
    pose proof (terminal_callback (subscribeProgress tid) items eq_refl) as Hterm.
    cbv zeta in Hout |- *. rewrite Htid in Hout.
    assert (Hnone : downloadUrl (ui w2) = None) by congruence.
    assert (Hproc : processStatus (ui w2) = ProcessStatus.processing) by congruence.
    rewrite Hnone, Hproc in Hout.
    destruct Hout as [(Hd & He & Hu & Hs) | [(Hd & He & Hu & Hs) | (Hd & He & Hu & Hs)]].
    + left. auto.
    + right. left. repeat split; auto. apply Hterm. now right.
    + right. right. repeat split; auto.
      destruct (existsb terminal items); [| reflexivity].
      destruct (proj1 Hterm eq_refl) as [H | (m & H)]; [contradiction |].
      exfalso. exact (He m H).
Qed.

End PanelFacts.

(** X18.  After a run that passed validation the preview panel shows the
    player and the download button exactly when the stream reached its
    [end] event; a click on the button then opens the download URL of that
    run's task. *)
Theorem preview_is_ready_after_end :
  forall (clock : nat -> string) (script : App.Script) (w : App.World),
    App.videos (App.ui w) <> [] ->
    App.audio (App.ui w) <> None ->
    let final := App.ui (App.run clock script w) in
    (PreviewPanel.isReady (App.processStatus final) (App.downloadUrl final) = true
     <-> exists uploadResult taskId items,
           script = App.Streams uploadResult taskId items
           /\ In Api.OnDone (snd (Api.pump (Api.subscribeProgress taskId) items)))
    /\ (forall uploadResult taskId items,
          script = App.Streams uploadResult taskId items ->
          In Api.OnDone (snd (Api.pump (Api.subscribeProgress taskId) items)) ->
          PreviewPanel.download (App.processStatus final) (App.downloadUrl final)
          = Some (Api.getDownloadUrl taskId)).
Proof.
  intros clock script w Hv Ha final.
  pose proof (run_outcome clock script w Hv Ha) as H. cbv zeta in H. fold final in H.
  destruct script as [err | uploadResult err | uploadResult tid items].
  - destruct H as [-> ->]. split; [split |].
    + discriminate.
    + intros (? & ? & ? & [=] & _).
    + intros ? ? ? [=].
  - destruct H as [-> ->]. split; [split |].
    + discriminate.
    + intros (? & ? & ? & [=] & _).
    + intros ? ? ? [=].
  - destruct H as [(Hd & -> & ->) | [(_ & Hd & -> & ->) | (_ & Hd & -> & ->)]].
    + split; [split |].
      * intros _. eauto.
      * intros _. reflexivity.
      * intros ? ? ? [= _ <- <-] _. reflexivity.
    + split; [split |].
      * discriminate.
      * intros (? & ? & ? & [= _ <- <-] & Hin). contradiction.
      * intros ? ? ? [= _ <- <-] Hin. contradiction.
    + split; [split |].
      * discriminate.
      * intros (? & ? & ? & [= _ <- <-] & Hin). contradiction.
      * intros ? ? ? [= _ <- <-] Hin. contradiction.
Qed.

(** X19.  After a run that passed validation the generate button is
    disabled exactly when both requests succeeded and the stream has not
    yet brought an [end] event, an [error] event or a connection failure. *)
Theorem generate_button_is_disabled_while_running :
  forall (clock : nat -> string) (script : App.Script) (w : App.World),
    App.videos (App.ui w) <> [] ->
    App.audio (App.ui w) <> None ->
    (ProgressPanel.disabled (App.processStatus (App.ui (App.run clock script w))) = true
     <-> exists uploadResult taskId items,
           script = App.Streams uploadResult taskId items
           /\ existsb Props.terminal items = false).
Proof.
  intros clock script w Hv Ha.
  pose proof (run_outcome clock script w Hv Ha) as H. cbv zeta in H.
  destruct script as [err | uploadResult err | uploadResult tid items].
  - destruct H as [-> _]. split; [discriminate | intros (? & ? & ? & [=] & _)].
  - destruct H as [-> _]. split; [discriminate | intros (? & ? & ? & [=] & _)].
  - destruct H as [(Hd & -> & _) | [(Ht & _ & -> & _) | (Ht & _ & -> & _)]].
    + split; [discriminate |]. intros (? & ? & ? & [= _ <- <-] & Hnt).
      pose proof (proj2 (terminal_callback (Api.subscribeProgress tid) items eq_refl)
                    (or_introl Hd)). congruence.
    + split; [discriminate |]. intros (? & ? & ? & [= _ <- <-] & Hnt). congruence.
    + split; [eauto | reflexivity].
Qed.

Lemma preview_is_ready_after_end_witness :
  let script := App.Streams Sample.uploaded "task-0001-abcd"
                  [Api.Message (Some (Sample.event "finalize" 100));
                   Api.Message (Some (Sample.event "end" 100))] in
  let final := App.ui (App.run Sample.clock script Sample.finishedOnce) in
  PreviewPanel.isReady (App.processStatus final) (App.downloadUrl final) = true
  /\ PreviewPanel.download (App.processStatus final) (App.downloadUrl final)
     = Some "http://localhost:8000/api/download/task-0001-abcd".
Proof.
  intros script final.
  assert (Hv : App.videos (App.ui Sample.finishedOnce) <> []) by discriminate.
  assert (Ha : App.audio (App.ui Sample.finishedOnce) <> None) by discriminate.
  pose proof (preview_is_ready_after_end Sample.clock script Sample.finishedOnce Hv Ha)
    as [Hiff Hdl].
  split.
  - apply (proj2 Hiff). eexists _, _, _. split; [reflexivity | simpl; auto].
  - eapply Hdl; [reflexivity | simpl; auto].
Defined.

Lemma generate_button_is_disabled_while_running_witness :
  ProgressPanel.disabled
    (App.processStatus
       (App.ui (App.run Sample.clock
                  (App.Streams Sample.uploaded "task-0001-abcd"
                     [Api.Message (Some (Sample.event "whisper" 30));
                      Api.Message (Some (Sample.event "done" 100))])
                  Sample.finishedOnce))) = true.
Proof.
  assert (Hv : App.videos (App.ui Sample.finishedOnce) <> []) by discriminate.
  assert (Ha : App.audio (App.ui Sample.finishedOnce) <> None) by discriminate.
  apply (proj2 (generate_button_is_disabled_while_running Sample.clock _
                  Sample.finishedOnce Hv Ha)).
  eexists _, _, _. split; reflexivity.
Defined.

(* ====================================================================== *)
(** ** The timestamp of a log line *)
(* ====================================================================== *)

Section TimestampFacts.

Import JS.

(** A number below 100, padded, is two characters that read back as it. *)
Lemma padded_two n :
  (n < 100)%nat ->
  exists a b,
    padStart 2 "0" (showNat n) = String a (String b EmptyString)
    /\ parseInt (String a (String b EmptyString)) = Some (Int (Z.of_nat n)).
Proof.
  intros Hn.
  assert (Hall : forallb
                   (fun k =>
                      match padStart 2 "0" (showNat k) with
                      | String a (String b EmptyString) =>
                          match parseInt (String a (String b EmptyString)) with
                          | Some (Int v) => v =? Z.of_nat k
                          | _ => false
                          end
                      | _ => false
                      end) (seq 0 100) = true) by (vm_compute; reflexivity).
  rewrite forallb_forall in Hall.
  specialize (Hall n (proj2 (in_seq 100 0 n) (conj (Nat.le_0_l n) Hn))).
  destruct (padStart 2 "0" (showNat n)) as [| a [| b [| c rest]]]; try discriminate.
  exists a, b. split; [reflexivity |].
  destruct (parseInt (String a (String b EmptyString))) as [[v | |] |];
    try discriminate.
  apply Z.eqb_eq in Hall. now subst v.
Qed.

End TimestampFacts.

(** X20.  The timestamp of a log line is eight characters, [HH:MM:SS]:
    two-character fields separated by colons, each reading back as the
    hour, minute and second it was made from. *)
Theorem timestamp_reads_back :
  forall hours minutes seconds : nat,
    (hours < 24)%nat -> (minutes < 60)%nat -> (seconds < 60)%nat ->
    let stamp := App.timestamp hours minutes seconds in
    String.length stamp = 8%nat
    /\ String.get 2 stamp = Some ":"%char
    /\ String.get 5 stamp = Some ":"%char
    /\ JS.parseInt (String.substring 0 2 stamp) = Some (JS.Int (Z.of_nat hours))
    /\ JS.parseInt (String.substring 3 2 stamp) = Some (JS.Int (Z.of_nat minutes))
    /\ JS.parseInt (String.substring 6 2 stamp) = Some (JS.Int (Z.of_nat seconds)).
Proof.
  intros hours minutes seconds Hh Hm Hs stamp. subst stamp. unfold App.timestamp.
  destruct (padded_two hours ltac:(lia)) as (a1 & b1 & -> & P1).
  destruct (padded_two minutes ltac:(lia)) as (a2 & b2 & -> & P2).
  destruct (padded_two seconds ltac:(lia)) as (a3 & b3 & -> & P3).
  cbn [append String.length String.get String.substring Nat.eqb].
  repeat split; assumption.
Qed.

Lemma timestamp_reads_back_witness :
  (9 < 24)%nat /\ (5 < 60)%nat /\ (0 < 60)%nat
  /\ String.length (App.timestamp 9 5 0) = 8%nat
  /\ JS.parseInt (String.substring 3 2 (App.timestamp 9 5 0)) = Some (JS.Int 5).
Proof.
  assert (H1 : (9 < 24)%nat) by lia.
  assert (H2 : (5 < 60)%nat) by lia.
  assert (H3 : (0 < 60)%nat) by lia.
  pose proof (timestamp_reads_back 9 5 0 H1 H2 H3) as H.
  split; [exact H1 |]. split; [exact H2 |]. split; [exact H3 |].
  split; [exact (proj1 H) |].
  exact (proj1 (proj2 (proj2 (proj2 (proj2 H))))).
Defined.

Example timestamp_sample : App.timestamp 9 5 0 = "09:05:00".
Proof. reflexivity. Qed.

(* ====================================================================== *)
(** ** What the progress panel shows *)
(* ====================================================================== *)

(** X21.  Under progress events only the stage of the latest event can be
    running: if every stage that shows a percentage is the one last seen,
    this is still so after any number of further events. *)
Theorem only_the_current_stage_runs :
  forall (clock : nat -> string) (events : list Api.ProgressEvent)
         (lw : App.Listener * App.World),
    map ProcessStage.id (Props.stagesOf lw) = map ProcessStage.id App.INITIAL_STAGES ->
    (forall s p, In s (Props.stagesOf lw) -> ProgressPanel.shownPercent s = Some p ->
                 ProcessStage.id s = App.lastStage (fst lw)) ->
    forall s p,
      In s (Props.stagesOf (Props.handled clock events lw)) ->
      ProgressPanel.shownPercent s = Some p ->
      ProcessStage.id s = App.lastStage (fst (Props.handled clock events lw)).
Proof.
  intros clock events. unfold Props.handled.
  induction events as [| e rest IH]; intros lw Hids Hinv; [exact Hinv |].
  cbn [fold_left]. apply IH; [now rewrite onEvent_ids |].
  clear IH rest. destruct lw as [l w]. cbn [fst] in *.
  assert (Hlast : App.lastStage (fst (App.onEvent clock e (l, w))) = Api.stage e).
  { unfold App.onEvent.
    destruct (negb _ && negb _); destruct (String.eqb (Api.stage e) "done");
      try reflexivity; destruct (App.stageWeights _); reflexivity. }
  rewrite Hlast.
  assert (Hnamed : forall s, In s (Props.stagesOf (l, w)) -> ProcessStage.id s <> "").
  { intros s Hs E. apply (in_map ProcessStage.id) in Hs. rewrite Hids, E in Hs.
    simpl in Hs. repeat destruct Hs as [Hs | Hs]; try discriminate; exact Hs. }
  assert (Hrun : forall s p, ProgressPanel.shownPercent s = Some p ->
                             ProcessStage.status s = StageStatus.running).
  { intros s p. unfold ProgressPanel.shownPercent.
    destruct (ProcessStage.status s); now try discriminate. }
  assert (Hs1 : forall s p,
             In s (if negb (String.eqb (Api.stage e) (App.lastStage l))
                      && negb (String.eqb (App.lastStage l) "")
                   then App.updateStageIn (App.lastStage l) StageStatus.completed 100
                          (App.stages (App.ui w))
                   else App.stages (App.ui w)) ->
             ProgressPanel.shownPercent s = Some p ->
             ProcessStage.id s = Api.stage e).
  { intros s p Hin Hshown.
    destruct (String.eqb_spec (Api.stage e) (App.lastStage l)) as [Heq | Hne];
      destruct (String.eqb_spec (App.lastStage l) "") as [Hempty | Hfull];
      cbn [negb andb] in Hin.
    - rewrite Heq. exact (Hinv s p Hin Hshown).
    - rewrite Heq. exact (Hinv s p Hin Hshown).
    - exfalso. apply (Hnamed s Hin). rewrite <- Hempty. exact (Hinv s p Hin Hshown).
    - exfalso. apply updateStageIn_In in Hin as [(_ & Hst & _) | (Hid & Hin)].
      + pose proof (Hrun s p Hshown). congruence.
      + apply Hid. exact (Hinv s p Hin Hshown). }
  intros s p Hin Hshown. rewrite onEvent_stages in Hin. cbv zeta in Hin.
  destruct (String.eqb (Api.stage e) "done"); [exact (Hs1 s p Hin Hshown) |].
  apply updateStageIn_In in Hin as [(Hid & _) | (_ & Hin)]; [exact Hid |].
  exact (Hs1 s p Hin Hshown).
Qed.

Lemma only_the_current_stage_runs_witness :
  let events := [Sample.event "whisper" 50; Sample.event "beat" 10;
                 Sample.event "ffmpeg" 70] in
  map ProcessStage.id (Props.stagesOf Sample.listening)
  = map ProcessStage.id App.INITIAL_STAGES
  /\ Forall (fun s => ProgressPanel.shownPercent s = None
                      \/ ProcessStage.id s = "ffmpeg")
            (Props.stagesOf (Props.handled Sample.clock events Sample.listening)).
Proof.
  intros events.
  assert (Hids : map ProcessStage.id (Props.stagesOf Sample.listening)
                 = map ProcessStage.id App.INITIAL_STAGES) by reflexivity.
  split; [exact Hids |].
  apply Forall_forall. intros s Hin.
  destruct (ProgressPanel.shownPercent s) as [p |] eqn:Hshown; [right | now left].
  apply (only_the_current_stage_runs Sample.clock events Sample.listening Hids)
    with (p := p); [| exact Hin | exact Hshown].
  intros s0 p0 Hin0. simpl in Hin0.
  repeat destruct Hin0 as [<- | Hin0]; try discriminate. destruct Hin0.
Defined.

(** X22.  On a component that has not run yet, a refused [handleGenerate]
    leaves the status [idle]: the error line is in the log, but the panel
    renders its progress section, the log included, only for other
    statuses, and the button stays enabled. *)
Theorem refusal_is_not_shown_when_idle :
  forall (clock : nat -> string) (w : App.World),
    App.processStatus (App.ui w) = ProcessStatus.idle ->
    App.videos (App.ui w) = [] \/ App.audio (App.ui w) = None ->
    let w' := fst (App.handleGenerate clock w) in
    ProgressPanel.showsProgress (App.processStatus (App.ui w')) = false
    /\ ProgressPanel.disabled (App.processStatus (App.ui w')) = false
    /\ exists entry,
         App.logs (App.ui w') = (App.logs (App.ui w) ++ [entry])%list
         /\ LogEntry.type entry = LogType.error.
Proof.
  intros clock w Hidle Hmissing w'. subst w'. unfold App.handleGenerate.
  destruct (Nat.eqb (List.length (App.videos (App.ui w))) 0) eqn:E.
  - simpl. rewrite Hidle. repeat split. eexists. split; reflexivity.
  - destruct Hmissing as [H | H].
    + apply length_zero_nil in H. congruence.
    + rewrite H. simpl. rewrite Hidle. repeat split. eexists. split; reflexivity.
Qed.

Lemma refusal_is_not_shown_when_idle_witness :
  let w' := fst (App.handleGenerate Sample.clock Sample.nothingUploaded) in
  ProgressPanel.showsProgress (App.processStatus (App.ui w')) = false
  /\ List.length (App.logs (App.ui w')) = 1%nat.
Proof.
  intros w'.
  pose proof (refusal_is_not_shown_when_idle Sample.clock Sample.nothingUploaded
                eq_refl (or_introl eq_refl)) as H.
  split; [exact (proj1 H) |].
  destruct (proj2 (proj2 H)) as (entry & Hlog & _).
  subst w'. rewrite Hlog. reflexivity.
Defined.
